(** * domain-availability-mcp: the SSRF-safe HTTP prober, the parking
      classifier and the status merge of [lookup_domain]

    A shallow embedding of [src/services/http-verification.ts], of the
    parking tables of [src/types.ts] and of the status pipeline of
    [DomainMcpServer.handleLookupDomain] in [src/server.ts].

    Conventions.
    - A JavaScript string is a [string] holding its UTF-8 bytes.  Literal
      search ([includes], anchored literals of a regular expression) is
      then exact.  Case folding ([toLowerCase], the [i] flag) and the
      class [\s] act on the ASCII range only; bytes above 127 are left
      alone by the former and are not in the latter.
    - Network input is the environment: [fetchIPv4] is a function of the
      requests issued so far and of the requested URL, so it can answer
      the same URL differently each time.  The requests issued are kept
      in a log, which is how "no request is made" is stated.
    - Promises are awaited in program order; a rejected promise is the
      [Rejected] outcome carrying the error message. *)

From stdpp Require Import base gmap strings list.
From Equations Require Import Equations.
From Stdlib Require Import ZArith Lia Ascii String List.
Import ListNotations.
Open Scope string_scope.
Open Scope list_scope.

(** ** JavaScript string primitives *)

Module Js.

(** The one-character string holding a double quote. *)
Definition dquote : string := String "034" EmptyString.

Definition is_upper (c : ascii) : bool :=
  let n := nat_of_ascii c in (65 <=? n)%nat && (n <=? 90)%nat.

Definition is_digit (c : ascii) : bool :=
  let n := nat_of_ascii c in (48 <=? n)%nat && (n <=? 57)%nat.

(** [\s] on the ASCII range: TAB, LF, VT, FF, CR and space. *)
Definition is_space (c : ascii) : bool :=
  let n := nat_of_ascii c in
  ((9 <=? n)%nat && (n <=? 13)%nat) || (n =? 32)%nat.

Definition lower_char (c : ascii) : ascii :=
  if is_upper c then ascii_of_nat (nat_of_ascii c + 32) else c.

(** [s.toLowerCase()] *)
Fixpoint toLowerCase (s : string) : string :=
  match s with
  | EmptyString => EmptyString
  | String c t => String (lower_char c) (toLowerCase t)
  end.

(** [s.startsWith(p)], also the anchored literal [/^p/]. *)
Fixpoint startsWith (s p : string) {struct p} : bool :=
  match p with
  | EmptyString => true
  | String a p' =>
      match s with
      | EmptyString => false
      | String c s' => Ascii.eqb c a && startsWith s' p'
      end
  end.

(** [s.includes(p)], also the unanchored literal [/p/]. *)
Fixpoint includes (s p : string) : bool :=
  startsWith s p ||
  match s with
  | EmptyString => false
  | String _ t => includes t p
  end.

(** [s.endsWith(p)], also the anchored literal [/p$/]. *)
Fixpoint endsWith (s p : string) : bool :=
  String.eqb s p ||
  match s with
  | EmptyString => false
  | String _ t => endsWith t p
  end.

(** The digit value of a character ([0] for a non-digit). *)
Definition digit_val (c : ascii) : Z := Z.of_nat (nat_of_ascii c - 48).

End Js.

(** ** [src/types.ts] *)

Inductive DomainStatus : Type :=
  | available | taken | parked | for_sale | premium | unknown.

Inductive Confidence : Type := high | medium | low.

Record ParkingDetection : Type := mkParkingDetection {
  isParked : bool;
  broker : option string;
  indicators : list string;
  estimatedPrice : option string;
  confidence : Confidence
}.

Definition DomainStatus_eqb (a b : DomainStatus) : bool :=
  match a, b with
  | available, available | taken, taken | parked, parked
  | for_sale, for_sale | premium, premium | unknown, unknown => true
  | _, _ => false
  end.

(** [PARKING_PATTERNS.brokers], in the insertion order that
    [Object.entries] follows. *)
Definition PARKING_brokers : list (string * list string) :=
  [ ("sedo", ["sedo.com/"; "href=" +:+ Js.dquote +:+ "https://sedo.com";
              "Sedo.com"; "powered by sedo"]);
    ("dan", ["dan.com/"; "href=" +:+ Js.dquote +:+ "https://dan.com";
             "Dan.com domain"]);
    ("afternic", ["afternic.com/"; "Afternic.com"]);
    ("godaddy", ["godaddy.com/"; "GoDaddy Auctions";
                 "Get this domain at GoDaddy"]);
    ("namecheap", ["namecheap.com/market"; "Namecheap Marketplace"]);
    ("hugedomains", ["hugedomains.com/"; "HugeDomains.com"]);
    ("parkingcrew", ["parkingcrew.com"; "Powered by ParkingCrew"]);
    ("bodis", ["bodis.com/"; "Bodis.com"]) ].

(** [PARKING_PATTERNS.indicators] *)
Definition PARKING_indicators : list string :=
  [ "This domain is for sale";
    "Buy this domain";
    "Make an offer on this domain";
    "Domain parking";
    "Premium domain for sale";
    "Get this domain";
    "Domain is for sale";
    "Inquire about this domain";
    "This domain may be for sale";
    "domain has been registered";
    "parked free";
    "Buy Now for" ].

(** ** [src/services/http-verification.ts]: constants and results *)

Definition MIN_DOMAIN_PRICE : Z := 50.
Definition MAX_DOMAIN_PRICE : Z := 1000000.
Definition MAX_REDIRECTS : nat := 5.

Record HttpVerificationResult : Type := mkHttpVerificationResult {
  status : DomainStatus;
  parkingDetection : option ParkingDetection;
  httpStatus : option Z;
  redirectUrl : option string
}.

(** The object literal [{ status: 'unknown' }]. *)
Definition unknownResult : HttpVerificationResult :=
  mkHttpVerificationResult unknown None None None.

(** ** The SSRF blocklist *)

(** [/^172\.(1[6-9]|2[0-9]|3[0-1])\./] *)
Definition re_172 (s : string) : bool :=
  match s with
  | String "1" (String "7" (String "2" (String "." (String a (String b (String "." _)))))) =>
      let d := nat_of_ascii b in
      (Ascii.eqb a "1" && (54 <=? d)%nat && (d <=? 57)%nat)
      || (Ascii.eqb a "2" && (48 <=? d)%nat && (d <=? 57)%nat)
      || (Ascii.eqb a "3" && (48 <=? d)%nat && (d <=? 49)%nat)
  | _ => false
  end.

(** [blockedPatterns], each regular expression as its [test] function. *)
Definition blockedPatterns : list (string -> bool) :=
  [ (fun s => String.eqb (Js.toLowerCase s) "localhost");  (* /^localhost$/i *)
    (fun s => Js.startsWith s "127.");                     (* /^127\./ *)
    (fun s => Js.startsWith s "10.");                      (* /^10\./ *)
    (fun s => Js.startsWith s "192.168.");                 (* /^192\.168\./ *)
    re_172;
    (fun s => Js.startsWith s "169.254.");                 (* /^169\.254\./ *)
    (fun s => Js.startsWith s "0.");                       (* /^0\./ *)
    (fun s => Js.startsWith s "[::1]");                    (* /^\[::1\]/ *)
    (fun s => String.eqb s "::1");                         (* /^::1$/ *)
    (fun s => Js.startsWith (Js.toLowerCase s) "fc00:");   (* /^fc00:/i *)
    (fun s => Js.startsWith (Js.toLowerCase s) "fd00:");   (* /^fd00:/i *)
    (fun s => Js.startsWith (Js.toLowerCase s) "fe80:");   (* /^fe80:/i *)
    (fun s => Js.includes (Js.toLowerCase s) "metadata.google"); (* /metadata\.google/i *)
    (fun s => Js.endsWith (Js.toLowerCase s) ".internal")  (* /\.internal$/i *)
  ].

(** [isBlockedDomain]: [blockedPatterns.some(pattern => pattern.test(domain))] *)
Definition isBlockedDomain (domain : string) : bool :=
  existsb (fun pattern => pattern domain) blockedPatterns.

(** ** The content classifier *)

(** The two broker loops share one shape: for every broker, in order, and
    every pattern of the broker, in order, a pattern found in the lowered
    text sets [broker] and appends one indicator. *)
Definition scanBrokers (describe : string -> string) (textLower : string)
  : option string * list string :=
  fold_left
    (fun acc (entry : string * list string) =>
       let (brokerName, patterns) := entry in
       fold_left
         (fun (st : option string * list string) pattern =>
            if Js.includes textLower (Js.toLowerCase pattern)
            then (Some brokerName, snd st ++ [describe pattern])
            else st)
         patterns acc)
    PARKING_brokers (None, []).

(** [checkUrlForParking] *)
Definition checkUrlForParking (url : string) : ParkingDetection :=
  let urlLower := Js.toLowerCase url in
  let (broker, indicators) :=
    scanBrokers (fun pattern => "URL contains " +:+ pattern) urlLower in
  {| isParked := (0 <? length indicators)%nat;
     broker := broker;
     indicators := indicators;
     estimatedPrice := None;
     confidence := if (1 <? length indicators)%nat then high else medium |}.

(** *** Price patterns *)

(** One of the four [pricePatterns]: a literal currency marker, matched
    case-insensitively under the [i] flag, then [\s*] when the pattern has
    it, then [[\d,]+(?:\.\d{2})?]. *)
Record PricePattern : Type := mkPricePattern {
  marker : string;
  ignoreCase : bool;
  spaces : bool
}.

(** The third marker is written with its bytes: the source file holds the
    three characters U+00E2 U+201A U+00AC there. *)
Definition euroMarker : string :=
  String "195" (String "162" (String "226" (String "128" (String "154"
    (String "194" (String "172" EmptyString)))))).

Definition pricePatterns : list PricePattern :=
  [ mkPricePattern "$" false false;     (* /\$[\d,]+(?:\.\d{2})?/g *)
    mkPricePattern "USD" true true;     (* /USD\s*[\d,]+(?:\.\d{2})?/gi *)
    mkPricePattern euroMarker false false;
    mkPricePattern "EUR" true true ].   (* /EUR\s*[\d,]+(?:\.\d{2})?/gi *)

(** The longest prefix of [s] whose characters satisfy [p], and the rest:
    a greedy [c*]. *)
Fixpoint span (p : ascii -> bool) (s : string) : string * string :=
  match s with
  | EmptyString => (EmptyString, EmptyString)
  | String c t =>
      if p c then let (a, b) := span p t in (String c a, b)
      else (EmptyString, s)
  end.

Definition is_digit_or_comma (c : ascii) : bool :=
  Js.is_digit c || Ascii.eqb c ",".

(** [(?:\.\d{2})?] at the head of [s]: the text it takes and the rest. *)
Definition takeFraction (s : string) : string * string :=
  match s with
  | String "." (String d1 (String d2 r)) =>
      if Js.is_digit d1 && Js.is_digit d2
      then (String "." (String d1 (String d2 EmptyString)), r)
      else (EmptyString, s)
  | _ => (EmptyString, s)
  end.

(** The literal [m] at the head of [s]: the text of [s] it covers and the
    rest. *)
Fixpoint takeMarker (ci : bool) (m s : string) : option (string * string) :=
  match m with
  | EmptyString => Some (EmptyString, s)
  | String a m' =>
      match s with
      | EmptyString => None
      | String c t =>
          if (if ci then Ascii.eqb (Js.lower_char c) (Js.lower_char a)
              else Ascii.eqb c a)
          then match takeMarker ci m' t with
               | Some (x, r) => Some (String c x, r)
               | None => None
               end
          else None
      end
  end.

(** One attempt of a price pattern at the head of [s]: the matched text
    and what follows it.  Every quantifier is greedy and none can give a
    character back to its successor, so the first attempt decides. *)
Definition matchAt (p : PricePattern) (s : string) : option (string * string) :=
  match takeMarker (ignoreCase p) (marker p) s with
  | None => None
  | Some (m, r0) =>
      let (sp, r1) := if spaces p then span Js.is_space r0
                      else (EmptyString, r0) in
      let (ds, r2) := span is_digit_or_comma r1 in
      match ds with
      | EmptyString => None
      | _ => let (fr, r3) := takeFraction r2 in
             Some (m +:+ sp +:+ ds +:+ fr, r3)
      end
  end.

(** [html.match(pattern)] for a global pattern: the matches from left to
    right, the search resuming after each match.  [skip] counts the
    characters of the last match still to be passed over. *)
Fixpoint scanMatches (p : PricePattern) (s : string) (skip : nat) : list string :=
  match s with
  | EmptyString => []
  | String _ t =>
      match skip with
      | S k => scanMatches p t k
      | O =>
          match matchAt p s with
          | Some (m, _) => m :: scanMatches p t (String.length m - 1)
          | None => scanMatches p t 0
          end
      end
  end.

Definition matchAll (p : PricePattern) (s : string) : list string :=
  scanMatches p s 0.

(** [match.replace(/[^0-9.]/g, '')] *)
Fixpoint keepNumeric (s : string) : string :=
  match s with
  | EmptyString => EmptyString
  | String c t =>
      if Js.is_digit c || Ascii.eqb c "." then String c (keepNumeric t)
      else keepNumeric t
  end.

(** A decimal numeral read exactly: [mantissa / 10 ^ scale]. *)
Record Decimal : Type := mkDecimal { mantissa : Z; scale : nat }.

(** The digits at the head of [s], folded into [acc]: the value, how many
    digits were read, and the rest. *)
Fixpoint readDigits (s : string) (acc : Z) (n : nat) : Z * nat * string :=
  match s with
  | String c t =>
      if Js.is_digit c then readDigits t (10 * acc + Js.digit_val c)%Z (S n)
      else (acc, n, s)
  | EmptyString => (acc, n, s)
  end.

(** [parseFloat] on a string of digits and dots: the longest prefix
    [digits [. digits]] or [. digits], or [None] for [NaN] when that
    prefix holds no digit. *)
Definition parseFloat (s : string) : option Decimal :=
  let '(ip, ni, r) := readDigits s 0%Z 0 in
  match r with
  | String "." t =>
      let '(v, nf, _) := readDigits t ip 0 in
      if (ni + nf =? 0)%nat then None else Some (mkDecimal v nf)
  | _ => if (ni =? 0)%nat then None else Some (mkDecimal ip 0)
  end.

(** [numericValue >= MIN_DOMAIN_PRICE && numericValue <= MAX_DOMAIN_PRICE].
    The comparison is made on the exact value.  A match has no fraction or
    a fraction of exactly two digits, so its value is a multiple of 1/100;
    rounding to a double is monotone and keeps 50 and 1000000, hence the
    double compares with both bounds as the exact value does. *)
Definition inPriceBand (v : option Decimal) : bool :=
  match v with
  | None => false
  | Some d =>
      ((MIN_DOMAIN_PRICE * 10 ^ Z.of_nat (scale d) <=? mantissa d)
       && (mantissa d <=? MAX_DOMAIN_PRICE * 10 ^ Z.of_nat (scale d)))%Z
  end.

Definition plausiblePrice (m : string) : bool :=
  inPriceBand (parseFloat (keepNumeric m)).

(** The price loop: for every pattern, the first match in the band sets
    [estimatedPrice] and appends one indicator. *)
Definition scanPrices (html : string) (st : option string * list string)
  : option string * list string :=
  fold_left
    (fun (st : option string * list string) pattern =>
       match find plausiblePrice (matchAll pattern html) with
       | Some m => (Some m, snd st ++ ["Price detected: " +:+ m])
       | None => st
       end)
    pricePatterns st.

(** *** Word count *)

(** [html.replace(/<[^>]*>/g, '')]: a [<] opens a tag when some [>]
    follows it; the text up to the first such [>] is dropped. *)
Fixpoint stripTags (inTag : bool) (s : string) : string :=
  match s with
  | EmptyString => EmptyString
  | String c t =>
      if inTag then stripTags (negb (Ascii.eqb c ">")) t
      else if Ascii.eqb c "<" && Js.includes t ">" then stripTags true t
      else String c (stripTags false t)
  end.

Fixpoint trimStart (s : string) : string :=
  match s with
  | String c t => if Js.is_space c then trimStart t else s
  | EmptyString => EmptyString
  end.

Fixpoint reverse (s acc : string) : string :=
  match s with
  | EmptyString => acc
  | String c t => reverse t (String c acc)
  end.

(** [s.trim()] *)
Definition trim (s : string) : string :=
  reverse (trimStart (reverse (trimStart s) EmptyString)) EmptyString.

(** The number of maximal runs of [\s] in [s]. *)
Fixpoint spaceRuns (inRun : bool) (s : string) : nat :=
  match s with
  | EmptyString => 0
  | String c t =>
      if Js.is_space c
      then (if inRun then 0 else 1) + spaceRuns true t
      else spaceRuns false t
  end.

(** [textContent.split(/\s+/).length]: one more piece than separators. *)
Definition wordCount (html : string) : nat :=
  S (spaceRuns false (trim (stripTags false html))).

(** [analyzeHtml] *)
Definition analyzeHtml (html : string) : ParkingDetection :=
  let htmlLower := Js.toLowerCase html in
  let (broker, indicators0) :=
    scanBrokers
      (fun pattern => "Found " +:+ Js.dquote +:+ pattern +:+ Js.dquote +:+ " in page")
      htmlLower in
  let indicators1 :=
    fold_left
      (fun inds indicator =>
         if Js.includes htmlLower (Js.toLowerCase indicator)
         then inds ++ ["Found " +:+ Js.dquote +:+ indicator +:+ Js.dquote]
         else inds)
      PARKING_indicators indicators0 in
  let (estimatedPrice, indicators2) := scanPrices html (None, indicators1) in
  let indicators3 :=
    if (wordCount html <? 50)%nat && (0 <? length indicators2)%nat
    then indicators2 ++ ["Minimal page content"]
    else indicators2 in
  let confidence :=
    if (match broker with Some _ => true | None => false end)
       && (3 <=? length indicators3)%nat
    then high
    else if (2 <=? length indicators3)%nat then medium
    else low in
  {| isParked := (2 <=? length indicators3)%nat
                 || (match broker with Some _ => true | None => false end);
     broker := broker;
     indicators := indicators3;
     estimatedPrice := estimatedPrice;
     confidence := confidence |}.

(** ** The bounded fetcher *)

(** What the prober reads of a [Response]: the status code, the
    [location] and [content-type] headers ([None] for [null]) and what
    [readResponseWithLimit] resolves to ([None] for [null]). *)
Record Response : Type := mkResponse {
  responseStatus : Z;
  headerLocation : option string;
  headerContentType : option string;
  responseText : option string
}.

(** The promise returned by [fetchIPv4]: rejected with an error, of which
    the handler reads the message, or resolved with a response. *)
Inductive FetchOutcome : Type :=
  | Rejected (errorMessage : string)
  | Resolved (response : Response).

(** What the prober reads of a [URL] object. *)
Record URL : Type := mkURL {
  hostname : string;
  href : string     (* [toString()] *)
}.

(** The requests issued so far, oldest first. *)
Definition RequestLog : Type := list string.

(** What one hop decides: a result, or the validated URL to fetch next. *)
Inductive HopDecision : Type :=
  | Final (result : HttpVerificationResult)
  | Follow (next : string).

(** A truthy string: neither [null] nor empty. *)
Definition truthy (s : option string) : option string :=
  match s with
  | Some EmptyString => None
  | _ => s
  end.

(** The [catch (error)] block of [tryFetch]. *)
Definition handleError (errorMessage : string) : HttpVerificationResult :=
  if Js.includes errorMessage "ENOTFOUND"
     || Js.includes errorMessage "EAI_AGAIN"
     || Js.includes errorMessage "getaddrinfo"
  then unknownResult
  else if Js.includes errorMessage "ECONNREFUSED"
          && Js.includes errorMessage "::1"
  then unknownResult
  else if Js.includes errorMessage "ECONNREFUSED"
          || Js.includes errorMessage "ETIMEDOUT"
          || Js.includes errorMessage "ECONNRESET"
          || Js.includes errorMessage "abort"
  then unknownResult
  else if Js.includes errorMessage "SSL"
          || Js.includes errorMessage "certificate"
          || Js.includes errorMessage "CERT"
  then unknownResult
  else unknownResult.

Section Prober.

(** [fetchIPv4(url, ...)], given the requests issued before it. *)
Variable fetchIPv4 : RequestLog -> string -> FetchOutcome.

(** [new URL(location, url)]; [None] when the constructor throws. *)
Variable newURL : string -> string -> option URL.

(** The body of [tryFetch] after the response has arrived. *)
Definition handleResponse (url : string) (response : Response) : HopDecision :=
  if ((300 <=? responseStatus response) && (responseStatus response <? 400))%Z
  then
    match truthy (headerLocation response) with
    | Some location =>
        match newURL location url with
        | Some redirectUrl =>
            if isBlockedDomain (hostname redirectUrl)
            then Final unknownResult
            else
              let redirectParkingCheck := checkUrlForParking (href redirectUrl) in
              if isParked redirectParkingCheck
              then Final {| status := parked;
                            parkingDetection := Some redirectParkingCheck;
                            httpStatus := Some (responseStatus response);
                            redirectUrl := Some (href redirectUrl) |}
              else Follow (href redirectUrl)
        | None => Final unknownResult
        end
    | None => Final unknownResult
    end
  else
    let contentType :=
      match truthy (headerContentType response) with
      | Some c => c
      | None => EmptyString
      end in
    let plain := {| status := taken;
                    parkingDetection := None;
                    httpStatus := Some (responseStatus response);
                    redirectUrl := None |} in
    if Js.includes contentType "text/html"
    then
      match truthy (responseText response) with
      | Some html =>
          let parkingDetection := analyzeHtml html in
          if isParked parkingDetection
          then Final {| status := match broker parkingDetection with
                                  | Some _ => for_sale
                                  | None => parked
                                  end;
                        parkingDetection := Some parkingDetection;
                        httpStatus := Some (responseStatus response);
                        redirectUrl := None |}
          else Final plain
      | None => Final plain
      end
    else Final plain.

(** [tryFetch(url, redirectCount)]: the result and the request log
    after the call. *)
Equations tryFetch (url : string) (redirectCount : nat) (log : RequestLog)
  : HttpVerificationResult * RequestLog
  by wf (MAX_REDIRECTS - redirectCount) lt :=
  tryFetch url redirectCount log with le_lt_dec MAX_REDIRECTS redirectCount := {
    | left _ => (unknownResult, log)
    | right _ with fetchIPv4 log url := {
        | Rejected errorMessage => (handleError errorMessage, log ++ [url])
        | Resolved response with handleResponse url response := {
            | Final result => (result, log ++ [url])
            | Follow next => tryFetch next (redirectCount + 1) (log ++ [url])
          }
      }
  }.
Next Obligation. lia. Qed.

(** The body of [tryFetch] below the bound: one request, then the
    decision of [handleResponse]. *)
Definition hopResult (url : string) (redirectCount : nat) (log : RequestLog)
  : HttpVerificationResult * RequestLog :=
  match fetchIPv4 log url with
  | Rejected errorMessage => (handleError errorMessage, log ++ [url])
  | Resolved response =>
      match handleResponse url response with
      | Final result => (result, log ++ [url])
      | Follow next => tryFetch next (redirectCount + 1) (log ++ [url])
      end
  end.

(** [verifyDomain] *)
Definition verifyDomain (domain : string) (log : RequestLog)
  : HttpVerificationResult * RequestLog :=
  if isBlockedDomain domain then (unknownResult, log)
  else
    let (result, log1) := tryFetch ("https://" +:+ domain) 0 log in
    if DomainStatus_eqb (status result) unknown
    then tryFetch ("http://" +:+ domain) 0 log1
    else (result, log1).

End Prober.

(** The statuses a probe can return. *)
Definition probeStatus (s : DomainStatus) : Prop :=
  s = taken \/ s = parked \/ s = for_sale \/ s = unknown.

(** ** Bulk verification *)

(** [array.slice(i, j)] *)
Definition slice {T : Type} (array : list T) (i j : nat) : list T :=
  firstn (j - i) (skipn i array).

(** The loop of [chunkArray], from index [i] on.  With [size = 0] the
    source never leaves the loop; the model stops there. *)
Equations chunksFrom {T : Type} (array : list T) (size i : nat) : list (list T)
  by wf (length array - i) lt :=
  chunksFrom array 0 i := [];
  chunksFrom array (S k) i with lt_dec i (length array) := {
    | left _ => slice array i (i + S k) :: chunksFrom array (S k) (i + S k)
    | right _ => []
  }.
Next Obligation. lia. Qed.

(** [chunkArray] *)
Definition chunkArray {T : Type} (array : list T) (size : nat) : list (list T) :=
  chunksFrom array size 0.

Section Bulk.

(** The probe run on every domain, with the state it reads and leaves
    (for [verifyDomain], the request log).  The probes of one chunk run
    concurrently in the source; here they are run in the order of the
    chunk.  What is proved of [verifyBulk] holds for every [probe], so
    for whatever each of them returns. *)
Context {State : Type}.
Variable probe : string -> State -> HttpVerificationResult * State.

(** [Promise.all(chunk.map(async domain => ...))] *)
Fixpoint verifyChunk (chunk : list string) (st : State)
  : list (string * HttpVerificationResult) * State :=
  match chunk with
  | [] => ([], st)
  | domain :: rest =>
      let (result, st1) := probe domain st in
      let (others, st2) := verifyChunk rest st1 in
      ((domain, result) :: others, st2)
  end.

(** [for (const { domain, result } of chunkResults) results.set(domain, result)] *)
Definition setAll (results : gmap string HttpVerificationResult)
    (chunkResults : list (string * HttpVerificationResult))
  : gmap string HttpVerificationResult :=
  fold_left (fun m (e : string * HttpVerificationResult) => <[fst e := snd e]> m)
            chunkResults results.

Definition verifyBulkWith (domains : list string) (st : State)
  : gmap string HttpVerificationResult * State :=
  let concurrency := 5 in
  let chunks := chunkArray domains concurrency in
  fold_left
    (fun (acc : gmap string HttpVerificationResult * State) chunk =>
       let (chunkResults, st') := verifyChunk chunk (snd acc) in
       (setAll (fst acc) chunkResults, st'))
    chunks (∅, st).

End Bulk.

(** [verifyBulk] *)
Definition verifyBulk (fetchIPv4 : RequestLog -> string -> FetchOutcome)
    (newURL : string -> string -> option URL)
    (domains : list string) (log : RequestLog)
  : gmap string HttpVerificationResult * RequestLog :=
  verifyBulkWith (verifyDomain fetchIPv4 newURL) domains log.

(** ** [src/server.ts]: the status pipeline of [handleLookupDomain] *)

Module Rdap.
(** What the server reads of an [RdapResult]. *)
Record RdapResult : Type := mkRdapResult {
  available : bool;
  registered : bool
}.
End Rdap.

(** What [handleLookupDomain] writes of a [LookupDomainResult] in the
    steps that touch the status; [L] is the type of a listing. *)
Record LookupDomainResult (L : Type) : Type := mkLookupDomainResult {
  availabilityStatus : DomainStatus;
  verificationMethod : string;
  aftermarket : option (list L);
  parking : option ParkingDetection;
  lookupHttpStatus : option Z;
  lookupRedirectUrl : option string
}.
Arguments mkLookupDomainResult {L}.
Arguments availabilityStatus {L}.
Arguments verificationMethod {L}.
Arguments aftermarket {L}.
Arguments parking {L}.
Arguments lookupHttpStatus {L}.
Arguments lookupRedirectUrl {L}.

(** Step 1: the status from the registry answer. *)
Definition rdapStatus (rdapResult : Rdap.RdapResult) : DomainStatus :=
  if Rdap.available rdapResult then available
  else if Rdap.registered rdapResult then taken
  else unknown.

(** The listings pushed in step 3: the truthy answers, in provider order. *)
Definition collectListings {L : Type} (answers : list (option L)) : list L :=
  flat_map (fun a => match a with Some l => [l] | None => [] end) answers.

(** Step 3 on the result: [answers] holds what [getDomainListing]
    returned for each configured aftermarket provider. *)
Definition aftermarketStep {L : Type} (include_aftermarket : bool)
    (answers : list (option L)) (result : LookupDomainResult L)
  : LookupDomainResult L :=
  if include_aftermarket && (0 <? length answers)%nat
  then
    let listings := collectListings answers in
    if (0 <? length listings)%nat     (* [allListings.isListed] *)
    then mkLookupDomainResult
           (if DomainStatus_eqb (availabilityStatus result) taken
            then for_sale else availabilityStatus result)
           (verificationMethod result) (Some listings) (parking result)
           (lookupHttpStatus result) (lookupRedirectUrl result)
    else result
  else result.

(** Step 4 on the result: [httpResult] is what [verifyDomain] returned. *)
Definition httpStep {L : Type} (include_parking enableHttpVerification : bool)
    (httpResult : HttpVerificationResult) (result : LookupDomainResult L)
  : LookupDomainResult L :=
  if include_parking && enableHttpVerification
  then
    let merged :=
      if DomainStatus_eqb (status httpResult) parked
         || DomainStatus_eqb (status httpResult) for_sale
      then mkLookupDomainResult (status httpResult) "http_check"
             (aftermarket result) (parkingDetection httpResult)
             (lookupHttpStatus result) (lookupRedirectUrl result)
      else if DomainStatus_eqb (status httpResult) taken
              && DomainStatus_eqb (availabilityStatus result) available
      then mkLookupDomainResult taken (verificationMethod result)
             (aftermarket result) (parking result)
             (lookupHttpStatus result) (lookupRedirectUrl result)
      else result in
    mkLookupDomainResult (availabilityStatus merged) (verificationMethod merged)
      (aftermarket merged) (parking merged)
      (httpStatus httpResult) (redirectUrl httpResult)
  else result.

(** [handleLookupDomain] on a validated domain, as a function of what the
    services answered.  Step 2 (pricing) writes [result.pricing] only and
    is left out. *)
Definition handleLookupDomain {L : Type}
    (include_aftermarket include_parking enableHttpVerification : bool)
    (rdapResult : Rdap.RdapResult) (answers : list (option L))
    (httpResult : HttpVerificationResult) : LookupDomainResult L :=
  let result :=
    mkLookupDomainResult (rdapStatus rdapResult) "rdap" None None None None in
  let result := aftermarketStep include_aftermarket answers result in
  httpStep include_parking enableHttpVerification httpResult result.

(** ** Predicates and sample environments used by the statements *)

(** A URL that passed the redirect validation of [tryFetch]: the text of a
    [URL] object built by [new URL] whose host is not blocked. *)
Definition validatedTarget (newURL : string -> string -> option URL)
    (u : string) : Prop :=
  exists location base target,
    newURL location base = Some target
    /\ href target = u
    /\ isBlockedDomain (hostname target) = false.

(** The derivation rule for [confidence] and [isParked], as the
    specification words it. *)
Definition derivationInvariant (p : ParkingDetection) : Prop :=
  let n := length (indicators p) in
  let hasBroker := broker p <> None in
  (confidence p = high <-> hasBroker /\ 3 <= n)
  /\ (confidence p = medium <-> ~ (hasBroker /\ 3 <= n) /\ 2 <= n)
  /\ (confidence p = low <-> ~ (hasBroker /\ 3 <= n) /\ ~ 2 <= n)
  /\ (isParked p = true <-> 2 <= n \/ hasBroker).

(** [b], followed by [c], is what a price pattern matches at the head of
    [b ++ c]: an occurrence of a price-like substring. *)
Definition priceMatch (b c : string) : Prop :=
  exists p, In p pricePatterns /\ matchAt p (b +:+ c) = Some (b, c).

(** The body [pre ++ price ++ post] has no price-like substring but inside
    the shown occurrence of [price]: wherever a price pattern matches, the
    matched text lies within that occurrence. *)
Definition onlyPriceLike (pre price post : string) : Prop :=
  forall a b c,
    pre +:+ price +:+ post = a +:+ b +:+ c ->
    priceMatch b c ->
    String.length pre <= String.length a
    /\ String.length post <= String.length c.

(** A decision procedure for [onlyPriceLike] on a concrete body: at every
    position, a match of a price pattern starts at or after the
    occurrence ([before] characters ahead) and leaves at least [after]
    characters behind it. *)
Definition matchInside (before after : nat) (s : string) (p : PricePattern) : bool :=
  match matchAt p s with
  | None => true
  | Some (_, r) => (before =? 0)%nat && (after <=? String.length r)%nat
  end.

Fixpoint matchesInside (before after : nat) (s : string) : bool :=
  forallb (matchInside before after s) pricePatterns
  && match s with
     | EmptyString => true
     | String _ t => matchesInside (before - 1) after t
     end.

(** A server that answers every request with a redirect to [location]. *)
Definition alwaysRedirect (location : string) : RequestLog -> string -> FetchOutcome :=
  fun _ _ => Resolved (mkResponse 302 (Some location) None None).

(** A listing page of a broker, as a redirect destination. *)
Definition sedoLocation : string :=
  "https://sedo.com/search/details/?domain=example.com".

(** The metadata endpoint of a cloud host, as a redirect destination. *)
Definition metadataLocation : string :=
  "http://169.254.169.254/latest/meta-data/".

(** Twelve distinct domains. *)
Definition twelveDomains : list string :=
  [ "a.com"; "b.com"; "c.com"; "d.com"; "e.com"; "f.com";
    "g.com"; "h.com"; "i.com"; "j.com"; "k.com"; "l.com" ].

(** A server that rejects every request with [errorMessage]. *)
Definition alwaysReject (errorMessage : string) : RequestLog -> string -> FetchOutcome :=
  fun _ _ => Rejected errorMessage.

(** A [new URL] for absolute locations on one host. *)
Definition urlOnHost (host : string) : string -> string -> option URL :=
  fun location _ => Some (mkURL host location).

(** ** Further predicates on probe results *)

(** The shape of a result of [tryFetch]: parking evidence is attached
    exactly to the parked and for_sale results and is positive; a for_sale
    result names a broker; the HTTP status code is missing exactly from
    the unknown results; a redirect URL is reported on parked results
    only. *)
Definition resultShape (r : HttpVerificationResult) : Prop :=
  (parkingDetection r <> None <-> status r = parked \/ status r = for_sale)
  /\ (forall pd, parkingDetection r = Some pd -> isParked pd = true)
  /\ (status r = for_sale ->
      exists pd b, parkingDetection r = Some pd /\ broker pd = Some b)
  /\ (httpStatus r = None <-> status r = unknown)
  /\ (redirectUrl r <> None -> status r = parked).

(** ** Closed forms of the classifier loops *)

(** The signatures of one broker found in the lowered text, in order. *)
Definition brokerMatches (textLower : string) (entry : string * list string)
  : list string :=
  filter (fun pattern => Js.includes textLower (Js.toLowerCase pattern)) (snd entry).

(** The brokers with at least one signature in the lowered text, in the
    order of the table. *)
Definition matchingBrokers (textLower : string) : list string :=
  map fst
      (filter (fun entry => (0 <? length (brokerMatches textLower entry))%nat)
              PARKING_brokers).

(** The texts that the loops of [analyzeHtml] before the word count push. *)
Definition evidenceText (s : string) : Prop :=
  Js.startsWith s "Found " = true \/ Js.startsWith s "Price detected: " = true.

(** ** [readResponseWithLimit] *)

Definition MAX_RESPONSE_SIZE : nat := 1024 * 1024.

(** What one [reader.read()] gives before the stream is done: a chunk of
    bytes, or a rejection.  A stream is the list of its reads; its end is
    [done]. *)
Inductive ReadEvent : Type :=
  | ReadValue (value : string)
  | ReadThrows.

(** [n] zero bytes, the content of a fresh [Uint8Array]. *)
Fixpoint zeros (n : nat) : string :=
  match n with
  | O => EmptyString
  | S k => String "000" (zeros k)
  end.

(** The [while (true)] loop: the chunks kept and [totalSize], or [None]
    when a read throws. *)
Fixpoint readLoop (events : list ReadEvent) (chunks : list string)
    (totalSize : nat) : option (list string * nat) :=
  match events with
  | [] => Some (chunks, totalSize)
  | ReadThrows :: _ => None
  | ReadValue value :: rest =>
      let totalSize := totalSize + String.length value in
      if (MAX_RESPONSE_SIZE <? totalSize)%nat
      then Some (chunks, totalSize)          (* [reader.cancel(); break] *)
      else readLoop rest (chunks ++ [value]) totalSize
  end.

(** The copy loop: [filled] holds the bytes written so far, from offset 0;
    [capacity] is [concatenated.length]. *)
Fixpoint copyLoop (chunks : list string) (filled : string) (capacity : nat)
  : string :=
  match chunks with
  | [] => filled
  | chunk :: rest =>
      if (capacity <? String.length filled + String.length chunk)%nat
      then filled +:+ String.substring 0 (capacity - String.length filled) chunk
      else copyLoop rest (filled +:+ chunk) capacity
  end.

(** The array [concatenated] when the function reaches the decoder. *)
Definition responseBytes (body : option (list ReadEvent)) : option string :=
  match body with
  | None => None                              (* [if (!reader) return null] *)
  | Some events =>
      match readLoop events [] 0 with
      | None => None                          (* [catch { return null }] *)
      | Some (chunks, totalSize) =>
          let capacity :=
            if (MAX_RESPONSE_SIZE <? totalSize)%nat
            then MAX_RESPONSE_SIZE else totalSize in
          let filled := copyLoop chunks EmptyString capacity in
          Some (filled +:+ zeros (capacity - String.length filled))
      end
  end.

(** [readResponseWithLimit]; [decode] is [new TextDecoder().decode]. *)
Definition readResponseWithLimit (decode : string -> string)
    (body : option (list ReadEvent)) : option string :=
  option_map decode (responseBytes body).

(** The bytes of a list of chunks, in order. *)
Fixpoint joinChunks (chunks : list string) : string :=
  match chunks with
  | [] => EmptyString
  | chunk :: rest => chunk +:+ joinChunks rest
  end.

(** The chunks of a stream that has no failing read. *)
Fixpoint streamValues (events : list ReadEvent) : option (list string) :=
  match events with
  | [] => Some []
  | ReadValue value :: rest => option_map (cons value) (streamValues rest)
  | ReadThrows :: _ => None
  end.

(** ** [src/server.ts]: input validation *)

Definition MAX_DOMAIN_LENGTH : nat := 253.

(** A tool argument: a string, or a value of another type. *)
Inductive JsValue : Type :=
  | JsString (s : string)
  | JsOther.

(** What a validator does: it returns the normalized text or throws an
    [Error] with a message. *)
Inductive Validation : Type :=
  | Valid (normalized : string)
  | Invalid (message : string).

(** [[a-z0-9]] *)
Definition is_lower_alnum (c : ascii) : bool :=
  let n := nat_of_ascii c in
  ((97 <=? n)%nat && (n <=? 122)%nat) || Js.is_digit c.

(** [[a-z0-9-]] *)
Definition is_label_char (c : ascii) : bool :=
  is_lower_alnum c || Ascii.eqb c "-".

Fixpoint allChars (f : ascii -> bool) (s : string) : bool :=
  match s with
  | EmptyString => true
  | String c t => f c && allChars f t
  end.

Definition startsAlnum (s : string) : bool :=
  match s with
  | EmptyString => false
  | String c _ => is_lower_alnum c
  end.

Fixpoint endsAlnum (s : string) : bool :=
  match s with
  | EmptyString => false
  | String c EmptyString => is_lower_alnum c
  | String _ t => endsAlnum t
  end.

(** [[a-z0-9]([a-z0-9-]*[a-z0-9])?] over a whole string: not empty, made
    of letters, digits and hyphens, with no hyphen at either end. *)
Definition isLabel (s : string) : bool :=
  startsAlnum s && allChars is_label_char s && endsAlnum s.

(** [s.split(sep)] for a one-character separator. *)
Fixpoint splitOn (sep : ascii) (s : string) : list string :=
  match s with
  | EmptyString => [EmptyString]
  | String c t =>
      if Ascii.eqb c sep then EmptyString :: splitOn sep t
      else match splitOn sep t with
           | h :: r => String c h :: r
           | [] => [String c EmptyString]
           end
  end.

(** [DOMAIN_REGEX.test]: the pattern
    [^label(\.label)+$] holds when the pieces between the dots are two or
    more labels, a label having no dot. *)
Definition DOMAIN_REGEX (s : string) : bool :=
  let labels := splitOn "." s in
  (2 <=? length labels)%nat && forallb isLabel labels.

(** [KEYWORD_REGEX.test]: [^[a-z0-9][a-z0-9-]*[a-z0-9]$|^[a-z0-9]$]. *)
Definition KEYWORD_REGEX (s : string) : bool := isLabel s.

(** [validateDomain] *)
Definition validateDomain (domain : JsValue) : Validation :=
  match domain with
  | JsOther => Invalid "Domain must be a string"
  | JsString d =>
      let normalized := trim (Js.toLowerCase d) in
      if (String.length normalized =? 0)%nat
      then Invalid "Domain cannot be empty"
      else if (MAX_DOMAIN_LENGTH <? String.length normalized)%nat
      then Invalid "Domain exceeds maximum length of 253 characters"
      else if negb (DOMAIN_REGEX normalized)
      then Invalid "Invalid domain format. Expected format: example.com"
      else Valid normalized
  end.

(** [validateKeyword] *)
Definition validateKeyword (keyword : JsValue) : Validation :=
  match keyword with
  | JsOther => Invalid "Keyword must be a string"
  | JsString k =>
      let normalized := trim (Js.toLowerCase k) in
      if (String.length normalized =? 0)%nat
      then Invalid "Keyword cannot be empty"
      else if (63 <? String.length normalized)%nat
      then Invalid "Keyword exceeds maximum length of 63 characters"
      else if negb (KEYWORD_REGEX normalized)
      then Invalid "Invalid keyword format. Use only letters, numbers, and hyphens"
      else Valid normalized
  end.

(** [domain.split('.').pop() || ''] *)
Definition tldOf (domain : string) : string :=
  last (splitOn "." domain) EmptyString.

(** [tld.toLowerCase().replace(/^\./, '')] *)
Definition normalizeTld (tld : string) : string :=
  match Js.toLowerCase tld with
  | String "." t => t
  | t => t
  end.

(** The domain that [handleSearchDomains] builds for one TLD:
    [`${normalizedKeyword}.${tld.toLowerCase().replace(/^\./, '')}`]. *)
Definition searchDomain (normalizedKeyword tld : string) : string :=
  normalizedKeyword +:+ "." +:+ normalizeTld tld.

(** ** The RDAP service *)

From Stdlib Require Import DecimalString.

(** A number in a template literal (an integer status code). *)
Definition showInteger (n : Z) : string := NilZero.string_of_int (Z.to_int n).

Module RdapService.

(** [RDAP_SERVERS], the hard-coded fallback table. *)
Definition RDAP_SERVERS : list (string * string) :=
  [ ("com", "https://rdap.verisign.com/com/v1");
    ("net", "https://rdap.verisign.com/net/v1");
    ("org", "https://rdap.publicinterestregistry.org/rdap");
    ("info", "https://rdap.afilias.net/rdap/info");
    ("biz", "https://rdap.nic.biz");
    ("io", "https://rdap.nic.io");
    ("dev", "https://rdap.nic.google");
    ("app", "https://rdap.nic.google");
    ("ai", "https://rdap.nic.ai");
    ("sh", "https://rdap.nic.sh");
    ("co", "https://rdap.nic.co");
    ("me", "https://rdap.nic.me");
    ("xyz", "https://rdap.nic.xyz");
    ("tech", "https://rdap.nic.tech");
    ("run", "https://rdap.nic.run");
    ("uk", "https://rdap.nominet.uk/uk");
    ("de", "https://rdap.denic.de");
    ("nl", "https://rdap.sidn.nl");
    ("eu", "https://rdap.eurid.eu");
    ("au", "https://rdap.auda.org.au");
    ("ca", "https://rdap.ca.fury.ca/rdap");
    ("us", "https://rdap.nic.us");
    ("gg", "https://rdap.ci.gg");
    ("tv", "https://rdap.nic.tv");
    ("fm", "https://rdap.nic.fm") ].

(** What [getRdapServer] can return besides [null]: a URL, or, for the
    two lower-case keys that the object [RDAP_SERVERS] inherits from
    [Object.prototype], the inherited value. *)
Inductive ServerRef : Type :=
  | ServerUrl (url : string)
  | ObjectConstructor          (* [RDAP_SERVERS["constructor"]] *)
  | ObjectPrototype.           (* [RDAP_SERVERS["__proto__"]] *)

(** [`${rdapServer}`] *)
Definition serverText (r : ServerRef) : string :=
  match r with
  | ServerUrl url => url
  | ObjectConstructor => "function Object() { [native code] }"
  | ObjectPrototype => "[object Object]"
  end.

(** [!rdapServer] is false. *)
Definition serverTruthy (r : option ServerRef) : bool :=
  match r with
  | None => false
  | Some (ServerUrl EmptyString) => false
  | Some _ => true
  end.

(** [RDAP_SERVERS[key]], own property first, then the prototype. *)
Definition hardcodedServer (key : string) : option ServerRef :=
  match find (fun entry => String.eqb (fst entry) key) RDAP_SERVERS with
  | Some entry => Some (ServerUrl (snd entry))
  | None =>
      if String.eqb key "constructor" then Some ObjectConstructor
      else if String.eqb key "__proto__" then Some ObjectPrototype
      else None
  end.

(** The fields [bootstrapCache] and [bootstrapLoaded] of the service. *)
Record State : Type := mkState {
  bootstrapCache : gmap string string;
  bootstrapLoaded : bool
}.

(** A fresh service. *)
Definition initial : State := mkState ∅ false.

(** [url.replace(/\/$/, '')] *)
Fixpoint dropTrailingSlash (url : string) : string :=
  match url with
  | EmptyString => EmptyString
  | String "/" EmptyString => EmptyString
  | String c t => String c (dropTrailingSlash t)
  end.

(** The loop over [data.services] of [loadBootstrap]; a service is the
    pair of its TLD list and its URL list. *)
Definition parseServices (services : list (list string * list string))
    (cache : gmap string string) : gmap string string :=
  fold_left
    (fun cache (service : list string * list string) =>
       match snd service with
       | [] => cache
       | url :: _ =>
           let rdapUrl := dropTrailingSlash url in
           fold_left (fun cache tld => <[Js.toLowerCase tld := rdapUrl]> cache)
                     (fst service) cache
       end)
    services cache.

(** [getRdapServer] *)
Definition getRdapServer (st : State) (tld : string) : option ServerRef :=
  let normalizedTld := Js.toLowerCase tld in
  match bootstrapCache st !! normalizedTld with
  | Some url => Some (ServerUrl url)
  | None =>
      if serverTruthy (hardcodedServer normalizedTld)
      then hardcodedServer normalizedTld
      else None
  end.

(** The promise of a [fetchIPv4] whose body is read with [json()]:
    rejected, or resolved with a status code and what [json()] gives, the
    message of the error it throws or the data. *)
Inductive JsonOutcome (T : Type) : Type :=
  | JsonRejected (errorMessage : string)
  | JsonResolved (code : Z) (json : string + T).
Arguments JsonRejected {T}.
Arguments JsonResolved {T}.

(** [response.ok] *)
Definition responseOk (code : Z) : bool := ((200 <=? code) && (code <=? 299))%Z.

(** What [parseRdapResponse] reads of an entity. *)
Record Entity : Type := mkEntity {
  roles : option (list string);
  publicIds : option (list (string * string))     (* type, identifier *)
}.

(** What the service reads of an [RdapDomainResponse]. *)
Record RdapDomainResponse : Type := mkRdapDomainResponse {
  responseStatusList : option (list string);     (* [status] *)
  events : option (list (string * string));      (* eventAction, eventDate *)
  entities : option (list Entity)
}.

Record RdapResult : Type := mkRdapResult {
  available : bool;
  registered : bool;
  domain : string;
  registrar : option string;
  createdDate : option string;
  expirationDate : option string;
  statusList : option (list string);              (* [status] *)
  error : option string
}.

(** The object literals of [checkDomain]. *)
Definition failed (domain message : string) : RdapResult :=
  mkRdapResult false false domain None None None None (Some message).

Definition notRegistered (domain : string) : RdapResult :=
  mkRdapResult true false domain None None None None None.

(** [parseRdapResponse] *)
Definition parseRdapResponse (domain : string) (data : RdapDomainResponse)
  : RdapResult :=
  let dates :=
    fold_left
      (fun (acc : option string * option string) (event : string * string) =>
         if String.eqb (fst event) "registration" then (Some (snd event), snd acc)
         else if String.eqb (fst event) "expiration" then (fst acc, Some (snd event))
         else acc)
      (match events data with Some l => l | None => [] end) (None, None) in
  let registrar :=
    fold_left
      (fun (acc : option string) (entity : Entity) =>
         if match roles entity with
            | Some rs => existsb (String.eqb "registrar") rs
            | None => false
            end
         then
           fold_left
             (fun (acc : option string) (id : string * string) =>
                if String.eqb (fst id) "IANA Registrar ID"
                then Some ("IANA ID: " +:+ snd id) else acc)
             (match publicIds entity with Some l => l | None => [] end) acc
         else acc)
      (match entities data with Some l => l | None => [] end) None in
  mkRdapResult false true domain registrar (fst dates) (snd dates)
               (responseStatusList data) None.

Definition bootstrapUrl : string := "https://data.iana.org/rdap/dns.json".

Section Network.

(** The answers to the bootstrap request and to a domain request, given
    the requests issued so far.  The two stand for the one [fetchIPv4];
    each has the type of the JSON that the caller casts the body to. *)
Variable fetchBootstrap :
  RequestLog -> JsonOutcome (list (list string * list string)).
Variable fetchDomain : RequestLog -> string -> JsonOutcome RdapDomainResponse.

(** [loadBootstrap] *)
Definition loadBootstrap (st : State) (log : RequestLog) : State * RequestLog :=
  if bootstrapLoaded st then (st, log)
  else
    match fetchBootstrap log with
    | JsonResolved code (inr services) =>
        if responseOk code
        then (mkState (parseServices services (bootstrapCache st)) true,
              log ++ [bootstrapUrl])
        else (st, log ++ [bootstrapUrl])
    | JsonResolved code (inl _) =>
        (* [json()] is called, and throws, only when [response.ok] *)
        (st, log ++ [bootstrapUrl])
    | JsonRejected _ => (st, log ++ [bootstrapUrl])
    end.

(** [checkDomain] *)
Definition checkDomain (domain : string) (st : State) (log : RequestLog)
  : RdapResult * (State * RequestLog) :=
  let normalizedDomain := trim (Js.toLowerCase domain) in
  let tld := tldOf normalizedDomain in
  let (st1, log1) :=
    if bootstrapLoaded st then (st, log) else loadBootstrap st log in
  let rdapServer := getRdapServer st1 tld in
  if negb (serverTruthy rdapServer)
  then (failed normalizedDomain ("No RDAP server found for TLD: ." +:+ tld),
        (st1, log1))
  else
    let url :=
      match rdapServer with
      | Some r => serverText r
      | None => EmptyString
      end +:+ "/domain/" +:+ normalizedDomain in
    let result :=
      match fetchDomain log1 url with
      | JsonRejected message =>
          failed normalizedDomain ("RDAP query failed: " +:+ message)
      | JsonResolved code json =>
          if (code =? 404)%Z then notRegistered normalizedDomain
          else if responseOk code
          then match json with
               | inr data => parseRdapResponse normalizedDomain data
               | inl message =>
                   failed normalizedDomain ("RDAP query failed: " +:+ message)
               end
          else failed normalizedDomain
                      ("RDAP returned status " +:+ showInteger code)
      end in
    (result, (st1, log1 ++ [url])).

(** The loop of [checkBulk]. *)
Fixpoint checkEach (domains : list string)
    (results : gmap string RdapResult) (st : State) (log : RequestLog)
  : gmap string RdapResult * (State * RequestLog) :=
  match domains with
  | [] => (results, (st, log))
  | domain :: rest =>
      let '(result, (st1, log1)) := checkDomain domain st log in
      checkEach rest (<[domain := result]> results) st1 log1
  end.

(** [checkBulk] *)
Definition checkBulk (domains : list string) (st : State) (log : RequestLog)
  : gmap string RdapResult * (State * RequestLog) :=
  let (st1, log1) :=
    if bootstrapLoaded st then (st, log) else loadBootstrap st log in
  checkEach domains ∅ st1 log1.

End Network.

(** What [handleLookupDomain] reads of the result. *)
Definition serverView (r : RdapResult) : Rdap.RdapResult :=
  Rdap.mkRdapResult (available r) (registered r).

End RdapService.


(** ** [src/providers]: the provider registry and its providers *)

Module Providers.

(** The [Provider] interface, as far as the registry reads it. *)
Class Provider (P : Type) : Type := {
  name : P -> string;
  isConfigured : P -> bool
}.

(** The pricing providers: [TldListProvider] with its [apiKey], and
    [PorkbunProvider]. *)
Inductive PricingProvider : Type :=
  | TldListProvider (apiKey : string)
  | PorkbunProvider.

(** The aftermarket provider, with its [bearerToken]. *)
Inductive AftermarketProvider : Type :=
  | NamecheapAuctionsProvider (bearerToken : string).

#[global] Instance pricingProvider : Provider PricingProvider := {|
  name p :=
    match p with
    | TldListProvider _ => "tld-list"
    | PorkbunProvider => "porkbun"
    end;
  isConfigured p :=
    match p with
    | TldListProvider apiKey => (0 <? String.length apiKey)%nat
    | PorkbunProvider => true
    end
|}.

#[global] Instance aftermarketProvider : Provider AftermarketProvider := {|
  name p := "namecheap-auctions";
  isConfigured p :=
    match p with
    | NamecheapAuctionsProvider bearerToken =>
        (0 <? String.length bearerToken)%nat          (* [!!this.bearerToken] *)
    end
|}.

(** [Map.prototype.set] on a map kept in insertion order: the value of a
    key already there is replaced in place, a new key goes last. *)
Fixpoint mapSet {V : Type} (key : string) (value : V) (m : list (string * V))
  : list (string * V) :=
  match m with
  | [] => [(key, value)]
  | (k, v) :: rest =>
      if String.eqb k key then (k, value) :: rest
      else (k, v) :: mapSet key value rest
  end.

Record ProviderRegistry : Type := mkProviderRegistry {
  pricingProviders : list (string * PricingProvider);
  aftermarketProviders : list (string * AftermarketProvider)
}.

(** [new ProviderRegistry()] *)
Definition empty : ProviderRegistry := mkProviderRegistry [] [].

(** [registerPricingProvider] *)
Definition registerPricingProvider (provider : PricingProvider)
    (registry : ProviderRegistry) : ProviderRegistry :=
  if negb (isConfigured provider) then registry
  else mkProviderRegistry
         (mapSet (name provider) provider (pricingProviders registry))
         (aftermarketProviders registry).

(** [registerAftermarketProvider] *)
Definition registerAftermarketProvider (provider : AftermarketProvider)
    (registry : ProviderRegistry) : ProviderRegistry :=
  if negb (isConfigured provider) then registry
  else mkProviderRegistry
         (pricingProviders registry)
         (mapSet (name provider) provider (aftermarketProviders registry)).

(** [getPricingProviders] and [getAftermarketProviders] *)
Definition getPricingProviders (registry : ProviderRegistry)
  : list PricingProvider := map snd (pricingProviders registry).

Definition getAftermarketProviders (registry : ProviderRegistry)
  : list AftermarketProvider := map snd (aftermarketProviders registry).

End Providers.

(** ** [src/server.ts]: configuration and provider set-up *)

(** [a || b] on strings that may be [undefined]. *)
Definition orElse (a b : option string) : option string :=
  match truthy a with
  | Some s => Some s
  | None => b
  end.

(** [a && b] on strings that may be [undefined]. *)
Definition andAlso (a b : option string) : option string :=
  match truthy a with
  | Some _ => b
  | None => a
  end.

(** [s || ''] *)
Definition orEmpty (s : option string) : string :=
  match truthy s with
  | Some x => x
  | None => EmptyString
  end.

(** What the server reads of a [NamecheapConfig]. *)
Record NamecheapConfig : Type := mkNamecheapConfig {
  auctionsToken : option string;
  apiUser : option string;
  apiKey : option string;
  username : option string;
  clientIp : option string
}.

(** What the modelled handlers read of a [ServerConfig]. *)
Record ServerConfig : Type := mkServerConfig {
  namecheap : option NamecheapConfig;
  tldListApiKey : option string;
  enableHttpVerification : bool
}.

(** [process.env] *)
Definition Env : Type := string -> option string.

(** [createConfigFromEnv] *)
Definition createConfigFromEnv (env : Env) : ServerConfig :=
  let namecheapAuctionsToken := env "NAMECHEAP_AUCTIONS_TOKEN" in
  let namecheapApiUser := env "NAMECHEAP_API_USER" in
  let namecheapApiKey := env "NAMECHEAP_API_KEY" in
  let namecheapUsername := env "NAMECHEAP_USERNAME" in
  let namecheapClientIp := env "NAMECHEAP_CLIENT_IP" in
  let hasAuctionsToken :=
    match truthy namecheapAuctionsToken with Some _ => true | None => false end in
  let hasLegacyCredentials :=
    andAlso (andAlso (andAlso namecheapApiUser namecheapApiKey)
                     namecheapUsername) namecheapClientIp in
  mkServerConfig
    (if hasAuctionsToken
        || match truthy hasLegacyCredentials with Some _ => true | None => false end
     then Some (mkNamecheapConfig namecheapAuctionsToken namecheapApiUser
                                  namecheapApiKey namecheapUsername
                                  namecheapClientIp)
     else None)
    (env "TLD_LIST_API_KEY")
    (negb (match env "DISABLE_HTTP_VERIFICATION" with
           | Some v => String.eqb v "true"
           | None => false
           end)).

(** [new TldListProvider({ apiKey })]: [this.apiKey = config.apiKey || ''] *)
Definition newTldListProvider (apiKey : option string)
  : Providers.PricingProvider :=
  Providers.TldListProvider (orEmpty apiKey).

(** [new NamecheapAuctionsProvider({ auctionsToken, ... })]:
    [config.auctionsToken || process.env.NAMECHEAP_AUCTIONS_TOKEN || ''] *)
Definition newNamecheapAuctionsProvider (env : Env) (auctionsToken : option string)
  : Providers.AftermarketProvider :=
  Providers.NamecheapAuctionsProvider
    (orEmpty (orElse auctionsToken (env "NAMECHEAP_AUCTIONS_TOKEN"))).

(** [initializeProviders] *)
Definition initializeProviders (env : Env) (config : ServerConfig)
    (registry : Providers.ProviderRegistry) : Providers.ProviderRegistry :=
  let registry :=
    match truthy (tldListApiKey config) with
    | Some _ =>
        Providers.registerPricingProvider
          (newTldListProvider (tldListApiKey config)) registry
    | None =>
        Providers.registerPricingProvider Providers.PorkbunProvider registry
    end in
  match namecheap config with
  | Some nc =>
      Providers.registerAftermarketProvider
        (newNamecheapAuctionsProvider env (auctionsToken nc)) registry
  | None => registry
  end.

(** Whether the constructor creates [this.namecheapService]. *)
Definition hasNamecheapService (config : ServerConfig) : bool :=
  match namecheap config with
  | Some nc =>
      match truthy (andAlso (andAlso (andAlso (apiUser nc) (apiKey nc))
                                     (username nc)) (clientIp nc)) with
      | Some _ => true
      | None => false
      end
  | None => false
  end.

(** ** [src/server.ts]: the tool handlers *)

(** What a handler returns: an error text ([isError: true]) or the value
    it serialises. *)
Inductive ToolResult (T : Type) : Type :=
  | ToolError (text : string)
  | ToolOk (value : T).
Arguments ToolError {T}.
Arguments ToolOk {T}.

(** A [DomainCheckResult] without its price, registrar and time fields. *)
Record DomainCheckResult : Type := mkDomainCheckResult {
  checkedDomain : string;                          (* [domain] *)
  checkedTld : string;                             (* [tld] *)
  checkedStatus : DomainStatus;                    (* [status] *)
  checkedParking : option ParkingDetection;        (* [parkingDetection] *)
  checkedHttpStatus : option Z;                    (* [httpStatus] *)
  checkedRedirectUrl : option string;              (* [redirectUrl] *)
  checkedMethod : string                           (* [verificationMethod] *)
}.

Definition setStatus (s : DomainStatus) (r : DomainCheckResult)
  : DomainCheckResult :=
  mkDomainCheckResult (checkedDomain r) (checkedTld r) s (checkedParking r)
    (checkedHttpStatus r) (checkedRedirectUrl r) (checkedMethod r).

Definition setParking (p : option ParkingDetection) (r : DomainCheckResult)
  : DomainCheckResult :=
  mkDomainCheckResult (checkedDomain r) (checkedTld r) (checkedStatus r) p
    (checkedHttpStatus r) (checkedRedirectUrl r) (checkedMethod r).

Definition setHttpStatus (c : option Z) (r : DomainCheckResult)
  : DomainCheckResult :=
  mkDomainCheckResult (checkedDomain r) (checkedTld r) (checkedStatus r)
    (checkedParking r) c (checkedRedirectUrl r) (checkedMethod r).

Definition setRedirectUrl (u : option string) (r : DomainCheckResult)
  : DomainCheckResult :=
  mkDomainCheckResult (checkedDomain r) (checkedTld r) (checkedStatus r)
    (checkedParking r) (checkedHttpStatus r) u (checkedMethod r).

Definition setMethod (m : string) (r : DomainCheckResult) : DomainCheckResult :=
  mkDomainCheckResult (checkedDomain r) (checkedTld r) (checkedStatus r)
    (checkedParking r) (checkedHttpStatus r) (checkedRedirectUrl r) m.

(** What [namecheapService.checkDomain] gives: it throws, or resolves
    with a result of which the handler reads the status. *)
Inductive NamecheapAnswer : Type :=
  | NamecheapThrows
  | NamecheapResult (namecheapStatus : DomainStatus).

(** What [handleDetectParking] serialises. *)
Record ParkingReport : Type := mkParkingReport {
  reportDomain : string;                           (* [domain] *)
  reportIsParked : bool;                           (* [isParked] *)
  reportStatus : DomainStatus;                     (* [status] *)
  reportParking : option ParkingDetection;         (* [parkingDetection] *)
  reportHttpStatus : option Z;                     (* [httpStatus] *)
  reportRedirectUrl : option string                (* [redirectUrl] *)
}.

(** A [BulkCheckResult]; the four tallies are its fields [available],
    [taken], [parked] and [forSale]. *)
Record BulkCheckResult : Type := mkBulkCheckResult {
  bulkResults : list DomainCheckResult;            (* [results] *)
  totalChecked : nat;
  availableCount : nat;
  takenCount : nat;
  parkedCount : nat;
  forSaleCount : nat
}.

(** [results.filter(r => r.status === s).length] *)
Definition countStatus (s : DomainStatus) (results : list DomainCheckResult)
  : nat :=
  length (filter (fun r => DomainStatus_eqb (checkedStatus r) s) results).

(** [lines.join('\n')] *)
Fixpoint joinLines (lines : list string) : string :=
  match lines with
  | [] => EmptyString
  | [line] => line
  | line :: rest => line +:+ String "010" (joinLines rest)
  end.

(** The validation loop of [handleCheckBulk], from index [i]. *)
Fixpoint validateEach (i : nat) (domains : list JsValue)
    (normalizedDomains validationErrors : list string)
  : list string * list string :=
  match domains with
  | [] => (normalizedDomains, validationErrors)
  | d :: rest =>
      match validateDomain d with
      | Valid normalized =>
          validateEach (S i) rest (normalizedDomains ++ [normalized])
                       validationErrors
      | Invalid message =>
          validateEach (S i) rest normalizedDomains
            (validationErrors
               ++ ["domains[" +:+ showInteger (Z.of_nat i) +:+ "]: " +:+ message])
      end
  end.

(** The entry that the RDAP fall-back of [handleCheckBulk] pushes for one
    domain. *)
Definition rdapEntry (rdapResults : gmap string RdapService.RdapResult)
    (domain : string) : DomainCheckResult :=
  let result :=
    mkDomainCheckResult domain (tldOf domain) unknown None None None "rdap" in
  match rdapResults !! domain with
  | Some rdapResult =>
      if RdapService.available rdapResult then setStatus available result
      else if RdapService.registered rdapResult then setStatus taken result
      else result
  | None => result
  end.

(** The body of the merge loop of [handleCheckBulk] for one result. *)
Definition mergeHttp (httpResults : gmap string HttpVerificationResult)
    (result : DomainCheckResult) : DomainCheckResult :=
  match httpResults !! checkedDomain result with
  | Some httpResult =>
      if DomainStatus_eqb (status httpResult) taken
      then setRedirectUrl (redirectUrl httpResult)
             (setHttpStatus (httpStatus httpResult) (setStatus taken result))
      else if DomainStatus_eqb (status httpResult) parked
              || DomainStatus_eqb (status httpResult) for_sale
      then setHttpStatus (httpStatus httpResult)
             (setParking (parkingDetection httpResult)
                (setStatus (status httpResult) result))
      else if DomainStatus_eqb (status httpResult) available
              && negb (DomainStatus_eqb (checkedStatus result) available)
      then setStatus available result
      else result
  | None => result
  end.

(** A listing of an aftermarket provider, as [handleSearchDomains] reads
    it, and the entry it keeps for a domain; [Price] is the type of
    [price], a number. *)
Record AftermarketListing (Price : Type) : Type := mkAftermarketListing {
  listingDomain : string;                          (* [domain] *)
  listingPrice : Price;                            (* [price] *)
  listingCurrency : string;                        (* [currency] *)
  listingSource : string                           (* [source] *)
}.
Arguments mkAftermarketListing {Price}.
Arguments listingDomain {Price}.
Arguments listingPrice {Price}.
Arguments listingCurrency {Price}.
Arguments listingSource {Price}.

Record CheapestListing (Price : Type) : Type := mkCheapestListing {
  cheapestSource : string;                         (* [source] *)
  cheapestPrice : Price;                           (* [price] *)
  cheapestCurrency : string                        (* [currency] *)
}.
Arguments mkCheapestListing {Price}.
Arguments cheapestSource {Price}.
Arguments cheapestPrice {Price}.
Arguments cheapestCurrency {Price}.

(** An entry of [SearchDomainsResult.results], without its pricing. *)
Record SearchEntry (Price : Type) : Type := mkSearchEntry {
  searchedDomain : string;                         (* [domain] *)
  searchedTld : string;                            (* [tld] *)
  searchedStatus : DomainStatus;                   (* [status] *)
  searchedAftermarket : option (CheapestListing Price)
                                      (* [aftermarket.cheapestListing] *)
}.
Arguments mkSearchEntry {Price}.
Arguments searchedDomain {Price}.
Arguments searchedTld {Price}.
Arguments searchedStatus {Price}.
Arguments searchedAftermarket {Price}.

Definition DEFAULT_TLDS : list string :=
  ["com"; "net"; "org"; "io"; "co"; "ai"; "dev"; "app";
   "xyz"; "info"; "biz"; "me"; "tv"; "cc"; "us"; "uk"].

Section Listings.

(** The number type of [price] with its [<]. *)
Variable Price : Type.
Variable priceLt : Price -> Price -> bool.

(** The object stored for a listing:
    [{ source: listing.source, price: listing.price, currency: listing.currency }]. *)
Definition cheapestOf (listing : AftermarketListing Price)
  : CheapestListing Price :=
  mkCheapestListing (listingSource listing) (listingPrice listing)
                    (listingCurrency listing).

(** The body of the inner loop over [searchResult.listings]. *)
Definition keepCheapest
    (aftermarketListings : gmap string (CheapestListing Price))
    (listing : AftermarketListing Price)
  : gmap string (CheapestListing Price) :=
  let key := Js.toLowerCase (listingDomain listing) in
  let entry := cheapestOf listing in
  match aftermarketListings !! key with
  | None => <[key := entry]> aftermarketListings
  | Some existing =>
      if priceLt (listingPrice listing) (cheapestPrice existing)
      then <[key := entry]> aftermarketListings
      else aftermarketListings
  end.

(** The two loops: over the providers' answers, and over the listings of
    each. *)
Definition collectCheapest (answers : list (list (AftermarketListing Price)))
  : gmap string (CheapestListing Price) :=
  fold_left (fun m listings => fold_left keepCheapest listings m) answers ∅.

(** The body of the loop that builds the results. *)
Definition searchEntry (rdapResults : gmap string RdapService.RdapResult)
    (aftermarketListings : option (gmap string (CheapestListing Price)))
    (domain : string) : SearchEntry Price :=
  let status :=
    match rdapResults !! domain with
    | Some rdapResult =>
        if RdapService.available rdapResult then available
        else if RdapService.registered rdapResult then taken
        else unknown
    | None => unknown
    end in
  let aftermarket :=
    match aftermarketListings with
    | Some m => m !! Js.toLowerCase domain
    | None => None
    end in
  let status :=
    match aftermarket with
    | Some _ => if DomainStatus_eqb status taken then for_sale else status
    | None => status
    end in
  mkSearchEntry domain (tldOf domain) status aftermarket.

End Listings.

Arguments cheapestOf {Price}.
Arguments keepCheapest {Price}.
Arguments collectCheapest {Price}.
Arguments searchEntry {Price}.

Section Server.

(** The network, as the two services see it. *)
Variable fetchIPv4 : RequestLog -> string -> FetchOutcome.
Variable newURL : string -> string -> option URL.
Variable fetchBootstrap :
  RequestLog -> RdapService.JsonOutcome (list (list string * list string)).
Variable fetchDomain : RequestLog -> string -> RdapService.JsonOutcome RdapService.RdapDomainResponse.

(** The server: its configuration, the environment it was started in, and
    what the Namecheap service answers where the constructor created it. *)
Variable env : Env.
Variable config : ServerConfig.
Variable namecheapCheckDomain : string -> NamecheapAnswer.
Variable namecheapCheckBulk : list string -> option (list DomainCheckResult).

(** [this.providerRegistry] after the constructor. *)
Definition providerRegistry : Providers.ProviderRegistry :=
  initializeProviders env config Providers.empty.

(** Step 2 of [handleCheckDomain] on the fields kept: with a pricing
    provider only prices are written; otherwise the Namecheap service,
    if there is one, is asked. *)
Definition checkDomainPricing (normalizedDomain : string)
    (result : DomainCheckResult) : DomainCheckResult :=
  if (0 <? length (Providers.getPricingProviders providerRegistry))%nat
  then result
  else if hasNamecheapService config
  then
    match namecheapCheckDomain normalizedDomain with
    | NamecheapThrows => result
    | NamecheapResult s =>
        let result :=
          if DomainStatus_eqb s available then setStatus available result
          else if DomainStatus_eqb s taken then setStatus taken result
          else if DomainStatus_eqb s premium then setStatus premium result
          else result in
        setMethod "registrar_api" result
    end
  else result.

(** Step 3 of [handleCheckDomain]. *)
Definition checkDomainHttp (verify_http : bool)
    (rdapResult : RdapService.RdapResult) (normalizedDomain : string)
    (result : DomainCheckResult) (log : RequestLog)
  : DomainCheckResult * RequestLog :=
  if verify_http && enableHttpVerification config
  then
    if DomainStatus_eqb (checkedStatus result) taken
       || DomainStatus_eqb (checkedStatus result) unknown
    then
      let (httpResult, log1) := verifyDomain fetchIPv4 newURL normalizedDomain log in
      let result :=
        if DomainStatus_eqb (status httpResult) available
        then setStatus (if RdapService.registered rdapResult
                        then taken else available) result
        else if DomainStatus_eqb (status httpResult) parked
                || DomainStatus_eqb (status httpResult) for_sale
        then setParking (parkingDetection httpResult)
               (setStatus (status httpResult) result)
        else if DomainStatus_eqb (status httpResult) taken
        then setStatus taken result
        else result in
      (setMethod "http_check"
         (setRedirectUrl (redirectUrl httpResult)
            (setHttpStatus (httpStatus httpResult) result)),
       log1)
    else if DomainStatus_eqb (checkedStatus result) available
    then
      let (httpResult, log1) := verifyDomain fetchIPv4 newURL normalizedDomain log in
      (if DomainStatus_eqb (status httpResult) parked
          || DomainStatus_eqb (status httpResult) for_sale
       then setRedirectUrl (redirectUrl httpResult)
              (setHttpStatus (httpStatus httpResult)
                 (setParking (parkingDetection httpResult)
                    (setStatus (status httpResult) result)))
       else if DomainStatus_eqb (status httpResult) taken
       then setRedirectUrl (redirectUrl httpResult)
              (setHttpStatus (httpStatus httpResult) (setStatus taken result))
       else result,
       log1)
    else (result, log)
  else (result, log).

(** Step 1 of [handleCheckDomain]. *)
Definition checkDomainRdap (rdapResult : RdapService.RdapResult)
    (normalizedDomain : string) : DomainCheckResult :=
  let result :=
    mkDomainCheckResult normalizedDomain (tldOf normalizedDomain) unknown
                        None None None "rdap" in
  if RdapService.available rdapResult then setStatus available result
  else if RdapService.registered rdapResult then setStatus taken result
  else result.

(** [handleCheckDomain]; [verify_http] is given ([true] when the caller
    leaves it out). *)
Definition handleCheckDomain (domain : JsValue) (verify_http : bool)
    (st : RdapService.State) (log : RequestLog)
  : ToolResult DomainCheckResult * (RdapService.State * RequestLog) :=
  match validateDomain domain with
  | Invalid message => (ToolError ("Validation error: " +:+ message), (st, log))
  | Valid normalizedDomain =>
      let '(rdapResult, (st1, log1)) :=
        RdapService.checkDomain fetchBootstrap fetchDomain normalizedDomain st log in
      let result := checkDomainRdap rdapResult normalizedDomain in
      let result := checkDomainPricing normalizedDomain result in
      let (result, log2) :=
        checkDomainHttp verify_http rdapResult normalizedDomain result log1 in
      (ToolOk result, (st1, log2))
  end.

(** [handleCheckBulk]; [domains] is an array, and [verify_http] is given
    ([true] when the caller leaves it out). *)
Definition handleCheckBulk (domains : list JsValue) (verify_http : bool)
    (st : RdapService.State) (log : RequestLog)
  : ToolResult BulkCheckResult * (RdapService.State * RequestLog) :=
  if (length domains =? 0)%nat
  then (ToolError "Error: domains array cannot be empty", (st, log))
  else if (50 <? length domains)%nat
  then (ToolError "Error: Maximum 50 domains per request", (st, log))
  else
    let (normalizedDomains, validationErrors) := validateEach 0 domains [] [] in
    if (0 <? length validationErrors)%nat
    then (ToolError ("Validation errors:" +:+ String "010" (joinLines validationErrors)),
          (st, log))
    else
      let results :=
        if hasNamecheapService config
        then match namecheapCheckBulk normalizedDomains with
             | Some namecheapResults => namecheapResults
             | None => []
             end
        else [] in
      let '(results, (st1, log1)) :=
        if (length results =? 0)%nat
        then
          let '(rdapResults, (st1, log1)) :=
            RdapService.checkBulk fetchBootstrap fetchDomain normalizedDomains st log in
          (map (rdapEntry rdapResults) normalizedDomains, (st1, log1))
        else (results, (st, log)) in
      let (results, log2) :=
        if verify_http && enableHttpVerification config
           && (length domains <=? 20)%nat
        then
          let (httpResults, log2) :=
            verifyBulk fetchIPv4 newURL normalizedDomains log1 in
          (map (mergeHttp httpResults) results, log2)
        else (results, log1) in
      (ToolOk (mkBulkCheckResult results (length results)
                 (countStatus available results) (countStatus taken results)
                 (countStatus parked results) (countStatus for_sale results)),
       (st1, log2)).

(** [handleDetectParking] *)
Definition handleDetectParking (domain : JsValue) (log : RequestLog)
  : ToolResult ParkingReport * RequestLog :=
  match validateDomain domain with
  | Invalid message => (ToolError ("Validation error: " +:+ message), log)
  | Valid normalizedDomain =>
      let (result, log1) := verifyDomain fetchIPv4 newURL normalizedDomain log in
      (ToolOk (mkParkingReport normalizedDomain
                 (DomainStatus_eqb (status result) parked
                  || DomainStatus_eqb (status result) for_sale)
                 (status result) (parkingDetection result)
                 (httpStatus result) (redirectUrl result)),
       log1)
  end.

Section Search.

Variable Price : Type.
Variable priceLt : Price -> Price -> bool.

(** What [provider.searchListings(keyword, { maxResults: 50, tlds })]
    resolves with, its [listings]. *)
Variable searchListings :
  Providers.AftermarketProvider -> string -> list string ->
  list (AftermarketListing Price).

(** [handleSearchDomains], with the defaults of its arguments.  The
    pricing loop, which writes the [pricing] of the entries only, is left
    out, and the calls to the providers are taken to resolve. *)
Definition handleSearchDomains (keyword : JsValue) (tlds : option (list string))
    (include_aftermarket : option bool)
    (st : RdapService.State) (log : RequestLog)
  : ToolResult (list (SearchEntry Price)) * (RdapService.State * RequestLog) :=
  let tlds := match tlds with Some l => l | None => DEFAULT_TLDS end in
  let include_aftermarket :=
    match include_aftermarket with Some b => b | None => true end in
  match validateKeyword keyword with
  | Invalid message => (ToolError ("Validation error: " +:+ message), (st, log))
  | Valid normalizedKeyword =>
      let domainsToCheck := map (searchDomain normalizedKeyword) tlds in
      let '(rdapResults, (st1, log1)) :=
        RdapService.checkBulk fetchBootstrap fetchDomain domainsToCheck st log in
      let aftermarketProviders :=
        Providers.getAftermarketProviders providerRegistry in
      let aftermarketListings :=
        if include_aftermarket && (0 <? length aftermarketProviders)%nat
        then Some (collectCheapest priceLt
                     (map (fun provider =>
                             searchListings provider normalizedKeyword tlds)
                          aftermarketProviders))
        else None in
      (ToolOk (map (searchEntry rdapResults aftermarketListings) domainsToCheck),
       (st1, log1))
  end.

End Search.

End Server.

Example isBlockedDomain_ex1 : isBlockedDomain "LocalHost" = true.
Proof. reflexivity. Qed.
Example isBlockedDomain_ex2 : isBlockedDomain "172.31.0.9" = true.
Proof. reflexivity. Qed.
Example isBlockedDomain_ex3 : isBlockedDomain "172.32.0.9" = false.
Proof. reflexivity. Qed.
Example isBlockedDomain_ex4 : isBlockedDomain "db.prod.INTERNAL" = true.
Proof. reflexivity. Qed.
Example isBlockedDomain_ex5 : isBlockedDomain "example.com" = false.
Proof. reflexivity. Qed.
Example isBlockedDomain_ex6 : isBlockedDomain "fd12:3456:789a::1" = false.
Proof. reflexivity. Qed.

Example checkUrl_ex1 :
  checkUrlForParking "https://sedo.com/search/details/?domain=x.com"
  = {| isParked := true; broker := Some "sedo";
       indicators := ["URL contains sedo.com/"; "URL contains Sedo.com"];
       estimatedPrice := None; confidence := high |}.
Proof. reflexivity. Qed.
Example matchAll_ex1 :
  matchAll (mkPricePattern "$" false false) "a $12,500.00 b $3 c$ $4.5 $,"
  = ["$12,500.00"; "$3"; "$4"; "$,"].
Proof. reflexivity. Qed.
Example matchAll_ex2 :
  matchAll (mkPricePattern "USD" true true) "usd  1,000 USD x Usd7.123"
  = ["usd  1,000"; "Usd7.12"].
Proof. reflexivity. Qed.
Example plausible_ex : map plausiblePrice ["$12,500"; "$3"; "$49.99"; "$50"; "$1,000,000.00"; "$1,000,000.01"; "$,"]
  = [true; false; false; true; true; false; false].
Proof. reflexivity. Qed.
Example wordCount_ex : wordCount "<html><body> For sale  now <b>cheap</b>!</body></html>" = 4%nat.
Proof. reflexivity. Qed.
Example analyze_ex1 :
  analyzeHtml "<p>This domain is for sale. Buy this domain for $12,500 today</p>"
  = {| isParked := true; broker := None;
       indicators := ["Found " +:+ Js.dquote +:+ "This domain is for sale" +:+ Js.dquote;
                      "Found " +:+ Js.dquote +:+ "Buy this domain" +:+ Js.dquote;
                      "Found " +:+ Js.dquote +:+ "Domain is for sale" +:+ Js.dquote;
                      "Price detected: $12,500"; "Minimal page content"];
       estimatedPrice := Some "$12,500"; confidence := medium |}.
Proof. vm_compute. reflexivity. Qed.

Example redirect_loop_stops :
  tryFetch (alwaysRedirect "https://example.org/") (urlOnHost "example.org")
           "https://example.com" 0 []
  = (unknownResult,
     ["https://example.com"; "https://example.org/"; "https://example.org/";
      "https://example.org/"; "https://example.org/"]).
Proof. reflexivity. Qed.

(** * Properties *)

Lemma DomainStatus_eqb_eq (a b : DomainStatus) :
  DomainStatus_eqb a b = true <-> a = b.
Proof. destruct a, b; simpl; split; congruence. Qed.

Lemma handleError_unknown (errorMessage : string) :
  handleError errorMessage = unknownResult.
Proof.
  unfold handleError.
  repeat match goal with |- context [if ?c then _ else _] => destruct c end;
    reflexivity.
Qed.

(** ** The classifier *)

(** The broker scan sets [broker] exactly when it appends an indicator. *)
Lemma scanBrokers_broker_iff (describe : string -> string) (textLower : string) :
  fst (scanBrokers describe textLower) = None
  <-> snd (scanBrokers describe textLower) = [].
Proof.
  unfold scanBrokers.
  assert (Hinner : forall (name : string) (patterns : list string)
                          (acc : option string * list string),
             (fst acc = None <-> snd acc = []) ->
             let r := fold_left
                        (fun (st : option string * list string) pattern =>
                           if Js.includes textLower (Js.toLowerCase pattern)
                           then (Some name, snd st ++ [describe pattern])
                           else st) patterns acc in
             fst r = None <-> snd r = []).
  { intros name patterns. induction patterns as [| pat rest IH]; intros acc Hacc.
    - exact Hacc.
    - simpl. apply IH.
      destruct (Js.includes textLower (Js.toLowerCase pat)); [| exact Hacc].
      simpl. split; [discriminate |].
      intros H. destruct (snd acc); discriminate. }
  generalize PARKING_brokers as brokers.
  assert (Hacc : fst (@None string, @nil string) = None
                 <-> snd (@None string, @nil string) = []) by (split; reflexivity).
  revert Hacc. generalize (@None string, @nil string) as acc.
  intros acc Hacc brokers. revert acc Hacc.
  induction brokers as [| [name patterns] rest IH]; intros acc Hacc.
  - exact Hacc.
  - simpl. apply IH. apply Hinner. exact Hacc.
Qed.

Lemma checkUrlForParking_fields (url : string) :
  checkUrlForParking url
  = let r := scanBrokers (fun pattern => "URL contains " +:+ pattern)
                         (Js.toLowerCase url) in
    {| isParked := (0 <? length (snd r))%nat;
       broker := fst r;
       indicators := snd r;
       estimatedPrice := None;
       confidence := if (1 <? length (snd r))%nat then high else medium |}.
Proof.
  unfold checkUrlForParking.
  destruct (scanBrokers _ (Js.toLowerCase url)) as [b inds]. reflexivity.
Qed.

(** A positive URL classification always names a broker. *)
Lemma checkUrlForParking_broker (url : string) :
  isParked (checkUrlForParking url) = true <->
  exists b, broker (checkUrlForParking url) = Some b.
Proof.
  rewrite checkUrlForParking_fields. simpl.
  pose proof (scanBrokers_broker_iff (fun pattern => "URL contains " +:+ pattern)
                                     (Js.toLowerCase url)) as Hiff.
  destruct (scanBrokers _ (Js.toLowerCase url)) as [b inds]. simpl in *.
  split.
  - intros H. destruct b as [b |]; [eauto |].
    destruct Hiff as [Hiff _]. rewrite (Hiff eq_refl) in H. discriminate.
  - intros [b' ->]. destruct inds as [| i inds]; [| reflexivity].
    destruct Hiff as [_ Hiff]. discriminate (Hiff eq_refl).
Qed.

(** ** The prober *)

Section ProberFacts.

Variable fetchIPv4 : RequestLog -> string -> FetchOutcome.
Variable newURL : string -> string -> option URL.


(** The defining equation of [tryFetch], in the shape of the source. *)
Lemma tryFetch_eq (url : string) (redirectCount : nat) (log : RequestLog) :
  tryFetch fetchIPv4 newURL url redirectCount log =
  if (MAX_REDIRECTS <=? redirectCount)%nat then (unknownResult, log)
  else match fetchIPv4 log url with
       | Rejected errorMessage => (handleError errorMessage, log ++ [url])
       | Resolved response =>
           match handleResponse newURL url response with
           | Final result => (result, log ++ [url])
           | Follow next => tryFetch fetchIPv4 newURL next (redirectCount + 1) (log ++ [url])
           end
       end.
Proof.
  funelim (tryFetch fetchIPv4 newURL url redirectCount log).
  - destruct (Nat.leb_spec MAX_REDIRECTS redirectCount); [reflexivity | lia].
  - destruct (Nat.leb_spec MAX_REDIRECTS redirectCount); [lia |].
    rewrite Heq. reflexivity.
  - destruct (Nat.leb_spec MAX_REDIRECTS redirectCount); [lia |].
    rewrite Heq0, Heq. reflexivity.
  - destruct (Nat.leb_spec MAX_REDIRECTS redirectCount); [lia |].
    rewrite Heq0, Heq. reflexivity.
Qed.

Lemma tryFetch_limit (url : string) (redirectCount : nat) (log : RequestLog) :
  MAX_REDIRECTS <= redirectCount ->
  tryFetch fetchIPv4 newURL url redirectCount log = (unknownResult, log).
Proof.
  intros H. rewrite tryFetch_eq.
  destruct (Nat.leb_spec MAX_REDIRECTS redirectCount); [reflexivity | lia].
Qed.

Lemma tryFetch_below (url : string) (redirectCount : nat) (log : RequestLog) :
  redirectCount < MAX_REDIRECTS ->
  tryFetch fetchIPv4 newURL url redirectCount log = hopResult fetchIPv4 newURL url redirectCount log.
Proof.
  intros H. rewrite tryFetch_eq at 1.
  destruct (Nat.leb_spec MAX_REDIRECTS redirectCount); [lia | reflexivity].
Qed.

Lemma handleResponse_status (url : string) (response : Response)
      (result : HttpVerificationResult) :
  handleResponse newURL url response = Final result -> probeStatus (status result).
Proof.
  unfold handleResponse, probeStatus.
  repeat match goal with
         | |- context [if ?c then _ else _] => destruct c
         | |- context [match ?c with _ => _ end] => destruct c
         end;
    intros H; inversion H; subst; simpl; auto.
Qed.

Lemma tryFetch_status (url : string) (redirectCount : nat) (log : RequestLog) :
  probeStatus (status (fst (tryFetch fetchIPv4 newURL url redirectCount log))).
Proof.
  funelim (tryFetch fetchIPv4 newURL url redirectCount log); simpl.
  - unfold probeStatus; auto.
  - rewrite handleError_unknown. unfold probeStatus; simpl; auto.
  - eapply handleResponse_status; eassumption.
  - assumption.
Qed.

Lemma verifyDomain_status (domain : string) (log : RequestLog) :
  probeStatus (status (fst (verifyDomain fetchIPv4 newURL domain log))).
Proof.
  unfold verifyDomain.
  destruct (isBlockedDomain domain).
  - unfold probeStatus; simpl; auto.
  - pose proof (tryFetch_status ("https://" +:+ domain) 0 log) as H1.
    destruct (tryFetch fetchIPv4 newURL ("https://" +:+ domain) 0 log) as [result log1].
    destruct (DomainStatus_eqb (status result) unknown).
    + apply tryFetch_status.
    + exact H1.
Qed.

(** The requests of one call: the log grows at its end, by at most the
    hops left. *)
Lemma tryFetch_log (url : string) (redirectCount : nat) (log : RequestLog) :
  exists new : RequestLog,
    snd (tryFetch fetchIPv4 newURL url redirectCount log) = log ++ new
    /\ length new <= MAX_REDIRECTS - redirectCount.
Proof.
  funelim (tryFetch fetchIPv4 newURL url redirectCount log); simpl.
  - exists []. rewrite app_nil_r. split; [reflexivity | simpl; lia].
  - exists [url]. split; [reflexivity | simpl; lia].
  - exists [url]. split; [reflexivity | simpl; lia].
  - destruct H as (new & Hnew & Hlen).
    exists (url :: new). rewrite Hnew, <- app_assoc. split; [reflexivity|].
    simpl. lia.
Qed.

Lemma hopResult_log (url : string) (redirectCount : nat) (log : RequestLog) :
  exists new : RequestLog,
    snd (hopResult fetchIPv4 newURL url redirectCount log) = (log ++ [url]) ++ new.
Proof.
  unfold hopResult.
  destruct (fetchIPv4 log url) as [e | r].
  - exists []. rewrite app_nil_r. reflexivity.
  - destruct (handleResponse newURL url r) as [res | next].
    + exists []. rewrite app_nil_r. reflexivity.
    + destruct (tryFetch_log next (redirectCount + 1) (log ++ [url]))
        as (new & Hnew & _).
      exists new. exact Hnew.
Qed.

(** A call that issues no request returns [unknown]. *)
Lemma tryFetch_silent (url : string) (redirectCount : nat) (log : RequestLog) :
  snd (tryFetch fetchIPv4 newURL url redirectCount log) = log ->
  fst (tryFetch fetchIPv4 newURL url redirectCount log) = unknownResult.
Proof.
  destruct (le_lt_dec MAX_REDIRECTS redirectCount) as [Hle | Hlt].
  - rewrite tryFetch_limit by assumption. reflexivity.
  - rewrite tryFetch_below by assumption. intros H. exfalso.
    destruct (hopResult_log url redirectCount log) as (new & Hnew).
    rewrite H in Hnew.
    apply (f_equal (@length _)) in Hnew. rewrite !length_app in Hnew.
    simpl in Hnew. lia.
Qed.

Lemma handleResponse_follow (url : string) (response : Response) (next : string) :
  handleResponse newURL url response = Follow next ->
  validatedTarget newURL next.
Proof.
  unfold handleResponse, validatedTarget.
  destruct ((300 <=? responseStatus response) && (responseStatus response <? 400))%Z.
  - destruct (truthy (headerLocation response)) as [location |]; [| discriminate].
    destruct (newURL location url) as [target |] eqn:Hurl; [| discriminate].
    destruct (isBlockedDomain (hostname target)) eqn:Hblocked; [discriminate |].
    destruct (isParked (checkUrlForParking (href target))); [discriminate |].
    intros H. inversion H. subst. exists location, url, target. auto.
  - repeat match goal with
           | |- context [if ?c then _ else _] => destruct c
           | |- context [match ?c with _ => _ end] => destruct c
           end; discriminate.
Qed.

(** Every request of a call is for its own URL or for a validated
    redirect target. *)
Lemma tryFetch_requests (url : string) (redirectCount : nat) (log : RequestLog) :
  exists new : RequestLog,
    snd (tryFetch fetchIPv4 newURL url redirectCount log) = log ++ new
    /\ Forall (fun u => u = url \/ validatedTarget newURL u) new.
Proof.
  funelim (tryFetch fetchIPv4 newURL url redirectCount log); simpl.
  - exists []. rewrite app_nil_r. split; [reflexivity | constructor].
  - exists [url]. split; [reflexivity | repeat constructor].
  - exists [url]. split; [reflexivity | repeat constructor].
  - destruct H as (new & Hnew & Hall).
    exists (url :: new). rewrite Hnew, <- app_assoc. split; [reflexivity |].
    apply handleResponse_follow in Heq.
    constructor; [left; reflexivity |].
    eapply Forall_impl; [| exact Hall].
    intros u [-> | Hv]; right; assumption.
Qed.

(** A redirect whose destination is blocked, on the response itself. *)
Lemma handleResponse_blocked (url : string) (response : Response)
      (location : string) (target : URL) :
  (300 <= responseStatus response < 400)%Z ->
  headerLocation response = Some location ->
  location <> EmptyString ->
  newURL location url = Some target ->
  isBlockedDomain (hostname target) = true ->
  handleResponse newURL url response = Final unknownResult.
Proof.
  intros Hst Hloc Hne Hurl Hblocked. unfold handleResponse.
  replace ((300 <=? responseStatus response) && (responseStatus response <? 400))%Z
    with true by (symmetry; apply andb_true_iff; split;
                  [apply Z.leb_le | apply Z.ltb_lt]; lia).
  rewrite Hloc. destruct location as [| c t]; [congruence |]. simpl.
  rewrite Hurl, Hblocked. reflexivity.
Qed.

(** When the last request of a call was rejected, the call returns
    [unknown]. *)
Lemma tryFetch_last_rejected (url : string) (redirectCount : nat)
      (log earlier : RequestLog) (last errorMessage : string) :
  snd (tryFetch fetchIPv4 newURL url redirectCount log) = earlier ++ [last] ->
  length log <= length earlier ->
  fetchIPv4 earlier last = Rejected errorMessage ->
  fst (tryFetch fetchIPv4 newURL url redirectCount log) = unknownResult.
Proof.
  revert earlier last errorMessage.
  funelim (tryFetch fetchIPv4 newURL url redirectCount log);
    simpl; intros earlier last msg Hlog Hlen Hrej.
  - reflexivity.
  - apply handleError_unknown.
  - apply app_inj_tail in Hlog. destruct Hlog as [<- <-]. congruence.
  - destruct (tryFetch_log next (redirectCount + 1) (log ++ [url]))
      as (new & Hnew & _).
    destruct new as [| u new].
    + rewrite app_nil_r in Hnew.
      apply tryFetch_silent. exact Hnew.
    + eapply H; [exact Hlog | | exact Hrej].
      rewrite Hnew in Hlog. apply (f_equal (@length _)) in Hlog.
      rewrite !length_app in Hlog. simpl in Hlog.
      rewrite length_app. simpl. lia.
Qed.

(** C10. Whatever the network answers, the status returned by
    [tryFetch] and by [verifyDomain] is one of taken, parked, for_sale
    and unknown; it is never available and never premium. *)
Theorem http_status_never_available :
  (forall url redirectCount log,
      probeStatus (status (fst (tryFetch fetchIPv4 newURL url redirectCount log))))
  /\ (forall domain log,
         probeStatus (status (fst (verifyDomain fetchIPv4 newURL domain log)))
         /\ status (fst (verifyDomain fetchIPv4 newURL domain log)) <> available
         /\ status (fst (verifyDomain fetchIPv4 newURL domain log)) <> premium).
Proof.
  split.
  - apply tryFetch_status.
  - intros domain log.
    pose proof (verifyDomain_status domain log) as H.
    split; [exact H |].
    unfold probeStatus in H.
    split; intros Heq; rewrite Heq in H;
      destruct H as [H | [H | [H | H]]]; discriminate.
Qed.


(** C8. With a redirect count of 5 or more [tryFetch] returns unknown
    and issues no request; a followed redirect is the same call on the
    destination with the count one higher; hence a call started at
    count [n] issues at most [5 - n] requests, whatever the (possibly
    endless) redirects the network serves.  [tryFetch] is a total
    function, so the call always returns. *)
Theorem redirect_hops_bounded :
  (forall url redirectCount log,
      5 <= redirectCount ->
      tryFetch fetchIPv4 newURL url redirectCount log = (unknownResult, log))
  /\ (forall url redirectCount log response next,
         redirectCount < 5 ->
         fetchIPv4 log url = Resolved response ->
         handleResponse newURL url response = Follow next ->
         tryFetch fetchIPv4 newURL url redirectCount log
         = tryFetch fetchIPv4 newURL next (redirectCount + 1) (log ++ [url]))
  /\ (forall url redirectCount log,
         exists new : RequestLog,
           snd (tryFetch fetchIPv4 newURL url redirectCount log) = log ++ new
           /\ length new <= 5 - redirectCount).
Proof.
  split; [| split].
  - intros. apply tryFetch_limit. exact H.
  - intros url n log response next Hlt Hres Hfollow.
    rewrite tryFetch_below by exact Hlt. unfold hopResult.
    rewrite Hres, Hfollow. reflexivity.
  - intros. apply tryFetch_log.
Qed.

(** C2. A blocked host is answered unknown by [verifyDomain] with the
    request log unchanged: no request at all.  A redirect whose
    [Location] resolves to a blocked host makes [tryFetch] return unknown
    with exactly the one request that received the redirect in the log:
    the destination is not fetched.  Every request issued by
    [verifyDomain] is one of its two probes of the domain, which is not
    blocked, or goes to a validated redirect target.  And when both
    probes are answered by such a redirect, [verifyDomain] returns
    unknown after those two requests. *)
Theorem blocked_targets_never_requested :
  (forall domain log,
      isBlockedDomain domain = true ->
      verifyDomain fetchIPv4 newURL domain log = (unknownResult, log))
  /\ (forall url redirectCount log response location target,
         redirectCount < MAX_REDIRECTS ->
         fetchIPv4 log url = Resolved response ->
         (300 <= responseStatus response < 400)%Z ->
         headerLocation response = Some location ->
         location <> EmptyString ->
         newURL location url = Some target ->
         isBlockedDomain (hostname target) = true ->
         tryFetch fetchIPv4 newURL url redirectCount log
         = (unknownResult, log ++ [url]))
  /\ (forall domain log,
         exists new : RequestLog,
           snd (verifyDomain fetchIPv4 newURL domain log) = log ++ new
           /\ Forall (fun u =>
                        (isBlockedDomain domain = false
                         /\ (u = "https://" +:+ domain \/ u = "http://" +:+ domain))
                        \/ validatedTarget newURL u) new)
  /\ (forall domain log response1 location1 target1 response2 location2 target2,
         isBlockedDomain domain = false ->
         fetchIPv4 log ("https://" +:+ domain) = Resolved response1 ->
         (300 <= responseStatus response1 < 400)%Z ->
         headerLocation response1 = Some location1 ->
         location1 <> EmptyString ->
         newURL location1 ("https://" +:+ domain) = Some target1 ->
         isBlockedDomain (hostname target1) = true ->
         fetchIPv4 (log ++ ["https://" +:+ domain]) ("http://" +:+ domain)
         = Resolved response2 ->
         (300 <= responseStatus response2 < 400)%Z ->
         headerLocation response2 = Some location2 ->
         location2 <> EmptyString ->
         newURL location2 ("http://" +:+ domain) = Some target2 ->
         isBlockedDomain (hostname target2) = true ->
         verifyDomain fetchIPv4 newURL domain log
         = (unknownResult,
            (log ++ ["https://" +:+ domain]) ++ ["http://" +:+ domain])).
Proof.
  assert (Hredirect : forall url redirectCount log response location target,
             redirectCount < MAX_REDIRECTS ->
             fetchIPv4 log url = Resolved response ->
             (300 <= responseStatus response < 400)%Z ->
             headerLocation response = Some location ->
             location <> EmptyString ->
             newURL location url = Some target ->
             isBlockedDomain (hostname target) = true ->
             tryFetch fetchIPv4 newURL url redirectCount log
             = (unknownResult, log ++ [url])).
  { intros url n log response location target Hlt Hres Hst Hloc Hne Hurl Hb.
    rewrite tryFetch_below by exact Hlt. unfold hopResult.
    rewrite Hres, (handleResponse_blocked url response location target) by assumption.
    reflexivity. }
  split; [| split; [exact Hredirect | split]].
  - intros domain log Hblocked. unfold verifyDomain. rewrite Hblocked.
    reflexivity.
  - intros domain log. unfold verifyDomain.
    destruct (isBlockedDomain domain) eqn:Hblocked.
    + exists []. rewrite app_nil_r. split; [reflexivity | constructor].
    + destruct (tryFetch_requests ("https://" +:+ domain) 0 log)
        as (new1 & Hnew1 & Hall1).
      destruct (tryFetch fetchIPv4 newURL ("https://" +:+ domain) 0 log)
        as [result log1].
      simpl in Hnew1. subst log1.
      assert (Hall1' : Forall (fun u =>
                 (false = false
                  /\ (u = "https://" +:+ domain \/ u = "http://" +:+ domain))
                 \/ validatedTarget newURL u) new1).
      { eapply Forall_impl; [| exact Hall1].
        intros u [-> | Hv]; [left; auto | right; exact Hv]. }
      destruct (DomainStatus_eqb (status result) unknown).
      * destruct (tryFetch_requests ("http://" +:+ domain) 0 (log ++ new1))
          as (new2 & Hnew2 & Hall2).
        exists (new1 ++ new2). rewrite Hnew2, app_assoc.
        split; [reflexivity |].
        apply Forall_app. split; [exact Hall1' |].
        eapply Forall_impl; [| exact Hall2].
        intros u [-> | Hv]; [left; auto | right; exact Hv].
      * exists new1. split; [reflexivity | exact Hall1'].
  - intros domain log r1 l1 t1 r2 l2 t2 Hfree Hres1 Hst1 Hloc1 Hne1 Hurl1 Hb1
           Hres2 Hst2 Hloc2 Hne2 Hurl2 Hb2.
    unfold verifyDomain. rewrite Hfree.
    rewrite (Hredirect _ 0 log r1 l1 t1); try assumption;
      [| unfold MAX_REDIRECTS; lia].
    simpl.
    apply (Hredirect _ 0 _ r2 l2 t2); try assumption.
    unfold MAX_REDIRECTS; lia.
Qed.

(** C4, as amended.  A redirect whose validated destination URL matches
    a broker signature ends the probe at once, with the one request that
    received the redirect and no request for the destination; the status
    is parked, the evidence is the URL classification and it names a
    broker. *)
Theorem redirect_to_broker_is_parked :
  forall url redirectCount log response location target,
    redirectCount < MAX_REDIRECTS ->
    fetchIPv4 log url = Resolved response ->
    (300 <= responseStatus response < 400)%Z ->
    headerLocation response = Some location ->
    location <> EmptyString ->
    newURL location url = Some target ->
    isBlockedDomain (hostname target) = false ->
    isParked (checkUrlForParking (href target)) = true ->
    tryFetch fetchIPv4 newURL url redirectCount log
    = ({| status := parked;
          parkingDetection := Some (checkUrlForParking (href target));
          httpStatus := Some (responseStatus response);
          redirectUrl := Some (href target) |},
       log ++ [url])
    /\ exists b, broker (checkUrlForParking (href target)) = Some b.
Proof.
  intros url n log response location target Hlt Hres Hst Hloc Hne Hurl Hfree Hpark.
  split; [| apply checkUrlForParking_broker; exact Hpark].
  rewrite tryFetch_below by exact Hlt. unfold hopResult, handleResponse.
  rewrite Hres.
  replace ((300 <=? responseStatus response) && (responseStatus response <? 400))%Z
    with true by (symmetry; apply andb_true_iff; split;
                  [apply Z.leb_le | apply Z.ltb_lt]; lia).
  rewrite Hloc. destruct location as [| c t]; [congruence |]. simpl.
  rewrite Hurl, Hfree, Hpark. reflexivity.
Qed.

End ProberFacts.

Lemma http_status_never_available_witness :
  probeStatus
    (status (fst (verifyDomain (alwaysRedirect sedoLocation) (urlOnHost "sedo.com")
                               "example.com" [])))
  /\ status (fst (verifyDomain (alwaysRedirect sedoLocation) (urlOnHost "sedo.com")
                               "example.com" []))
     <> available.
Proof.
  destruct (http_status_never_available (alwaysRedirect sedoLocation)
                                        (urlOnHost "sedo.com")) as (_ & H).
  destruct (H "example.com" []) as (H1 & H2 & _).
  split; assumption.
Defined.


Lemma redirect_hops_bounded_witness :
  tryFetch (alwaysRedirect "https://example.org/") (urlOnHost "example.org")
           "https://example.org/" 5 []
  = (unknownResult, [])
  /\ tryFetch (alwaysRedirect "https://example.org/") (urlOnHost "example.org")
              "https://example.com" 0 []
     = tryFetch (alwaysRedirect "https://example.org/") (urlOnHost "example.org")
                "https://example.org/" 1 ["https://example.com"]
  /\ length (snd (tryFetch (alwaysRedirect "https://example.org/")
                           (urlOnHost "example.org") "https://example.com" 0 []))
     <= 5.
Proof.
  destruct (redirect_hops_bounded (alwaysRedirect "https://example.org/")
                                  (urlOnHost "example.org")) as (Hlimit & Hstep & Hlen).
  split; [| split].
  - apply Hlimit. lia.
  - apply (Hstep "https://example.com" 0 []
                 (mkResponse 302 (Some "https://example.org/") None None)
                 "https://example.org/").
    + lia.
    + reflexivity.
    + reflexivity.
  - destruct (Hlen "https://example.com" 0 []) as (new & Hnew & Hbound).
    rewrite Hnew. simpl. lia.
Defined.

Lemma blocked_targets_never_requested_witness :
  verifyDomain (alwaysRedirect metadataLocation) (urlOnHost "169.254.169.254")
               "localhost" []
  = (unknownResult, [])
  /\ tryFetch (alwaysRedirect metadataLocation) (urlOnHost "169.254.169.254")
              "https://example.com" 0 []
     = (unknownResult, ["https://example.com"])
  /\ verifyDomain (alwaysRedirect metadataLocation) (urlOnHost "169.254.169.254")
                  "example.com" []
     = (unknownResult, ["https://example.com"; "http://example.com"]).
Proof.
  destruct (blocked_targets_never_requested
              (alwaysRedirect metadataLocation) (urlOnHost "169.254.169.254"))
    as (Hhost & Hredirect & _ & Hboth).
  split; [| split].
  - apply Hhost. reflexivity.
  - apply (Hredirect "https://example.com" 0 []
                     (mkResponse 302 (Some metadataLocation) None None)
                     metadataLocation (mkURL "169.254.169.254" metadataLocation)).
    + unfold MAX_REDIRECTS. lia.
    + reflexivity.
    + simpl. lia.
    + reflexivity.
    + discriminate.
    + reflexivity.
    + reflexivity.
  - apply (Hboth "example.com" []
                 (mkResponse 302 (Some metadataLocation) None None)
                 metadataLocation (mkURL "169.254.169.254" metadataLocation)
                 (mkResponse 302 (Some metadataLocation) None None)
                 metadataLocation (mkURL "169.254.169.254" metadataLocation));
      try reflexivity; try discriminate; simpl; lia.
Defined.

(** C4, the claim as stated fails.  A redirect to a Sedo URL is classified
    positively with broker sedo, and the probe returns parked, not
    for_sale. *)
Lemma redirect_to_broker_not_for_sale :
  option_map broker
    (parkingDetection
       (fst (tryFetch (alwaysRedirect sedoLocation) (urlOnHost "sedo.com")
                      "https://example.com" 0 [])))
  = Some (Some "sedo")
  /\ status (fst (tryFetch (alwaysRedirect sedoLocation) (urlOnHost "sedo.com")
                           "https://example.com" 0 []))
     <> for_sale.
Proof. vm_compute. split; [reflexivity | discriminate]. Qed.

Lemma redirect_to_broker_is_parked_witness :
  tryFetch (alwaysRedirect sedoLocation) (urlOnHost "sedo.com")
           "https://example.com" 0 []
  = ({| status := parked;
        parkingDetection := Some (checkUrlForParking sedoLocation);
        httpStatus := Some 302%Z;
        redirectUrl := Some sedoLocation |},
     ["https://example.com"])
  /\ exists b, broker (checkUrlForParking sedoLocation) = Some b.
Proof.
  apply (redirect_to_broker_is_parked
           (alwaysRedirect sedoLocation) (urlOnHost "sedo.com")
           "https://example.com" 0 []
           (mkResponse 302 (Some sedoLocation) None None) sedoLocation
           (mkURL "sedo.com" sedoLocation)).
  - unfold MAX_REDIRECTS. lia.
  - reflexivity.
  - simpl. lia.
  - reflexivity.
  - discriminate.
  - reflexivity.
  - reflexivity.
  - reflexivity.
Defined.

(** ** The derivation of [confidence] and [isParked] *)

Lemma analyzeHtml_invariant (html : string) :
  derivationInvariant (analyzeHtml html).
Proof.
  unfold analyzeHtml, derivationInvariant.
  destruct (scanBrokers _ (Js.toLowerCase html)) as [b inds0].
  destruct (scanPrices html _) as [price inds2].
  cbv zeta. cbn [isParked broker indicators confidence].
  generalize (if (wordCount html <? 50)%nat && (0 <? length inds2)%nat
              then inds2 ++ ["Minimal page content"] else inds2) as inds3.
  intros inds3.
  destruct (Nat.leb_spec 3 (length inds3)) as [H3 | H3];
    destruct (Nat.leb_spec 2 (length inds3)) as [H2 | H2];
    destruct b as [b |]; cbn [andb orb];
    intuition (try congruence; try lia).
Qed.

(** C5, as amended.  Body classification derives [confidence] and
    [isParked] by the stated rule.  URL classification has its own rule:
    it is positive exactly when at least one signature matched, which is
    exactly when a broker is named (so [isParked] agrees with the stated
    rule); its confidence is high with two or more indicators and medium
    otherwise, never low. *)
Theorem classification_derivation :
  (forall html, derivationInvariant (analyzeHtml html))
  /\ (forall url,
         (isParked (checkUrlForParking url) = true
          <-> 1 <= length (indicators (checkUrlForParking url)))
         /\ (isParked (checkUrlForParking url) = true
             <-> broker (checkUrlForParking url) <> None)
         /\ (isParked (checkUrlForParking url) = true
             <-> 2 <= length (indicators (checkUrlForParking url))
                 \/ broker (checkUrlForParking url) <> None)
         /\ (confidence (checkUrlForParking url) = high
             <-> 2 <= length (indicators (checkUrlForParking url)))
         /\ (confidence (checkUrlForParking url) = medium
             <-> length (indicators (checkUrlForParking url)) < 2)
         /\ estimatedPrice (checkUrlForParking url) = None).
Proof.
  split; [exact analyzeHtml_invariant |].
  intros url.
  pose proof (checkUrlForParking_broker url) as Hbroker.
  assert (Hcount : isParked (checkUrlForParking url) = true
                   <-> 1 <= length (indicators (checkUrlForParking url))).
  { rewrite checkUrlForParking_fields. simpl.
    destruct (Nat.ltb_spec 0 (length (snd (scanBrokers
               (fun pattern => "URL contains " +:+ pattern) (Js.toLowerCase url)))));
      split; intros; try reflexivity; try discriminate; lia. }
  assert (Hsome : isParked (checkUrlForParking url) = true
                  <-> broker (checkUrlForParking url) <> None).
  { rewrite Hbroker. split.
    - intros [b Hb]. congruence.
    - intros Hne. destruct (broker (checkUrlForParking url)) as [b |]; [eauto | congruence]. }
  split; [exact Hcount |]. split; [exact Hsome |]. split; [| split; [| split]].
  - split.
    + intros H. right. apply Hsome. exact H.
    + intros [H | H]; [apply Hcount; lia | apply Hsome; exact H].
  - rewrite checkUrlForParking_fields. simpl.
    destruct (Nat.ltb_spec 1 (length (snd (scanBrokers
               (fun pattern => "URL contains " +:+ pattern) (Js.toLowerCase url)))));
      split; intros; try reflexivity; try discriminate; lia.
  - rewrite checkUrlForParking_fields. simpl.
    destruct (Nat.ltb_spec 1 (length (snd (scanBrokers
               (fun pattern => "URL contains " +:+ pattern) (Js.toLowerCase url)))));
      split; intros; try reflexivity; try discriminate; lia.
  - rewrite checkUrlForParking_fields. reflexivity.
Qed.

(** C5, the claim as stated fails for URL classification: two matched
    signatures give confidence high although the indicator count is below
    three. *)
Lemma url_classification_breaks_derivation :
  confidence (checkUrlForParking sedoLocation) = high
  /\ length (indicators (checkUrlForParking sedoLocation)) = 2
  /\ ~ derivationInvariant (checkUrlForParking sedoLocation).
Proof.
  split; [reflexivity |]. split; [reflexivity |].
  unfold derivationInvariant. intros (Hhigh & _).
  assert (H : confidence (checkUrlForParking sedoLocation) = high) by reflexivity.
  apply Hhigh in H. destruct H as [_ H].
  vm_compute in H. lia.
Qed.

(** ** The merge policy of [handleLookupDomain] *)

Lemma collectListings_nonempty {L : Type} (answers : list (option L)) (l : L) :
  In (Some l) answers -> (0 <? length (collectListings answers))%nat = true.
Proof.
  intros Hin. apply Nat.ltb_lt.
  assert (Hl : In l (collectListings answers)).
  { unfold collectListings. apply in_flat_map. exists (Some l). simpl. auto. }
  destruct (collectListings answers); [contradiction | simpl; lia].
Qed.

(** C1.  With the HTTP step enabled, a registry answer of available and an
    HTTP result of taken give the status taken.  A registry answer of
    taken, an aftermarket provider that returned a listing and an HTTP
    result of unknown give for_sale.  An HTTP result of unknown leaves
    the status that steps 1 to 3 produced. *)
Theorem merge_policy (L : Type) :
  (forall include_aftermarket rdapResult (answers : list (option L)) httpResult,
      Rdap.available rdapResult = true ->
      status httpResult = taken ->
      availabilityStatus
        (handleLookupDomain include_aftermarket true true rdapResult answers httpResult)
      = taken)
  /\ (forall include_parking enableHttpVerification rdapResult
             (answers : list (option L)) httpResult listing,
         Rdap.available rdapResult = false ->
         Rdap.registered rdapResult = true ->
         In (Some listing) answers ->
         status httpResult = unknown ->
         availabilityStatus
           (handleLookupDomain true include_parking enableHttpVerification
                               rdapResult answers httpResult)
         = for_sale)
  /\ (forall include_aftermarket include_parking enableHttpVerification rdapResult
             (answers : list (option L)) httpResult,
         status httpResult = unknown ->
         availabilityStatus
           (handleLookupDomain include_aftermarket include_parking
                               enableHttpVerification rdapResult answers httpResult)
         = availabilityStatus
             (aftermarketStep include_aftermarket answers
                (mkLookupDomainResult (rdapStatus rdapResult) "rdap"
                                      None None None None))).
Proof.
  assert (Hunknown : forall ip en (httpResult : HttpVerificationResult)
                            (result : LookupDomainResult L),
             status httpResult = unknown ->
             availabilityStatus (httpStep ip en httpResult result)
             = availabilityStatus result).
  { intros ip en httpResult result Hst. unfold httpStep. rewrite Hst.
    destruct (ip && en); reflexivity. }
  split; [| split].
  - intros ia rdapResult answers httpResult Hav Hst.
    unfold handleLookupDomain, httpStep, aftermarketStep, rdapStatus.
    rewrite Hav, Hst. simpl.
    destruct (ia && (0 <? length answers)%nat); simpl;
      [destruct (0 <? length (collectListings answers))%nat |]; reflexivity.
  - intros ip en rdapResult answers httpResult listing Hav Hreg Hin Hst.
    unfold handleLookupDomain. rewrite Hunknown by exact Hst.
    unfold aftermarketStep, rdapStatus. rewrite Hav, Hreg.
    rewrite (collectListings_nonempty answers listing Hin).
    destruct answers as [| a rest]; [contradiction |]. reflexivity.
  - intros ia ip en rdapResult answers httpResult Hst.
    unfold handleLookupDomain. apply Hunknown. exact Hst.
Qed.

Lemma merge_policy_witness :
  availabilityStatus
    (handleLookupDomain (L := string) true true true (Rdap.mkRdapResult true false) []
       (mkHttpVerificationResult taken None (Some 200%Z) None))
  = taken
  /\ availabilityStatus
       (handleLookupDomain true true true (Rdap.mkRdapResult false true)
          [None; Some "auction"] unknownResult)
     = for_sale
  /\ availabilityStatus
       (handleLookupDomain (L := string) true true true (Rdap.mkRdapResult false true)
          [] unknownResult)
     = taken.
Proof.
  destruct (merge_policy string) as (H1 & H2 & H3).
  split; [| split].
  - apply H1; reflexivity.
  - apply (H2 true true (Rdap.mkRdapResult false true) [None; Some "auction"]
              unknownResult "auction"); try reflexivity.
    simpl. auto.
  - rewrite H3 by reflexivity. reflexivity.
Defined.

(** ** The blocklist *)

(** Dotted IPv4 hosts of the covered ranges and IPv6 literals whose first
    group is fe80, fc00 or fd00 are blocked whatever follows the prefix. *)
Lemma blocked_prefixes (rest : string) :
  isBlockedDomain ("127." +:+ rest) = true
  /\ isBlockedDomain ("10." +:+ rest) = true
  /\ isBlockedDomain ("192.168." +:+ rest) = true
  /\ isBlockedDomain ("169.254." +:+ rest) = true
  /\ isBlockedDomain ("172.16." +:+ rest) = true
  /\ isBlockedDomain ("172.31." +:+ rest) = true
  /\ isBlockedDomain ("fe80:" +:+ rest) = true
  /\ isBlockedDomain ("fc00:" +:+ rest) = true
  /\ isBlockedDomain ("fd00:" +:+ rest) = true.
Proof. repeat split. Qed.

Lemma toLowerCase_append (a b : string) :
  Js.toLowerCase (a +:+ b) = Js.toLowerCase a +:+ Js.toLowerCase b.
Proof.
  induction a as [| c a IH]; [reflexivity |].
  change (String c a +:+ b) with (String c (a +:+ b)).
  cbn [Js.toLowerCase]. rewrite IH. reflexivity.
Qed.

Lemma endsWith_append (a p : string) : Js.endsWith (a +:+ p) p = true.
Proof.
  induction a as [| c a IH].
  - change (EmptyString +:+ p) with p.
    destruct p; simpl; rewrite ?String.eqb_refl, ?Ascii.eqb_refl; reflexivity.
  - change (String c a +:+ p) with (String c (a +:+ p)).
    cbn [Js.endsWith]. rewrite IH. apply orb_true_r.
Qed.

(** The remaining covered categories: the second octets 16 to 31 of
    172.16/12, the names [localhost], [::1] and [[::1]], a metadata host
    and every name ending in [.internal]. *)
Lemma blocked_categories (rest : string) :
  Forall (fun octet => isBlockedDomain ("172." +:+ octet +:+ "." +:+ rest) = true)
         ["16"; "17"; "18"; "19"; "20"; "21"; "22"; "23";
          "24"; "25"; "26"; "27"; "28"; "29"; "30"; "31"]
  /\ isBlockedDomain "localhost" = true
  /\ isBlockedDomain "::1" = true
  /\ isBlockedDomain "[::1]" = true
  /\ isBlockedDomain "metadata.google.internal" = true
  /\ isBlockedDomain (rest +:+ ".internal") = true.
Proof.
  split; [repeat constructor |].
  repeat split.
  unfold isBlockedDomain. apply existsb_exists.
  exists (fun s => Js.endsWith (Js.toLowerCase s) ".internal").
  split; [unfold blockedPatterns; simpl; tauto |].
  rewrite toLowerCase_append. apply endsWith_append.
Qed.

(** C3, the failing input.  The unique-local address fd12:3456:789a::1
    lies in fc00::/7 and is not blocked: the two patterns for the range
    match the first group fc00 or fd00 only.  Nor are the bracketed forms
    that a [URL] reports as [hostname] for an IPv6 literal, nor a
    link-local address outside fe80::/16. *)
Theorem unique_local_address_not_blocked :
  isBlockedDomain "fd12:3456:789a::1" = false
  /\ isBlockedDomain "[fd12:3456:789a::1]" = false
  /\ isBlockedDomain "fc80::1" = false
  /\ isBlockedDomain "[fd00::1]" = false
  /\ isBlockedDomain "[fe80::1]" = false
  /\ isBlockedDomain "fe90::1" = false.
Proof. repeat split; reflexivity. Qed.

(** ** Bulk verification *)

#[local] Set Warnings "-clear-no-such-hyp".

(** The loop of [chunkArray], one iteration unfolded. *)
Lemma chunksFrom_eq {T : Type} (array : list T) (k i : nat) :
  chunksFrom array (S k) i
  = if lt_dec i (length array)
    then slice array i (i + S k) :: chunksFrom array (S k) (i + S k)
    else [].
Proof.
  rewrite chunksFrom_equation_2. unfold chunksFrom_unfold_clause_2.
  destruct (lt_dec i (length array)); reflexivity.
Qed.

(** Induction on the elements left from index [i] on. *)
Lemma chunksFrom_ind {T : Type} (array : list T) (k : nat)
      (P : nat -> list (list T) -> Prop) :
  (forall i, length array <= i -> P i []) ->
  (forall i, i < length array ->
             P (i + S k) (chunksFrom array (S k) (i + S k)) ->
             P i (slice array i (i + S k) :: chunksFrom array (S k) (i + S k))) ->
  forall i, P i (chunksFrom array (S k) i).
Proof.
  intros Hstop Hstep i.
  remember (length array - i) as n eqn:Hn.
  revert i Hn. induction n as [n IH] using lt_wf_ind. intros i Hn.
  rewrite chunksFrom_eq. destruct (lt_dec i (length array)) as [Hlt | Hge].
  - apply Hstep; [exact Hlt |].
    apply (IH (length array - (i + S k))); [lia | reflexivity].
  - apply Hstop. lia.
Qed.

Lemma chunksFrom_concat {T : Type} (array : list T) (k i : nat) :
  concat (chunksFrom array (S k) i) = skipn i array.
Proof.
  revert i.
  apply (chunksFrom_ind array k (fun i chunks => concat chunks = skipn i array)).
  - intros i Hge. simpl. symmetry. apply drop_ge. exact Hge.
  - intros i Hlt IH. simpl. rewrite IH. unfold slice.
    replace (i + S k - i) with (S k) by lia.
    rewrite <- drop_drop. apply take_drop.
Qed.

Lemma chunksFrom_sizes {T : Type} (array : list T) (k i : nat) :
  Forall (fun chunk => 1 <= length chunk <= S k) (chunksFrom array (S k) i).
Proof.
  revert i.
  apply (chunksFrom_ind array k
           (fun _ chunks => Forall (fun chunk => 1 <= length chunk <= S k) chunks)).
  - constructor.
  - intros i Hlt IH. constructor; [| exact IH].
    unfold slice. rewrite length_take, length_drop. lia.
Qed.

Lemma chunksFrom_full {T : Type} (array : list T) (k i : nat) :
  Forall (fun chunk => length chunk = S k) (removelast (chunksFrom array (S k) i)).
Proof.
  revert i.
  apply (chunksFrom_ind array k
           (fun _ chunks => Forall (fun chunk => length chunk = S k) (removelast chunks))).
  - constructor.
  - intros i Hlt IH.
    destruct (chunksFrom array (S k) (i + S k)) as [| c rest] eqn:Hrest.
    + constructor.
    + change (removelast (slice array i (i + S k) :: c :: rest))
        with (slice array i (i + S k) :: removelast (c :: rest)).
      constructor; [| exact IH].
      assert (Hmore : i + S k < length array).
      { rewrite chunksFrom_eq in Hrest.
        destruct (lt_dec (i + S k) (length array)); [assumption | discriminate]. }
      unfold slice. rewrite length_take, length_drop. lia.
Qed.

Section BulkFacts.

Context {State : Type}.
Variable probe : string -> State -> HttpVerificationResult * State.

Lemma verifyChunk_keys (chunk : list string) (st : State) :
  map fst (fst (verifyChunk probe chunk st)) = chunk.
Proof.
  revert st. induction chunk as [| domain rest IH]; intros st; simpl.
  - reflexivity.
  - destruct (probe domain st) as [result st1].
    specialize (IH st1).
    destruct (verifyChunk probe rest st1) as [others st2].
    simpl in *. rewrite IH. reflexivity.
Qed.

Lemma setAll_dom (results : gmap string HttpVerificationResult)
      (chunkResults : list (string * HttpVerificationResult)) :
  dom (setAll results chunkResults)
  = dom results ∪ list_to_set (map fst chunkResults).
Proof.
  revert results. unfold setAll.
  induction chunkResults as [| [d r] rest IH]; intros results; simpl.
  - set_solver.
  - rewrite IH, dom_insert_L. set_solver.
Qed.

Lemma verifyBulk_fold_dom (chunks : list (list string))
      (acc : gmap string HttpVerificationResult * State) :
  dom (fst (fold_left
              (fun (acc : gmap string HttpVerificationResult * State) chunk =>
                 let (chunkResults, st') := verifyChunk probe chunk (snd acc) in
                 (setAll (fst acc) chunkResults, st'))
              chunks acc))
  = dom (fst acc) ∪ list_to_set (concat chunks).
Proof.
  revert acc. induction chunks as [| chunk rest IH]; intros acc; simpl.
  - set_solver.
  - rewrite IH.
    pose proof (verifyChunk_keys chunk (snd acc)) as Hkeys.
    destruct (verifyChunk probe chunk (snd acc)) as [chunkResults st'].
    simpl in *. rewrite setAll_dom, Hkeys, list_to_set_app_L. set_solver.
Qed.

Lemma verifyBulkWith_dom (domains : list string) (st : State) :
  dom (fst (verifyBulkWith probe domains st)) = list_to_set domains.
Proof.
  unfold verifyBulkWith. rewrite verifyBulk_fold_dom.
  unfold chunkArray. rewrite chunksFrom_concat. simpl.
  rewrite dom_empty_L. set_solver.
Qed.


End BulkFacts.


(** ** Price extraction *)

#[local] Arguments String.append !_ _ / : simpl nomatch.

Lemma append_assoc (a b c : string) : (a +:+ b) +:+ c = a +:+ (b +:+ c).
Proof. induction a as [| x a IH]; simpl; [reflexivity | rewrite IH; reflexivity]. Qed.

Lemma append_nil_r (a : string) : a +:+ EmptyString = a.
Proof. induction a as [| x a IH]; simpl; [reflexivity | rewrite IH; reflexivity]. Qed.

Lemma length_append (a b : string) :
  String.length (a +:+ b) = String.length a + String.length b.
Proof. induction a as [| x a IH]; simpl; [reflexivity | rewrite IH; reflexivity]. Qed.

Lemma append_inv_head (a b c : string) : a +:+ b = a +:+ c -> b = c.
Proof.
  induction a as [| x a IH]; simpl; intros H; [exact H |].
  inversion H. auto.
Qed.

Lemma span_append (f : ascii -> bool) (s : string) :
  fst (span f s) +:+ snd (span f s) = s.
Proof.
  induction s as [| c t IH]; simpl; [reflexivity |].
  destruct (f c); [| reflexivity].
  destruct (span f t) as [a b]. simpl in *. rewrite IH. reflexivity.
Qed.

Lemma takeFraction_append (s : string) :
  fst (takeFraction s) +:+ snd (takeFraction s) = s.
Proof.
  unfold takeFraction.
  repeat match goal with
         | |- context [match ?x with _ => _ end] => destruct x
         end; reflexivity.
Qed.

Lemma takeMarker_append (ci : bool) (m s x r : string) :
  takeMarker ci m s = Some (x, r) -> s = x +:+ r.
Proof.
  revert s x r. induction m as [| a m IH]; intros s x r; simpl.
  - intros H. inversion H. reflexivity.
  - destruct s as [| c t]; [discriminate |].
    destruct (if ci then _ else _); [| discriminate].
    destruct (takeMarker ci m t) as [[x' r'] |] eqn:Ht; [| discriminate].
    intros H. inversion H. subst. simpl. rewrite (IH t x' r Ht). reflexivity.
Qed.

(** A match is a prefix of the text it was found in, and is not empty. *)
Lemma matchAt_append (p : PricePattern) (s m r : string) :
  matchAt p s = Some (m, r) -> s = m +:+ r /\ 1 <= String.length m.
Proof.
  unfold matchAt.
  destruct (takeMarker (ignoreCase p) (marker p) s) as [[x r0] |] eqn:Hm;
    [| discriminate].
  apply takeMarker_append in Hm.
  pose proof (span_append Js.is_space r0) as Hsp.
  assert (Hsp' : forall sp r1,
             (if spaces p then span Js.is_space r0 else (EmptyString, r0)) = (sp, r1) ->
             sp +:+ r1 = r0).
  { intros sp r1. destruct (spaces p); intros H.
    - rewrite H in Hsp. exact Hsp.
    - inversion H. reflexivity. }
  destruct (if spaces p then span Js.is_space r0 else (EmptyString, r0))
    as [sp r1].
  specialize (Hsp' sp r1 eq_refl).
  pose proof (span_append is_digit_or_comma r1) as Hds.
  destruct (span is_digit_or_comma r1) as [ds r2]. simpl in Hds.
  destruct ds as [| d ds]; [discriminate |].
  pose proof (takeFraction_append r2) as Hfr.
  destruct (takeFraction r2) as [fr r3]. simpl in Hfr.
  intros H. inversion H. subst. split.
  - rewrite !append_assoc. simpl. rewrite ?append_assoc. reflexivity.
  - rewrite !length_append. simpl. lia.
Qed.

(** [html.match] step by step: a match at the head is recorded and the
    scan resumes after it; otherwise the scan moves one character on. *)
Lemma scanMatches_skip (p : PricePattern) (x s : string) :
  scanMatches p (x +:+ s) (String.length x) = scanMatches p s 0.
Proof. induction x as [| c x IH]; simpl; [destruct s |]; auto. Qed.

Lemma matchAll_match (p : PricePattern) (s m r : string) :
  matchAt p s = Some (m, r) -> matchAll p s = m :: matchAll p r.
Proof.
  intros H. destruct (matchAt_append p s m r H) as [Hs Hlen].
  unfold matchAll. destruct s as [| c t].
  - destruct m; simpl in *; [lia | discriminate].
  - cbn [scanMatches]. rewrite H. f_equal.
    destruct m as [| c' m']; [simpl in Hlen; lia |].
    simpl in Hs. inversion Hs. subst.
    replace (String.length (String c' m') - 1) with (String.length m')
      by (simpl; lia).
    apply scanMatches_skip.
Qed.

Lemma matchAll_nomatch (p : PricePattern) (c : ascii) (t : string) :
  matchAt p (String c t) = None -> matchAll p (String c t) = matchAll p t.
Proof. intros H. unfold matchAll. cbn [scanMatches]. rewrite H. reflexivity. Qed.


Lemma matchAll_none (p : PricePattern) (s : string) :
  (forall t u, s = t +:+ u -> matchAt p u = None) -> matchAll p s = [].
Proof.
  induction s as [| c s IH]; intros H; [reflexivity |].
  rewrite matchAll_nomatch by (apply (H EmptyString); reflexivity).
  apply IH. intros t u Hs. apply (H (String c t)). rewrite Hs. reflexivity.
Qed.

Lemma matchAll_prefix (p : PricePattern) (pre rest : string) :
  (forall t u, pre = t +:+ u -> u <> EmptyString ->
               matchAt p (u +:+ rest) = None) ->
  matchAll p (pre +:+ rest) = matchAll p rest.
Proof.
  induction pre as [| c pre IH]; intros H; [reflexivity |].
  simpl. rewrite matchAll_nomatch.
  - apply IH. intros t u Hpre Hu. apply (H (String c t)); [| exact Hu].
    rewrite Hpre. reflexivity.
  - apply (H EmptyString (String c pre)); [reflexivity | discriminate].
Qed.

(** The price found depends on the matches only, not on the indicators
    collected before the price loop. *)
Lemma scanPrices_price (html : string) (e : option string) (inds inds' : list string) :
  fst (scanPrices html (e, inds)) = fst (scanPrices html (e, inds')).
Proof.
  unfold scanPrices. revert e inds inds'.
  induction pricePatterns as [| p rest IH]; intros e inds inds'; simpl.
  - reflexivity.
  - destruct (find plausiblePrice (matchAll p html)) as [m |]; apply IH.
Qed.

Lemma analyzeHtml_price (html : string) :
  estimatedPrice (analyzeHtml html) = fst (scanPrices html (None, [])).
Proof.
  unfold analyzeHtml.
  destruct (scanBrokers _ (Js.toLowerCase html)) as [b inds0].
  match goal with
  | |- context [scanPrices html (None, ?i)] =>
      rewrite (scanPrices_price html None [] i);
      destruct (scanPrices html (None, i)) as [price inds2]
  end.
  reflexivity.
Qed.

Section OnePrice.

(** A body [pre ++ price ++ post] whose price patterns match inside the
    occurrence of [price] only, where the first pattern matches at least
    [price] there and the other patterns do not match inside it. *)
Variables pre price post : string.
Hypothesis Honly : onlyPriceLike pre price post.
Hypothesis Hdollar :
  exists x r, matchAt (mkPricePattern "$" false false) (price +:+ post)
              = Some (price +:+ x, r).
Hypothesis Hothers :
  forall p, In p (tl pricePatterns) ->
            matchAll p (price +:+ post) = matchAll p post.

Lemma no_match_before (p : PricePattern) (t u : string) :
  In p pricePatterns -> pre = t +:+ u -> u <> EmptyString ->
  matchAt p (u +:+ price +:+ post) = None.
Proof.
  intros Hp Hpre Hu.
  destruct (matchAt p (u +:+ price +:+ post)) as [[m r] |] eqn:Hm; [| reflexivity].
  exfalso. destruct (matchAt_append _ _ _ _ Hm) as [Heq _].
  destruct (Honly t m r) as [Hlen _].
  - rewrite Hpre, append_assoc, Heq. reflexivity.
  - exists p. split; [exact Hp |]. rewrite <- Heq. exact Hm.
  - rewrite Hpre, length_append in Hlen.
    destruct u; [congruence | simpl in Hlen; lia].
Qed.

Lemma no_match_after (p : PricePattern) (t u : string) :
  In p pricePatterns -> post = t +:+ u -> matchAt p u = None.
Proof.
  intros Hp Hpost.
  destruct (matchAt p u) as [[m r] |] eqn:Hm; [| reflexivity].
  exfalso. destruct (matchAt_append _ _ _ _ Hm) as [Heq Hpos].
  destruct (Honly (pre +:+ price +:+ t) m r) as [_ Hlen].
  - rewrite Hpost, <- Heq, !append_assoc. reflexivity.
  - exists p. split; [exact Hp |]. rewrite <- Heq. exact Hm.
  - rewrite Hpost, Heq, !length_append in Hlen. lia.
Qed.

Lemma match_is_price :
  matchAt (mkPricePattern "$" false false) (price +:+ post) = Some (price, post).
Proof.
  destruct Hdollar as (x & r & Hm).
  destruct (matchAt_append _ _ _ _ Hm) as [Heq _].
  destruct (Honly pre (price +:+ x) r) as [_ Hlen].
  - rewrite Heq. reflexivity.
  - exists (mkPricePattern "$" false false). split; [simpl; auto |].
    rewrite <- Heq. exact Hm.
  - assert (Hx : x = EmptyString).
    { apply (f_equal String.length) in Heq. rewrite !length_append in Heq.
      destruct x; [reflexivity | simpl in Heq; lia]. }
    subst x. rewrite append_nil_r in Hm, Heq.
    apply append_inv_head in Heq. subst r. exact Hm.
Qed.

Lemma matches_dollar :
  matchAll (mkPricePattern "$" false false) (pre +:+ price +:+ post) = [price].
Proof.
  rewrite matchAll_prefix.
  - rewrite (matchAll_match _ _ _ _ match_is_price). f_equal.
    apply matchAll_none. intros t u. apply no_match_after. simpl. auto.
  - intros t u. apply no_match_before. simpl. auto.
Qed.

Lemma matches_others (p : PricePattern) :
  In p (tl pricePatterns) -> matchAll p (pre +:+ price +:+ post) = [].
Proof.
  intros Hp.
  assert (Hin : In p pricePatterns) by (simpl in *; auto).
  rewrite matchAll_prefix.
  - rewrite (Hothers p Hp).
    apply matchAll_none. intros t u. apply no_match_after. exact Hin.
  - intros t u. apply no_match_before. exact Hin.
Qed.

Lemma price_of_body :
  estimatedPrice (analyzeHtml (pre +:+ price +:+ post))
  = if plausiblePrice price then Some price else None.
Proof.
  rewrite analyzeHtml_price. unfold scanPrices, pricePatterns.
  cbn [fold_left].
  rewrite matches_dollar.
  rewrite !matches_others by (simpl; auto).
  cbn [find]. destruct (plausiblePrice price); reflexivity.
Qed.

End OnePrice.

Lemma matchesInside_head (before after : nat) (s : string) :
  matchesInside before after s = true ->
  forallb (matchInside before after s) pricePatterns = true.
Proof.
  destruct s; cbn [matchesInside]; intros H;
    apply andb_true_iff in H; tauto.
Qed.

Lemma matchesInside_tail (before after : nat) (c : ascii) (t : string) :
  matchesInside before after (String c t) = true ->
  matchesInside (before - 1) after t = true.
Proof.
  cbn [matchesInside]. intros H. apply andb_true_iff in H. tauto.
Qed.

Lemma matchesInside_sound (after : nat) (a s : string) (before : nat)
      (p : PricePattern) (m r : string) :
  matchesInside before after (a +:+ s) = true ->
  In p pricePatterns ->
  matchAt p s = Some (m, r) ->
  before <= String.length a /\ after <= String.length r.
Proof.
  revert before. induction a as [| c a IH]; intros before Hall Hp Hm.
  - change (EmptyString +:+ s) with s in Hall.
    apply matchesInside_head in Hall.
    rewrite forallb_forall in Hall. specialize (Hall p Hp).
    unfold matchInside in Hall. rewrite Hm in Hall.
    apply andb_true_iff in Hall. destruct Hall as [Hb Ha].
    apply Nat.eqb_eq in Hb. apply Nat.leb_le in Ha. simpl. lia.
  - change (String c a +:+ s) with (String c (a +:+ s)) in Hall.
    apply matchesInside_tail in Hall.
    destruct (IH (before - 1) Hall Hp Hm) as [Hb Ha]. simpl. lia.
Qed.

Lemma matchesInside_only (pre price post : string) :
  matchesInside (String.length pre) (String.length post)
                (pre +:+ price +:+ post) = true ->
  onlyPriceLike pre price post.
Proof.
  intros Hall a b c Heq (p & Hp & Hm).
  rewrite Heq in Hall.
  apply (matchesInside_sound _ a (b +:+ c) _ p b c Hall Hp Hm).
Qed.



(** * Further properties of the prober *)

Section ProberShape.

Variable fetchIPv4 : RequestLog -> string -> FetchOutcome.
Variable newURL : string -> string -> option URL.

Lemma unknownResult_shape : resultShape unknownResult.
Proof.
  unfold resultShape, unknownResult. simpl.
  intuition (try congruence; try discriminate).
Qed.

Lemma handleResponse_shape (url : string) (response : Response)
      (result : HttpVerificationResult) :
  handleResponse newURL url response = Final result -> resultShape result.
Proof.
  unfold handleResponse.
  destruct ((300 <=? responseStatus response) && (responseStatus response <? 400))%Z.
  - destruct (truthy (headerLocation response)) as [location |];
      [| intros H; inversion H; apply unknownResult_shape].
    destruct (newURL location url) as [target |];
      [| intros H; inversion H; apply unknownResult_shape].
    destruct (isBlockedDomain (hostname target));
      [intros H; inversion H; apply unknownResult_shape |].
    destruct (isParked (checkUrlForParking (href target))) eqn:Hp; [| discriminate].
    intros H. inversion H. unfold resultShape. simpl.
    intuition (try congruence; try discriminate).
  - assert (Hplain : resultShape {| status := taken; parkingDetection := None;
                                    httpStatus := Some (responseStatus response);
                                    redirectUrl := None |}).
    { unfold resultShape. simpl.
      intuition (try congruence; try discriminate). }
    cbv zeta.
    destruct (Js.includes _ "text/html");
      [| intros H; inversion H; subst; exact Hplain].
    destruct (truthy (responseText response)) as [html |];
      [| intros H; inversion H; subst; exact Hplain].
    destruct (isParked (analyzeHtml html)) eqn:Hp;
      [| intros H; inversion H; subst; exact Hplain].
    intros H. inversion H. unfold resultShape. simpl.
    destruct (broker (analyzeHtml html)) as [b |] eqn:Hb;
      intuition (try congruence; try discriminate; eauto).
Qed.

Lemma tryFetch_shape (url : string) (redirectCount : nat) (log : RequestLog) :
  resultShape (fst (tryFetch fetchIPv4 newURL url redirectCount log)).
Proof.
  funelim (tryFetch fetchIPv4 newURL url redirectCount log); simpl.
  - apply unknownResult_shape.
  - rewrite handleError_unknown. apply unknownResult_shape.
  - eapply handleResponse_shape; eassumption.
  - assumption.
Qed.

Lemma verifyDomain_shape (domain : string) (log : RequestLog) :
  resultShape (fst (verifyDomain fetchIPv4 newURL domain log)).
Proof.
  unfold verifyDomain.
  destruct (isBlockedDomain domain); [apply unknownResult_shape |].
  pose proof (tryFetch_shape ("https://" +:+ domain) 0 log) as H1.
  destruct (tryFetch fetchIPv4 newURL ("https://" +:+ domain) 0 log) as [r log1].
  destruct (DomainStatus_eqb (status r) unknown);
    [apply tryFetch_shape | exact H1].
Qed.

(** X1.  Every result of [tryFetch] and [verifyDomain] has the shape
    [resultShape]: evidence exactly on parked and for_sale results and
    always positive, a broker on every for_sale result, no HTTP status
    code exactly on unknown results, a redirect URL on parked results
    only. *)
Theorem probe_result_shape :
  (forall url redirectCount log,
      resultShape (fst (tryFetch fetchIPv4 newURL url redirectCount log)))
  /\ (forall domain log,
         resultShape (fst (verifyDomain fetchIPv4 newURL domain log))).
Proof.
  split.
  - intros url redirectCount log. apply tryFetch_shape.
  - intros domain log. apply verifyDomain_shape.
Qed.

(** X2.  [verifyDomain] issues at most ten requests, five for each
    scheme, and bulk verification at most ten for each domain. *)
Theorem probe_request_budget :
  (forall domain log,
      length (snd (verifyDomain fetchIPv4 newURL domain log)) <= length log + 10)
  /\ (forall domains log,
         length (snd (verifyBulk fetchIPv4 newURL domains log))
         <= length log + 10 * length domains).
Proof.
  assert (Hone : forall domain log,
             length (snd (verifyDomain fetchIPv4 newURL domain log))
             <= length log + 10).
  { intros domain log. unfold verifyDomain.
    destruct (isBlockedDomain domain); [simpl; lia |].
    destruct (tryFetch_log fetchIPv4 newURL ("https://" +:+ domain) 0 log)
      as (new1 & Hnew1 & Hlen1).
    destruct (tryFetch fetchIPv4 newURL ("https://" +:+ domain) 0 log) as [r log1].
    simpl in Hnew1. subst log1. unfold MAX_REDIRECTS in Hlen1.
    destruct (DomainStatus_eqb (status r) unknown).
    - destruct (tryFetch_log fetchIPv4 newURL ("http://" +:+ domain) 0 (log ++ new1))
        as (new2 & Hnew2 & Hlen2).
      rewrite Hnew2, !length_app. unfold MAX_REDIRECTS in Hlen2. lia.
    - simpl. rewrite length_app. lia. }
  split; [exact Hone |].
  assert (Hchunk : forall chunk log,
             length (snd (verifyChunk (verifyDomain fetchIPv4 newURL) chunk log))
             <= length log + 10 * length chunk).
  { induction chunk as [| d rest IH]; intros log; simpl; [lia |].
    specialize (Hone d log).
    destruct (verifyDomain fetchIPv4 newURL d log) as [r log1]. simpl in Hone.
    specialize (IH log1).
    destruct (verifyChunk (verifyDomain fetchIPv4 newURL) rest log1) as [rs log2].
    simpl in *. lia. }
  intros domains log. unfold verifyBulk, verifyBulkWith.
  rewrite <- (chunksFrom_concat domains 4 0) at 2.
  change (chunksFrom domains 5 0) with (chunkArray domains 5).
  generalize (chunkArray domains 5) as chunks.
  generalize (∅ : gmap string HttpVerificationResult) as results.
  intros results chunks. revert results log.
  induction chunks as [| chunk rest IH]; intros results log; simpl; [lia |].
  specialize (Hchunk chunk log).
  destruct (verifyChunk (verifyDomain fetchIPv4 newURL) chunk log) as [rs log1].
  simpl in Hchunk.
  specialize (IH (setAll results rs) log1).
  rewrite length_app. simpl in IH. lia.
Qed.

End ProberShape.

(** * Further properties of the classifier *)

#[local] Arguments String.append !_ _ / : simpl nomatch.

Lemma startsWith_append (m r : string) : Js.startsWith (m +:+ r) m = true.
Proof.
  induction m as [| c m IH]; simpl; [reflexivity |].
  rewrite Ascii.eqb_refl. exact IH.
Qed.

Lemma includes_cons (c : ascii) (s m : string) :
  Js.includes s m = true -> Js.includes (String c s) m = true.
Proof. intros H. cbn [Js.includes]. rewrite H. apply orb_true_r. Qed.

Lemma includes_startsWith (s m : string) :
  Js.startsWith s m = true -> Js.includes s m = true.
Proof. intros H. destruct s; cbn [Js.includes]; rewrite H; reflexivity. Qed.

(** Every match reported by [html.match] is a substring of the text. *)
Lemma scanMatches_substring (p : PricePattern) (s : string) (k : nat) (m : string) :
  In m (scanMatches p s k) -> Js.includes s m = true.
Proof.
  revert k. induction s as [| c t IH]; intros k; cbn [scanMatches].
  - intros [].
  - destruct k as [| k].
    + destruct (matchAt p (String c t)) as [[m' r] |] eqn:Hm.
      * intros [<- | Hin].
        -- apply includes_startsWith.
           destruct (matchAt_append _ _ _ _ Hm) as [-> _].
           apply startsWith_append.
        -- apply includes_cons. eapply IH. exact Hin.
      * intros Hin. apply includes_cons. eapply IH. exact Hin.
    + intros Hin. apply includes_cons. eapply IH. exact Hin.
Qed.

(** What the price loop keeps: a price found is in the band, occurs in the
    page and has its indicator; earlier indicators stay. *)
Lemma scanPrices_invariant (html : string) (patterns : list PricePattern)
      (st : option string * list string) :
  (forall m, fst st = Some m ->
             plausiblePrice m = true /\ Js.includes html m = true
             /\ In ("Price detected: " +:+ m) (snd st)) ->
  let r := fold_left
             (fun (st : option string * list string) pattern =>
                match find plausiblePrice (matchAll pattern html) with
                | Some m => (Some m, snd st ++ ["Price detected: " +:+ m])
                | None => st
                end) patterns st in
  (forall m, fst r = Some m ->
             plausiblePrice m = true /\ Js.includes html m = true
             /\ In ("Price detected: " +:+ m) (snd r))
  /\ (forall x, In x (snd st) -> In x (snd r)).
Proof.
  revert st. induction patterns as [| p rest IH]; intros st Hst; simpl.
  - auto.
  - destruct (find plausiblePrice (matchAll p html)) as [m |] eqn:Hfind.
    + apply find_some in Hfind. destruct Hfind as [Hin Hok].
      destruct (IH (Some m, snd st ++ ["Price detected: " +:+ m])) as [H1 H2].
      * simpl. intros m' Hm'. inversion Hm'. subst m'.
        split; [exact Hok |]. split.
        -- eapply scanMatches_substring. exact Hin.
        -- apply in_or_app. right. simpl. auto.
      * split; [exact H1 |].
        intros x Hx. apply H2. simpl. apply in_or_app. left. exact Hx.
    + apply IH. exact Hst.
Qed.

(** X3.  A price reported by body classification is a substring of the
    page, its value lies in the accepted band, and the indicator list
    carries its "Price detected" entry. *)
Theorem extracted_price_is_plausible (html m : string) :
  estimatedPrice (analyzeHtml html) = Some m ->
  plausiblePrice m = true
  /\ Js.includes html m = true
  /\ In ("Price detected: " +:+ m) (indicators (analyzeHtml html)).
Proof.
  unfold analyzeHtml.
  destruct (scanBrokers _ (Js.toLowerCase html)) as [b inds0].
  match goal with
  | |- context [scanPrices html (None, ?i)] =>
      pose proof (scanPrices_invariant html pricePatterns (None, i)) as Hinv;
      fold (scanPrices html (None, i)) in Hinv;
      destruct (scanPrices html (None, i)) as [price inds2]
  end.
  cbv zeta in Hinv. simpl in Hinv.
  destruct Hinv as [Hprice _]; [intros m' Hm'; discriminate |].
  cbv zeta. cbn [estimatedPrice indicators].
  intros Hm. destruct (Hprice m Hm) as (H1 & H2 & H3).
  split; [exact H1 |]. split; [exact H2 |].
  destruct ((wordCount html <? 50)%nat && (0 <? length inds2)%nat);
    [apply in_or_app; left |]; exact H3.
Qed.

Lemma extracted_price_is_plausible_witness :
  plausiblePrice "$12,500" = true
  /\ Js.includes "<p>Buy this domain for $12,500 today</p>" "$12,500" = true.
Proof.
  destruct (extracted_price_is_plausible
              "<p>Buy this domain for $12,500 today</p>" "$12,500")
    as (H1 & H2 & _); [vm_compute; reflexivity |].
  split; assumption.
Defined.

Lemma last_cons_default {A : Type} (a d : A) (l : list A) :
  last (a :: l) d = last l a.
Proof.
  revert a d. induction l as [| b l IH]; intros a d; [reflexivity |].
  change (last (a :: b :: l) d) with (last (b :: l) d).
  rewrite !IH. reflexivity.
Qed.

(** The broker scan as a closed form: one indicator for each signature
    found, in table order; the broker is the last entry that has one. *)
Lemma scanBrokers_closed (describe : string -> string) (textLower : string) :
  snd (scanBrokers describe textLower)
  = map describe (flat_map (brokerMatches textLower) PARKING_brokers)
  /\ fst (scanBrokers describe textLower)
     = last (map Some (matchingBrokers textLower)) None.
Proof.
  unfold scanBrokers, matchingBrokers.
  assert (Hinner : forall (name : string) (patterns : list string)
                          (acc : option string * list string),
             let r := fold_left
                        (fun (st : option string * list string) pattern =>
                           if Js.includes textLower (Js.toLowerCase pattern)
                           then (Some name, snd st ++ [describe pattern])
                           else st) patterns acc in
             snd r = snd acc ++ map describe (brokerMatches textLower (name, patterns))
             /\ fst r = if (0 <? length (brokerMatches textLower (name, patterns)))%nat
                        then Some name else fst acc).
  { intros name patterns. unfold brokerMatches. simpl.
    induction patterns as [| pat rest IH]; intros acc; simpl.
    - rewrite app_nil_r. auto.
    - destruct (IH (if Js.includes textLower (Js.toLowerCase pat)
                    then (Some name, snd acc ++ [describe pat]) else acc))
        as [Hs Hf].
      rewrite Hs, Hf.
      destruct (Js.includes textLower (Js.toLowerCase pat)); simpl.
      + rewrite <- app_assoc. split; [reflexivity |].
        destruct (0 <? length (filter _ rest))%nat; reflexivity.
      + auto. }
  assert (Hgen : forall (brokers : list (string * list string))
                        (acc : option string * list string),
             let r := fold_left
                        (fun acc (entry : string * list string) =>
                           let (brokerName, patterns) := entry in
                           fold_left
                             (fun (st : option string * list string) pattern =>
                                if Js.includes textLower (Js.toLowerCase pattern)
                                then (Some brokerName, snd st ++ [describe pattern])
                                else st) patterns acc)
                        brokers acc in
             snd r = snd acc ++ map describe (flat_map (brokerMatches textLower) brokers)
             /\ fst r = last (map Some
                                  (map fst
                                       (filter (fun entry =>
                                                  (0 <? length (brokerMatches textLower entry))%nat)
                                               brokers)))
                             (fst acc)).
  { induction brokers as [| [name patterns] rest IH]; intros acc; simpl.
    - rewrite app_nil_r. auto.
    - destruct (Hinner name patterns acc) as [Hs Hf].
      destruct (IH (fold_left
                      (fun (st : option string * list string) pattern =>
                         if Js.includes textLower (Js.toLowerCase pattern)
                         then (Some name, snd st ++ [describe pattern])
                         else st) patterns acc)) as [Hs' Hf'].
      rewrite Hs', Hf', Hs, Hf. split.
      + rewrite map_app, app_assoc. reflexivity.
      + destruct (0 <? length (brokerMatches textLower (name, patterns)))%nat;
          [| reflexivity].
        cbn [map fst]. symmetry. apply last_cons_default. }
  destruct (Hgen PARKING_brokers (None, [])) as [Hs Hf].
  split; [exact Hs | exact Hf].
Qed.

(** X4.  When signatures of several brokers occur, the broker reported is
    the one latest in the table, for URL and for body classification
    alike; URL classification reports one indicator for each signature
    found, in table order. *)
Theorem last_matching_broker_wins :
  (forall url,
      broker (checkUrlForParking url)
      = last (map Some (matchingBrokers (Js.toLowerCase url))) None
      /\ indicators (checkUrlForParking url)
         = map (fun pattern => "URL contains " +:+ pattern)
               (flat_map (brokerMatches (Js.toLowerCase url)) PARKING_brokers))
  /\ (forall html,
         broker (analyzeHtml html)
         = last (map Some (matchingBrokers (Js.toLowerCase html))) None).
Proof.
  split.
  - intros url. rewrite checkUrlForParking_fields. simpl.
    destruct (scanBrokers_closed (fun pattern => "URL contains " +:+ pattern)
                                 (Js.toLowerCase url)) as [Hs Hf].
    split; [exact Hf | exact Hs].
  - intros html. unfold analyzeHtml.
    match goal with
    | |- context [scanBrokers ?d (Js.toLowerCase html)] =>
        destruct (scanBrokers_closed d (Js.toLowerCase html)) as [_ Hf];
        destruct (scanBrokers d (Js.toLowerCase html)) as [b inds0]
    end.
    destruct (scanPrices html _) as [price inds2].
    simpl in Hf. exact Hf.
Qed.

Example two_brokers_in_one_url :
  broker (checkUrlForParking "https://bodis.com/?from=sedo.com/x") = Some "bodis"
  /\ matchingBrokers "https://bodis.com/?from=sedo.com/x" = ["sedo"; "bodis"].
Proof. split; reflexivity. Qed.

Lemma scanBrokers_texts (describe : string -> string) (textLower : string)
      (Q : string -> Prop) :
  (forall pattern, Q (describe pattern)) ->
  Forall Q (snd (scanBrokers describe textLower)).
Proof.
  intros HQ. destruct (scanBrokers_closed describe textLower) as [-> _].
  apply Forall_forall. intros x Hx. apply in_map_iff in Hx.
  destruct Hx as (pattern & <- & _). apply HQ.
Qed.

(** X5.  The "Minimal page content" indicator is never the only
    evidence: whenever body classification reports it, the page has
    fewer than 50 words, carries at least one more indicator and is
    classified as parked. *)
Theorem minimal_content_never_alone (html : string) :
  In "Minimal page content" (indicators (analyzeHtml html)) ->
  (wordCount html < 50)%nat
  /\ 2 <= length (indicators (analyzeHtml html))
  /\ isParked (analyzeHtml html) = true.
Proof.
  unfold analyzeHtml.
  match goal with
  | |- context [scanBrokers ?d (Js.toLowerCase html)] =>
      pose proof (scanBrokers_texts d (Js.toLowerCase html) evidenceText) as H0;
      destruct (scanBrokers d (Js.toLowerCase html)) as [b inds0]
  end.
  simpl in H0.
  assert (Hinds0 : Forall evidenceText inds0).
  { apply H0. intros pattern. left. apply (startsWith_append "Found "). }
  clear H0.
  match goal with
  | |- context [scanPrices html (None, ?i)] =>
      assert (Hinds1 : Forall evidenceText i);
      [| set (inds1 := i) in *]
  end.
  { generalize PARKING_indicators as phrases. revert Hinds0.
    generalize inds0 as acc.
    intros acc Hacc phrases. revert acc Hacc.
    induction phrases as [| ph rest IH]; intros acc Hacc; simpl; [exact Hacc |].
    apply IH. destruct (Js.includes _ _); [| exact Hacc].
    apply Forall_app. split; [exact Hacc |].
    constructor; [| constructor]. left. apply (startsWith_append "Found "). }
  assert (Hinds2 : Forall evidenceText (snd (scanPrices html (None, inds1)))).
  { unfold scanPrices. revert Hinds1.
    generalize (@None string) as e. generalize inds1 as acc.
    generalize pricePatterns as patterns.
    induction patterns as [| p rest IH]; intros acc e Hacc; simpl; [exact Hacc |].
    destruct (find plausiblePrice (matchAll p html)) as [m |].
    - apply IH. simpl. apply Forall_app. split; [exact Hacc |].
      constructor; [| constructor]. right.
      apply (startsWith_append "Price detected: ").
    - apply IH. exact Hacc. }
  destruct (scanPrices html (None, inds1)) as [price inds2]. simpl in Hinds2.
  cbv zeta. cbn [indicators isParked].
  assert (Hnot : ~ In "Minimal page content" inds2).
  { intros Hin. rewrite Forall_forall in Hinds2.
    destruct (Hinds2 _ Hin) as [H | H]; vm_compute in H; discriminate. }
  destruct (Nat.ltb_spec (wordCount html) 50) as [Hw | Hw]; cbn [andb];
    [| contradiction].
  destruct (Nat.ltb_spec 0 (length inds2)) as [Hn | Hn]; [| contradiction].
  intros _. split; [exact Hw |].
  rewrite length_app. cbn [length].
  split; [lia |].
  apply orb_true_iff. left. apply Nat.leb_le. lia.
Qed.

Lemma minimal_content_never_alone_witness :
  isParked (analyzeHtml "<p>Buy this domain</p>") = true.
Proof.
  apply (minimal_content_never_alone "<p>Buy this domain</p>").
  vm_compute. auto.
Defined.

(** * The body reader *)

Lemma length_zeros (n : nat) : String.length (zeros n) = n.
Proof. induction n as [| n IH]; simpl; [reflexivity | rewrite IH; reflexivity]. Qed.

Lemma joinChunks_app (a b : list string) :
  joinChunks (a ++ b) = joinChunks a +:+ joinChunks b.
Proof.
  induction a as [| x a IH]; simpl; [reflexivity |].
  rewrite IH, append_assoc. reflexivity.
Qed.

(** The copy loop never has to cut a chunk when the chunks fit. *)
Lemma copyLoop_fits (chunks : list string) (filled : string) (capacity : nat) :
  String.length filled + String.length (joinChunks chunks) <= capacity ->
  copyLoop chunks filled capacity = filled +:+ joinChunks chunks.
Proof.
  revert filled. induction chunks as [| chunk rest IH]; intros filled Hfit; simpl.
  - rewrite append_nil_r. reflexivity.
  - simpl in Hfit. rewrite length_append in Hfit.
    destruct (Nat.ltb_spec capacity (String.length filled + String.length chunk));
      [lia |].
    rewrite IH, append_assoc; [reflexivity |].
    rewrite length_append. lia.
Qed.

(** What the read loop returns: the chunks kept are those read before the
    first chunk that takes the total over the limit, and they fit. *)
Lemma readLoop_spec (events : list ReadEvent) (chunks : list string)
      (totalSize : nat) (kept : list string) (total : nat) :
  String.length (joinChunks chunks) = totalSize ->
  totalSize <= MAX_RESPONSE_SIZE ->
  readLoop events chunks totalSize = Some (kept, total) ->
  String.length (joinChunks kept) <= MAX_RESPONSE_SIZE
  /\ String.length (joinChunks kept) <= total
  /\ (total <= MAX_RESPONSE_SIZE ->
      total = String.length (joinChunks kept)
      /\ exists values, streamValues events = Some values
                        /\ kept = chunks ++ values)
  /\ (MAX_RESPONSE_SIZE < total ->
      exists before value rest,
        events = map ReadValue before ++ ReadValue value :: rest
        /\ kept = chunks ++ before
        /\ total = String.length (joinChunks kept) + String.length value).
Proof.
  revert chunks totalSize.
  induction events as [| ev events IH]; intros chunks totalSize Hsum Hle; simpl.
  - intros H. inversion H. subst. split; [lia |]. split; [lia |]. split.
    + intros _. split; [reflexivity |]. exists []. rewrite app_nil_r. auto.
    + intros Hover. lia.
  - destruct ev as [value |]; [| discriminate].
    destruct (Nat.ltb_spec MAX_RESPONSE_SIZE (totalSize + String.length value))
      as [Hover | Hfit].
    + intros H. inversion H. subst. split; [lia |]. split; [lia |]. split.
      * intros Hsmall. lia.
      * intros _. exists [], value, events. simpl. rewrite app_nil_r. auto.
    + intros H.
      destruct (IH (chunks ++ [value]) (totalSize + String.length value))
        as (H1 & H2 & H3 & H4); [| exact Hfit | exact H |].
      { rewrite joinChunks_app, length_append. simpl.
        rewrite append_nil_r. lia. }
      split; [exact H1 |]. split; [exact H2 |]. split.
      * intros Hsmall. destruct (H3 Hsmall) as (Ht & values & Hv & Hk).
        split; [exact Ht |]. exists (value :: values).
        split; [rewrite Hv; reflexivity |].
        rewrite Hk, <- app_assoc. reflexivity.
      * intros Hbig. destruct (H4 Hbig) as (before & v & rest & He & Hk & Ht).
        exists (value :: before), v, rest.
        split; [rewrite He; reflexivity |].
        split; [rewrite Hk, <- app_assoc; reflexivity | exact Ht].
Qed.

(** X6.  The body handed to the decoder never exceeds 1 MiB.  A stream
    that ends within the limit is handed over whole.  A stream that goes
    over it is cut before the chunk that crosses the limit, and the rest
    of the 1 MiB buffer stays zero: no byte of that chunk or of later
    reads is kept, and a chunk is never cut in the middle. *)
Theorem body_reader_limit (events : list ReadEvent) (bytes : string) :
  responseBytes (Some events) = Some bytes ->
  String.length bytes <= MAX_RESPONSE_SIZE
  /\ ((exists values,
          streamValues events = Some values
          /\ String.length (joinChunks values) <= MAX_RESPONSE_SIZE
          /\ bytes = joinChunks values)
      \/ (exists before value rest,
             events = map ReadValue before ++ ReadValue value :: rest
             /\ String.length (joinChunks before) <= MAX_RESPONSE_SIZE
             /\ MAX_RESPONSE_SIZE
                < String.length (joinChunks before) + String.length value
             /\ bytes = joinChunks before
                        +:+ zeros (MAX_RESPONSE_SIZE
                                   - String.length (joinChunks before)))).
Proof.
  unfold responseBytes.
  destruct (readLoop events [] 0) as [[kept total] |] eqn:Hloop; [| discriminate].
  destruct (readLoop_spec events [] 0 kept total eq_refl (Nat.le_0_l _) Hloop)
    as (Hkept & Hle & Hsmall & Hbig).
  cbv zeta.
  destruct (Nat.ltb_spec MAX_RESPONSE_SIZE total) as [Hover | Hfit].
  - rewrite copyLoop_fits by (simpl; exact Hkept).
    intros H. inversion H. simpl.
    destruct (Hbig Hover) as (before & value & rest & He & Hk & Ht).
    simpl in Hk. subst kept.
    split.
    + rewrite length_append, length_zeros. lia.
    + right. exists before, value, rest.
      repeat split; first [assumption | reflexivity | lia].
  - rewrite copyLoop_fits by (simpl; lia).
    intros H. inversion H. simpl.
    destruct (Hsmall Hfit) as (Ht & values & Hv & Hk).
    simpl in Hk. subst kept.
    rewrite <- Ht, Nat.sub_diag. simpl. rewrite append_nil_r.
    split; [lia |].
    left. exists values. repeat split; first [assumption | reflexivity | lia].
Qed.

Lemma body_reader_limit_witness :
  String.length ("<html>" +:+ "</html>") <= MAX_RESPONSE_SIZE.
Proof.
  destruct (body_reader_limit [ReadValue "<html>"; ReadValue "</html>"]
                              ("<html>" +:+ "</html>")) as [H _].
  - unfold responseBytes. cbn [readLoop String.length].
    replace (MAX_RESPONSE_SIZE <? 0 + 6)%nat with false
      by (symmetry; apply Nat.ltb_ge; unfold MAX_RESPONSE_SIZE; lia).
    cbn [app].
    replace (MAX_RESPONSE_SIZE <? 0 + 6 + 7)%nat with false
      by (symmetry; apply Nat.ltb_ge; unfold MAX_RESPONSE_SIZE; lia).
    cbv zeta.
    replace (MAX_RESPONSE_SIZE <? 0 + 6 + 7)%nat with false
      by (symmetry; apply Nat.ltb_ge; unfold MAX_RESPONSE_SIZE; lia).
    reflexivity.
  - exact H.
Defined.

(** Reads that fit are kept one by one. *)
Lemma readLoop_prefix (before : list string) (tail : list ReadEvent)
      (chunks : list string) :
  String.length (joinChunks (chunks ++ before)) <= MAX_RESPONSE_SIZE ->
  readLoop (map ReadValue before ++ tail) chunks
           (String.length (joinChunks chunks))
  = readLoop tail (chunks ++ before)
             (String.length (joinChunks (chunks ++ before))).
Proof.
  revert tail chunks.
  induction before as [| v before IH]; intros tail chunks Hfit; simpl.
  - rewrite app_nil_r. reflexivity.
  - assert (Hstep : String.length (joinChunks chunks) + String.length v
                    = String.length (joinChunks (chunks ++ [v]))).
    { rewrite joinChunks_app, length_append. simpl.
      rewrite append_nil_r. reflexivity. }
    replace (chunks ++ v :: before) with ((chunks ++ [v]) ++ before) in *
      by (rewrite <- app_assoc; reflexivity).
    destruct (Nat.ltb_spec MAX_RESPONSE_SIZE
                (String.length (joinChunks chunks) + String.length v))
      as [Hover | _].
    + exfalso. rewrite joinChunks_app, length_append in Hfit. lia.
    + rewrite Hstep. apply IH. exact Hfit.
Qed.

(** A throwing read met within the limit gives [null]. *)
Lemma reader_throw_null (decode : string -> string) (before : list string)
      (rest : list ReadEvent) :
  String.length (joinChunks before) <= MAX_RESPONSE_SIZE ->
  readResponseWithLimit decode
    (Some (map ReadValue before ++ ReadThrows :: rest)) = None.
Proof.
  intros Hfit. unfold readResponseWithLimit, responseBytes.
  pose proof (readLoop_prefix before (ReadThrows :: rest) [] Hfit) as Hp.
  cbn [joinChunks String.length app] in Hp. rewrite Hp.
  reflexivity.
Qed.

(** X7.  A read that throws before the stream ends or crosses the limit
    makes the reader return [null], as does a response without a body;
    a throw after the limit was crossed is never seen. *)
Theorem body_reader_failure (decode : string -> string) :
  readResponseWithLimit decode None = None
  /\ (forall before rest,
         String.length (joinChunks before) <= MAX_RESPONSE_SIZE ->
         readResponseWithLimit decode
           (Some (map ReadValue before ++ ReadThrows :: rest)) = None)
  /\ (forall before value rest,
         String.length (joinChunks before) <= MAX_RESPONSE_SIZE ->
         MAX_RESPONSE_SIZE
         < String.length (joinChunks before) + String.length value ->
         readResponseWithLimit decode
           (Some (map ReadValue before ++ ReadValue value :: ReadThrows :: rest))
         = Some (decode (joinChunks before
                         +:+ zeros (MAX_RESPONSE_SIZE
                                    - String.length (joinChunks before))))).
Proof.
  split; [reflexivity |]. split.
  - intros before rest Hfit. apply reader_throw_null. exact Hfit.
  - intros before value rest Hfit Hover.
    unfold readResponseWithLimit, responseBytes.
    pose proof (readLoop_prefix before (ReadValue value :: ReadThrows :: rest) [] Hfit)
      as Hp.
    cbn [joinChunks String.length app] in Hp. rewrite Hp.
    cbn [readLoop].
    destruct (Nat.ltb_spec MAX_RESPONSE_SIZE
                (String.length (joinChunks before) + String.length value))
      as [_ | Hno]; [| lia].
    cbv zeta.
    destruct (Nat.ltb_spec MAX_RESPONSE_SIZE
                (String.length (joinChunks before) + String.length value))
      as [_ | Hno]; [| lia].
    rewrite copyLoop_fits by (simpl; exact Hfit).
    reflexivity.
Qed.

Lemma body_reader_failure_witness :
  readResponseWithLimit (fun bytes => bytes)
    (Some (map ReadValue ["<html>"] ++ [ReadThrows])) = None.
Proof.
  destruct (body_reader_failure (fun bytes => bytes)) as (_ & Hthrow & _).
  apply (Hthrow ["<html>"] []).
  change (String.length (joinChunks ["<html>"])) with 6.
  unfold MAX_RESPONSE_SIZE. lia.
Defined.

(** X8.  A body whose read throws does not make the probe fail: a
    response that is not a redirect is then reported as taken, with its
    status code, whatever its content type. *)
Theorem failed_body_read_is_taken
    (fetchIPv4 : RequestLog -> string -> FetchOutcome)
    (newURL : string -> string -> option URL)
    (decode : string -> string)
    (url : string) (redirectCount : nat) (log : RequestLog)
    (code : Z) (location contentType : option string)
    (before : list string) (rest : list ReadEvent) :
  redirectCount < MAX_REDIRECTS ->
  ~ (300 <= code < 400)%Z ->
  String.length (joinChunks before) <= MAX_RESPONSE_SIZE ->
  fetchIPv4 log url
  = Resolved (mkResponse code location contentType
                (readResponseWithLimit decode
                   (Some (map ReadValue before ++ ReadThrows :: rest)))) ->
  tryFetch fetchIPv4 newURL url redirectCount log
  = ({| status := taken; parkingDetection := None;
        httpStatus := Some code; redirectUrl := None |},
     log ++ [url]).
Proof.
  intros Hlt Hcode Hfit Hres.
  rewrite (reader_throw_null decode before rest Hfit) in Hres.
  rewrite tryFetch_below by exact Hlt. unfold hopResult, handleResponse.
  rewrite Hres. cbn [responseStatus headerContentType responseText truthy].
  replace ((300 <=? code) && (code <? 400))%Z with false.
  - destruct (Js.includes _ "text/html"); reflexivity.
  - symmetry. apply andb_false_iff.
    destruct (Z.leb_spec 300 code); [| auto].
    destruct (Z.ltb_spec code 400); [lia | auto].
Qed.

Lemma failed_body_read_is_taken_witness :
  tryFetch
    (fun _ _ => Resolved (mkResponse 200 None (Some "text/html")
                            (readResponseWithLimit (fun bytes => bytes)
                               (Some (map ReadValue ["<html>"] ++ [ReadThrows])))))
    (urlOnHost "example.com") "https://example.com" 0 []
  = ({| status := taken; parkingDetection := None;
        httpStatus := Some 200%Z; redirectUrl := None |},
     ["https://example.com"]).
Proof.
  apply (failed_body_read_is_taken _ _ (fun bytes => bytes) _ 0 [] 200 None
           (Some "text/html") ["<html>"] []).
  - unfold MAX_REDIRECTS. lia.
  - lia.
  - change (String.length (joinChunks ["<html>"])) with 6.
    unfold MAX_RESPONSE_SIZE. lia.
  - reflexivity.
Defined.

(** * Input validation *)

Example validateDomain_ex :
  map validateDomain
      [JsString "  Example.COM "; JsString "localhost"; JsString "a-.com";
       JsString "127.0.0.1"; JsString "[::1]"; JsString "ex ample.com"; JsOther]
  = [Valid "example.com";
     Invalid "Invalid domain format. Expected format: example.com";
     Invalid "Invalid domain format. Expected format: example.com";
     Valid "127.0.0.1";
     Invalid "Invalid domain format. Expected format: example.com";
     Invalid "Invalid domain format. Expected format: example.com";
     Invalid "Domain must be a string"].
Proof. reflexivity. Qed.

Example splitOn_ex :
  map (splitOn ".") ["a.b"; "a."; ".a"; "abc"; EmptyString]
  = [["a"; "b"]; ["a"; EmptyString]; [EmptyString; "a"]; ["abc"]; [EmptyString]].
Proof. reflexivity. Qed.

(** A character of a domain name is its own lower case and is no space. *)
Lemma domain_char_plain (c : ascii) :
  is_label_char c || Ascii.eqb c "." = true ->
  Js.lower_char c = c /\ Js.is_space c = false.
Proof.
  destruct c as [[] [] [] [] [] [] [] []]; vm_compute; intros H;
    try discriminate H; split; reflexivity.
Qed.

Lemma lower_alnum_label_char (c : ascii) :
  is_lower_alnum c = true -> is_label_char c = true.
Proof. intros H. unfold is_label_char. rewrite H. reflexivity. Qed.

Lemma toLowerCase_plain (s : string) :
  allChars (fun c => is_label_char c || Ascii.eqb c ".") s = true ->
  Js.toLowerCase s = s.
Proof.
  induction s as [| c t IH]; [reflexivity |].
  cbn [allChars Js.toLowerCase]. intros H. apply andb_true_iff in H.
  destruct H as [Hc Ht]. destruct (domain_char_plain c Hc) as [-> _].
  rewrite IH by exact Ht. reflexivity.
Qed.

Lemma reverse_reverse (s a b : string) :
  reverse (reverse s a) b = reverse a (s +:+ b).
Proof.
  revert a. induction s as [| c t IH]; intros a; [reflexivity |].
  cbn [reverse]. rewrite IH. reflexivity.
Qed.

Lemma reverse_head (s acc : string) :
  endsAlnum s = true ->
  exists c t, reverse s acc = String c t /\ is_lower_alnum c = true.
Proof.
  revert acc. induction s as [| c t IH]; intros acc H; [discriminate |].
  destruct t as [| d t'].
  - exists c, acc. auto.
  - cbn [reverse]. change (endsAlnum (String c (String d t')))
      with (endsAlnum (String d t')) in H.
    apply (IH (String c acc) H).
Qed.

Lemma alnum_not_space (c : ascii) :
  is_lower_alnum c = true -> Js.is_space c = false.
Proof.
  intros H. apply (domain_char_plain c).
  rewrite (lower_alnum_label_char c H). reflexivity.
Qed.

(** Text that starts and ends with a letter or digit is already trimmed. *)
Lemma trim_plain (s : string) :
  startsAlnum s = true -> endsAlnum s = true -> trim s = s.
Proof.
  intros Hs He. unfold trim.
  assert (H1 : trimStart s = s).
  { destruct s as [| c t]; [reflexivity |]. simpl in Hs.
    cbn [trimStart]. rewrite (alnum_not_space c Hs). reflexivity. }
  rewrite H1.
  destruct (reverse_head s EmptyString He) as (c & t & Hr & Hc).
  rewrite Hr. cbn [trimStart]. rewrite (alnum_not_space c Hc).
  rewrite <- Hr, reverse_reverse. cbn [reverse]. apply append_nil_r.
Qed.

Lemma splitOn_not_nil (sep : ascii) (s : string) : splitOn sep s <> [].
Proof.
  destruct s as [| c t]; cbn [splitOn]; [discriminate |].
  destruct (Ascii.eqb c sep); [discriminate |].
  destruct (splitOn sep t); discriminate.
Qed.

Lemma splitOn_single_empty (sep : ascii) (s : string) :
  splitOn sep s = [EmptyString] -> s = EmptyString.
Proof.
  destruct s as [| c t]; [reflexivity |]. cbn [splitOn].
  destruct (Ascii.eqb c sep).
  - intros H. inversion H as [Ht]. destruct (splitOn_not_nil sep t Ht).
  - destruct (splitOn sep t); discriminate.
Qed.

(** A name starts as its first piece does. *)
Lemma splitOn_starts (sep : ascii) (s h : string) (r : list string) :
  splitOn sep s = h :: r -> startsAlnum h = true -> startsAlnum s = true.
Proof.
  destruct s as [| c t]; cbn [splitOn].
  - intros H. inversion H. subst. discriminate.
  - destruct (Ascii.eqb c sep).
    + intros H. inversion H. subst. discriminate.
    + destruct (splitOn sep t); intros H; inversion H; subst; auto.
Qed.

(** A name ends as its last piece does, the separator being no letter or
    digit. *)
Lemma splitOn_ends (sep : ascii) (s : string) :
  is_lower_alnum sep = false ->
  endsAlnum (last (splitOn sep s) EmptyString) = endsAlnum s.
Proof.
  intros Hsep. induction s as [| c t IH]; [reflexivity |].
  cbn [splitOn]. destruct (Ascii.eqb_spec c sep) as [-> | Hne].
  - pose proof (splitOn_not_nil sep t) as Hnn.
    destruct (splitOn sep t) as [| h r] eqn:Hsplit; [congruence |].
    change (last (EmptyString :: h :: r) EmptyString)
      with (last (h :: r) EmptyString).
    rewrite IH. destruct t as [| d t']; [simpl; rewrite Hsep; reflexivity |].
    reflexivity.
  - destruct (splitOn sep t) as [| h r] eqn:Hsplit.
    + destruct (splitOn_not_nil sep t Hsplit).
    + destruct r as [| h' r'].
      * cbn [last] in *.
        destruct h as [| x h0].
        -- rewrite (splitOn_single_empty sep t Hsplit). reflexivity.
        -- destruct t as [| d t']; [discriminate Hsplit |].
           change (endsAlnum (String c (String x h0)))
             with (endsAlnum (String x h0)).
           change (endsAlnum (String c (String d t')))
             with (endsAlnum (String d t')).
           exact IH.
      * change (last (String c h :: h' :: r') EmptyString)
          with (last (h' :: r') EmptyString).
        change (last (h :: h' :: r') EmptyString)
          with (last (h' :: r') EmptyString) in IH.
        rewrite IH.
        destruct t as [| d t']; [discriminate Hsplit |]. reflexivity.
Qed.

(** The characters of a name are those of its pieces and the separator. *)
Lemma splitOn_chars (f : ascii -> bool) (sep : ascii) (s : string) :
  forallb (allChars f) (splitOn sep s) = true ->
  allChars (fun c => f c || Ascii.eqb c sep) s = true.
Proof.
  induction s as [| c t IH]; [reflexivity |].
  cbn [splitOn allChars]. destruct (Ascii.eqb c sep) eqn:Hc.
  - cbn [forallb allChars andb]. intros H.
    rewrite orb_true_r. apply IH. exact H.
  - destruct (splitOn sep t) as [| h r] eqn:Hsplit.
    + destruct (splitOn_not_nil sep t Hsplit).
    + cbn [forallb allChars]. intros H.
      apply andb_true_iff in H. destruct H as [Hh Hr].
      apply andb_true_iff in Hh. destruct Hh as [Hfc Hh].
      rewrite Hfc. cbn [orb andb]. apply IH.
      cbn [forallb]. rewrite Hh, Hr. reflexivity.
Qed.

Lemma isLabel_parts (s : string) :
  isLabel s = true ->
  startsAlnum s = true /\ allChars is_label_char s = true /\ endsAlnum s = true.
Proof.
  unfold isLabel. intros H. apply andb_true_iff in H. destruct H as [H H3].
  apply andb_true_iff in H. tauto.
Qed.

Lemma forallb_last {A : Type} (f : A -> bool) (l : list A) (d : A) :
  l <> [] -> forallb f l = true -> f (last l d) = true.
Proof.
  intros Hne Hall. rewrite forallb_forall in Hall. apply Hall.
  destruct l as [| a l]; [congruence |].
  clear Hall Hne. revert a. induction l as [| b l IH]; intros a.
  - left. reflexivity.
  - right. apply (IH b).
Qed.

(** What the domain pattern gives: plain characters, and a name that is
    its own normal form. *)
Lemma DOMAIN_REGEX_plain (n : string) :
  DOMAIN_REGEX n = true ->
  allChars (fun c => is_label_char c || Ascii.eqb c ".") n = true
  /\ isLabel (tldOf n) = true
  /\ trim (Js.toLowerCase n) = n.
Proof.
  unfold DOMAIN_REGEX. cbv zeta. intros H. apply andb_true_iff in H.
  destruct H as [Hlen Hall].
  assert (Hchars : allChars (fun c => is_label_char c || Ascii.eqb c ".") n = true).
  { apply splitOn_chars. rewrite forallb_forall in *. intros x Hx.
    apply (isLabel_parts x (Hall x Hx)). }
  assert (Htld : isLabel (tldOf n) = true).
  { unfold tldOf. apply forallb_last; [apply splitOn_not_nil | exact Hall]. }
  split; [exact Hchars |]. split; [exact Htld |].
  rewrite (toLowerCase_plain n Hchars).
  apply trim_plain.
  - destruct (splitOn "." n) as [| h r] eqn:Hsplit.
    + destruct (splitOn_not_nil "." n Hsplit).
    + apply (splitOn_starts "." n h r Hsplit).
      cbn [forallb] in Hall. apply andb_true_iff in Hall.
      apply (isLabel_parts h). tauto.
  - rewrite <- (splitOn_ends "." n) by reflexivity.
    apply (isLabel_parts _ Htld).
Qed.

(** X9.  A domain accepted by [validateDomain] is the trimmed lower-case
    input, has 1 to 253 characters, all of them lower-case letters,
    digits, hyphens or dots, has at least two labels none of which is
    empty or has a hyphen at an end, so its TLD is never empty; and it
    is a fixed point: validating the result again returns it unchanged. *)
Theorem validateDomain_normal_form (d n : string) :
  validateDomain (JsString d) = Valid n ->
  n = trim (Js.toLowerCase d)
  /\ 1 <= String.length n <= 253
  /\ allChars (fun c => is_label_char c || Ascii.eqb c ".") n = true
  /\ 2 <= length (splitOn "." n)
  /\ forallb isLabel (splitOn "." n) = true
  /\ isLabel (tldOf n) = true
  /\ validateDomain (JsString n) = Valid n.
Proof.
  unfold validateDomain at 1. cbv zeta.
  destruct (Nat.eqb_spec (String.length (trim (Js.toLowerCase d))) 0) as [| Hne];
    [discriminate |].
  destruct (Nat.ltb_spec MAX_DOMAIN_LENGTH (String.length (trim (Js.toLowerCase d))))
    as [| Hmax]; [discriminate |].
  destruct (DOMAIN_REGEX (trim (Js.toLowerCase d))) eqn:Hre; [| discriminate].
  cbn [negb]. intros H. inversion H as [Hn]. rewrite Hn in *.
  destruct (DOMAIN_REGEX_plain n Hre) as (Hchars & Htld & Hfix).
  split; [reflexivity |]. unfold MAX_DOMAIN_LENGTH in Hmax.
  split; [lia |]. split; [exact Hchars |].
  unfold DOMAIN_REGEX in Hre. cbv zeta in Hre. apply andb_true_iff in Hre.
  destruct Hre as [Hlen Hall]. apply Nat.leb_le in Hlen.
  split; [exact Hlen |]. split; [exact Hall |]. split; [exact Htld |].
  unfold validateDomain. cbv zeta. rewrite Hfix.
  destruct (Nat.eqb_spec (String.length n) 0); [lia |].
  destruct (Nat.ltb_spec MAX_DOMAIN_LENGTH (String.length n));
    [unfold MAX_DOMAIN_LENGTH in *; lia |].
  unfold DOMAIN_REGEX. cbv zeta.
  rewrite Hall. rewrite (proj2 (Nat.leb_le _ _) Hlen). reflexivity.
Qed.

Lemma validateDomain_normal_form_witness :
  validateDomain (JsString "example.com") = Valid "example.com"
  /\ isLabel (tldOf "example.com") = true.
Proof.
  destruct (validateDomain_normal_form "  Example.COM " "example.com")
    as (_ & _ & _ & _ & _ & Htld & Hfix); [reflexivity |].
  split; assumption.
Defined.

(** A label before a dot is the first piece of the name. *)
Lemma splitOn_label_dot (k rest : string) :
  allChars is_label_char k = true ->
  splitOn "." (k +:+ String "." rest) = k :: splitOn "." rest.
Proof.
  induction k as [| c k IH]; [reflexivity |].
  cbn [allChars]. intros H. apply andb_true_iff in H. destruct H as [Hc Hk].
  change (String c k +:+ String "." rest) with (String c (k +:+ String "." rest)).
  cbn [splitOn]. rewrite (IH Hk).
  destruct (Ascii.eqb_spec c "."); [subst c; discriminate Hc | reflexivity].
Qed.

(** X10.  A keyword accepted by [validateKeyword] is one label of at most
    63 characters and validates to itself.  Joined by a dot to a TLD
    whose pieces are labels, it gives a domain that [validateDomain]
    accepts unchanged, as long as the whole has at most 253 characters:
    the domains that keyword search builds from such TLDs are valid
    domains. *)
Theorem search_domains_are_valid (k kw : string) :
  validateKeyword (JsString k) = Valid kw ->
  isLabel kw = true
  /\ String.length kw <= 63
  /\ validateKeyword (JsString kw) = Valid kw
  /\ (forall tld,
         forallb isLabel (splitOn "." (normalizeTld tld)) = true ->
         String.length (searchDomain kw tld) <= 253 ->
         validateDomain (JsString (searchDomain kw tld))
         = Valid (searchDomain kw tld)).
Proof.
  unfold validateKeyword at 1. cbv zeta.
  destruct (Nat.eqb_spec (String.length (trim (Js.toLowerCase k))) 0) as [| Hne];
    [discriminate |].
  destruct (Nat.ltb_spec 63 (String.length (trim (Js.toLowerCase k))))
    as [| Hmax]; [discriminate |].
  destruct (KEYWORD_REGEX (trim (Js.toLowerCase k))) eqn:Hre; [| discriminate].
  cbn [negb]. intros H. inversion H as [Hn]. rewrite Hn in *.
  unfold KEYWORD_REGEX in Hre.
  destruct (isLabel_parts kw Hre) as (Hs & Hc & He).
  split; [exact Hre |]. split; [exact Hmax |].
  assert (Hplain : allChars (fun c => is_label_char c || Ascii.eqb c ".") kw = true).
  { clear - Hc. induction kw as [| c t IH]; [reflexivity |].
    cbn [allChars] in *. apply andb_true_iff in Hc. destruct Hc as [H1 H2].
    rewrite H1, (IH H2). reflexivity. }
  split.
  - unfold validateKeyword. cbv zeta.
    rewrite (toLowerCase_plain kw Hplain), (trim_plain kw Hs He).
    destruct (Nat.eqb_spec (String.length kw) 0); [lia |].
    destruct (Nat.ltb_spec 63 (String.length kw)); [lia |].
    unfold KEYWORD_REGEX. rewrite Hre. reflexivity.
  - intros tld Htld Hlen.
    assert (Hdom : DOMAIN_REGEX (searchDomain kw tld) = true).
    { unfold DOMAIN_REGEX, searchDomain. cbv zeta.
      change ("." +:+ normalizeTld tld) with (String "." (normalizeTld tld)).
      rewrite (splitOn_label_dot kw (normalizeTld tld) Hc).
      cbn [forallb length]. rewrite Hre, Htld.
      pose proof (splitOn_not_nil "." (normalizeTld tld)) as Hnn.
      destruct (splitOn "." (normalizeTld tld)); [congruence | reflexivity]. }
    destruct (DOMAIN_REGEX_plain _ Hdom) as (_ & _ & Hfix).
    unfold validateDomain. cbv zeta. rewrite Hfix, Hdom.
    assert (Hpos : 1 <= String.length (searchDomain kw tld)).
    { unfold searchDomain. rewrite length_append. lia. }
    destruct (Nat.eqb_spec (String.length (searchDomain kw tld)) 0); [lia |].
    destruct (Nat.ltb_spec MAX_DOMAIN_LENGTH (String.length (searchDomain kw tld)));
      [unfold MAX_DOMAIN_LENGTH in *; lia |].
    reflexivity.
Qed.

Lemma search_domains_are_valid_witness :
  validateDomain (JsString (searchDomain "my-shop" ".CO.UK"))
  = Valid "my-shop.co.uk".
Proof.
  destruct (search_domains_are_valid " My-Shop " "my-shop")
    as (_ & _ & _ & Hdom); [reflexivity |].
  apply (Hdom ".CO.UK"); [reflexivity | vm_compute; lia].
Defined.

(** * The RDAP service *)

Example getRdapServer_ex :
  map (RdapService.getRdapServer RdapService.initial) ["COM"; "io"; "zz"; "constructor"]
  = [Some (RdapService.ServerUrl "https://rdap.verisign.com/com/v1");
     Some (RdapService.ServerUrl "https://rdap.nic.io");
     None;
     Some RdapService.ObjectConstructor].
Proof. reflexivity. Qed.

Lemma toLowerCase_idempotent (s : string) :
  Js.toLowerCase (Js.toLowerCase s) = Js.toLowerCase s.
Proof.
  induction s as [| c t IH]; [reflexivity |].
  cbn [Js.toLowerCase]. rewrite IH. f_equal.
  destruct c as [[] [] [] [] [] [] [] []]; reflexivity.
Qed.

(** The inner loop of [loadBootstrap]: the TLDs of one service, lowered,
    all map to its URL; other keys keep their entry. *)
Lemma bootstrap_service_lookup (tlds : list string) (v : string)
      (cache : gmap string string) (k : string) :
  fold_left (fun cache tld => <[Js.toLowerCase tld := v]> cache) tlds cache !! k
  = if in_dec String.string_dec k (map Js.toLowerCase tlds)
    then Some v else cache !! k.
Proof.
  revert cache. induction tlds as [| t rest IH]; intros cache; [reflexivity |].
  cbn [fold_left]. rewrite IH.
  destruct (in_dec String.string_dec k (map Js.toLowerCase rest)) as [Hin | Hnot];
    destruct (in_dec String.string_dec k (map Js.toLowerCase (t :: rest)))
      as [Hin' | Hnot']; try reflexivity.
  - exfalso. apply Hnot'. right. exact Hin.
  - destruct Hin' as [Heq | Hin']; [| contradiction].
    rewrite <- Heq. apply lookup_insert_eq.
  - apply lookup_insert_ne. intros Heq. apply Hnot'. left. exact Heq.
Qed.

(** Services that do not list a key, or have no URL, leave its entry. *)
Lemma parseServices_other (services : list (list string * list string))
      (cache : gmap string string) (k : string) :
  (forall service, In service services -> snd service <> [] ->
                   ~ In k (map Js.toLowerCase (fst service))) ->
  RdapService.parseServices services cache !! k = cache !! k.
Proof.
  unfold RdapService.parseServices.
  revert cache. induction services as [| [tlds urls] rest IH]; intros cache H;
    [reflexivity |].
  cbn [fold_left]. rewrite IH by (intros s Hs; apply H; right; exact Hs).
  destruct urls as [| url urls]; [reflexivity |]. cbn [snd fst].
  rewrite bootstrap_service_lookup.
  destruct (in_dec String.string_dec k (map Js.toLowerCase tlds)) as [Hin |];
    [| reflexivity].
  exfalso. apply (H (tlds, url :: urls)); [left; reflexivity | discriminate | exact Hin].
Qed.

(** X11.  After the bootstrap data is parsed, a TLD listed, in any
    letter case, by a service with a URL resolves to the first URL of the
    last such service, without one trailing slash, whatever the
    hard-coded table says; the question may be in any letter case too. *)
Theorem bootstrap_entry_wins
    (earlier later : list (list string * list string))
    (tlds urls : list string) (url listed asked : string)
    (cache : gmap string string) (loaded : bool) :
  In listed tlds ->
  Js.toLowerCase asked = Js.toLowerCase listed ->
  (forall service, In service later -> snd service <> [] ->
                   ~ In (Js.toLowerCase listed) (map Js.toLowerCase (fst service))) ->
  RdapService.getRdapServer
    (RdapService.mkState
       (RdapService.parseServices (earlier ++ (tlds, url :: urls) :: later) cache)
       loaded)
    asked
  = Some (RdapService.ServerUrl (RdapService.dropTrailingSlash url)).
Proof.
  intros Hin Hcase Hlater.
  unfold RdapService.getRdapServer. cbv zeta. cbn [RdapService.bootstrapCache].
  rewrite Hcase.
  assert (Hlookup :
            RdapService.parseServices (earlier ++ (tlds, url :: urls) :: later) cache
            !! Js.toLowerCase listed
            = Some (RdapService.dropTrailingSlash url)).
  { unfold RdapService.parseServices. rewrite fold_left_app. cbn [fold_left snd fst].
    fold (RdapService.parseServices earlier cache).
    match goal with
    | |- fold_left ?f later ?c !! _ = _ =>
        change (fold_left f later c) with (RdapService.parseServices later c)
    end.
    rewrite parseServices_other by exact Hlater.
    rewrite bootstrap_service_lookup.
    destruct (in_dec String.string_dec (Js.toLowerCase listed)
                     (map Js.toLowerCase tlds)) as [| Hnot]; [reflexivity |].
    exfalso. apply Hnot. apply in_map. exact Hin. }
  rewrite Hlookup. reflexivity.
Qed.

Lemma bootstrap_entry_wins_witness :
  RdapService.getRdapServer
    (RdapService.mkState
       (RdapService.parseServices
          ([(["net"], ["https://a.example/"])]
             ++ (["COM"; "Net"], ["https://b.example/rdap/"; "https://c.example"])
             :: [(["com"], [])])
          ∅)
       true)
    "Com"
  = Some (RdapService.ServerUrl "https://b.example/rdap").
Proof.
  apply (bootstrap_entry_wins [(["net"], ["https://a.example/"])] [(["com"], [])]
           ["COM"; "Net"] ["https://c.example"] "https://b.example/rdap/"
           "COM" "Com" ∅ true).
  - simpl. auto.
  - reflexivity.
  - intros service [<- | []] Hne. simpl in Hne. congruence.
Defined.

Section RdapFacts.

Variable fetchBootstrap :
  RequestLog -> RdapService.JsonOutcome (list (list string * list string)).
Variable fetchDomain :
  RequestLog -> string -> RdapService.JsonOutcome RdapService.RdapDomainResponse.

(** [loadBootstrap] issues at most the one bootstrap request, none when
    the data is loaded, and never unloads. *)
Lemma loadBootstrap_log (st : RdapService.State) (log : RequestLog) :
  (RdapService.bootstrapLoaded st = true ->
   RdapService.loadBootstrap fetchBootstrap st log = (st, log))
  /\ (snd (RdapService.loadBootstrap fetchBootstrap st log) = log
      \/ snd (RdapService.loadBootstrap fetchBootstrap st log)
         = log ++ [RdapService.bootstrapUrl]).
Proof.
  unfold RdapService.loadBootstrap.
  destruct (RdapService.bootstrapLoaded st); [auto |].
  split; [discriminate |]. right.
  destruct (fetchBootstrap log) as [msg | code [msg | services]];
    try reflexivity.
  destruct (RdapService.responseOk code); reflexivity.
Qed.

(** X12.  Every answer of [checkDomain] is of exactly one kind: available
    (only after the registry answered 404 to the domain request),
    registered, or failed with an error message; it carries the trimmed
    lower-case domain; and the status that the lookup tools derive from
    it is available, taken or unknown accordingly. *)
Theorem checkDomain_outcome (domain : string) (st : RdapService.State)
        (log : RequestLog) :
  let r := fst (RdapService.checkDomain fetchBootstrap fetchDomain domain st log) in
  let log' := snd (snd (RdapService.checkDomain fetchBootstrap fetchDomain domain st log)) in
  RdapService.domain r = trim (Js.toLowerCase domain)
  /\ ((RdapService.available r = true /\ RdapService.registered r = false
       /\ RdapService.error r = None
       /\ rdapStatus (RdapService.serverView r) = available
       /\ exists before url json,
           log' = before ++ [url]
           /\ fetchDomain before url = RdapService.JsonResolved 404 json)
      \/ (RdapService.available r = false /\ RdapService.registered r = true
          /\ RdapService.error r = None
          /\ rdapStatus (RdapService.serverView r) = taken)
      \/ (RdapService.available r = false /\ RdapService.registered r = false
          /\ RdapService.error r <> None
          /\ rdapStatus (RdapService.serverView r) = unknown)).
Proof.
  unfold RdapService.checkDomain. cbv zeta.
  destruct (if RdapService.bootstrapLoaded st then (st, log)
            else RdapService.loadBootstrap fetchBootstrap st log) as [st1 log1].
  destruct (RdapService.serverTruthy
              (RdapService.getRdapServer st1
                 (tldOf (trim (Js.toLowerCase domain))))).
  - cbn [negb fst snd].
    match goal with
    | |- context [fetchDomain log1 ?u] =>
        set (url := u); destruct (fetchDomain log1 url) as [msg | code json] eqn:Hf
    end.
    + split; [reflexivity |]. right. right.
      repeat split; try reflexivity. discriminate.
    + destruct (Z.eqb_spec code 404) as [-> | Hne].
      * split; [reflexivity |]. left.
        repeat split; try reflexivity.
        exists log1, url, json. split; [reflexivity | exact Hf].
      * destruct (RdapService.responseOk code).
        -- destruct json as [msg | data].
           ++ split; [reflexivity |]. right. right.
              repeat split; try reflexivity. discriminate.
           ++ split; [reflexivity |]. right. left.
              repeat split; reflexivity.
        -- split; [reflexivity |]. right. right.
           repeat split; try reflexivity. discriminate.
  - cbn [negb fst snd]. split; [reflexivity |]. right. right.
    repeat split; try reflexivity. discriminate.
Qed.

(** One call of [checkDomain]: the requests and the state it leaves. *)
Lemma checkDomain_step (domain : string) (st : RdapService.State)
      (log : RequestLog) :
  let out := RdapService.checkDomain fetchBootstrap fetchDomain domain st log in
  (exists new, snd (snd out) = log ++ new
               /\ length new <= 2
               /\ (RdapService.bootstrapLoaded st = true -> length new <= 1)
               /\ (RdapService.serverTruthy
                     (RdapService.getRdapServer (fst (snd out))
                        (tldOf (trim (Js.toLowerCase domain)))) = false ->
                   Forall (eq RdapService.bootstrapUrl) new))
  /\ (RdapService.bootstrapLoaded st = true -> fst (snd out) = st).
Proof.
  unfold RdapService.checkDomain. cbv zeta.
  destruct (loadBootstrap_log st log) as [Hloaded Hlog].
  assert (Hpre : exists new1,
             snd (if RdapService.bootstrapLoaded st then (st, log)
                  else RdapService.loadBootstrap fetchBootstrap st log)
             = log ++ new1
             /\ length new1 <= 1
             /\ Forall (eq RdapService.bootstrapUrl) new1
             /\ (RdapService.bootstrapLoaded st = true ->
                 new1 = []
                 /\ fst (if RdapService.bootstrapLoaded st then (st, log)
                         else RdapService.loadBootstrap fetchBootstrap st log) = st)).
  { destruct (RdapService.bootstrapLoaded st).
    - exists []. rewrite app_nil_r. simpl. repeat split; auto.
    - destruct Hlog as [-> | ->].
      + exists []. rewrite app_nil_r. simpl. repeat split; auto; discriminate.
      + exists [RdapService.bootstrapUrl]. simpl.
        repeat split; auto; discriminate. }
  destruct (if RdapService.bootstrapLoaded st then (st, log)
            else RdapService.loadBootstrap fetchBootstrap st log) as [st1 log1].
  destruct Hpre as (new1 & Hnew1 & Hlen1 & Hall1 & Hkeep).
  cbn [fst snd] in *. subst log1.
  destruct (RdapService.serverTruthy
              (RdapService.getRdapServer st1
                 (tldOf (trim (Js.toLowerCase domain))))) eqn:Hserver;
    cbn [negb fst snd].
  - split.
    + eexists (new1 ++ [_]). rewrite app_assoc. split; [reflexivity |].
      rewrite length_app. simpl. split; [lia |]. split.
      * intros Hl. destruct (Hkeep Hl) as [-> _]. simpl. lia.
      * rewrite Hserver. discriminate.
    + intros Hl. apply Hkeep. exact Hl.
  - split.
    + exists new1. split; [reflexivity |]. split; [lia |]. split.
      * intros Hl. lia.
      * intros _. exact Hall1.
    + intros Hl. apply Hkeep. exact Hl.
Qed.

(** X13.  [checkDomain] issues at most two requests, the bootstrap
    request and the domain request; once the bootstrap data is loaded it
    issues at most the domain request and leaves the service state as it
    is; and for a TLD without a server it issues no domain request. *)
Theorem checkDomain_requests (domain : string) (st : RdapService.State)
        (log : RequestLog) :
  exists new,
    snd (snd (RdapService.checkDomain fetchBootstrap fetchDomain domain st log))
    = log ++ new
    /\ length new <= 2
    /\ (RdapService.bootstrapLoaded st = true ->
        length new <= 1
        /\ fst (snd (RdapService.checkDomain fetchBootstrap fetchDomain domain st log))
           = st)
    /\ (RdapService.serverTruthy
          (RdapService.getRdapServer
             (fst (snd (RdapService.checkDomain fetchBootstrap fetchDomain domain st log)))
             (tldOf (trim (Js.toLowerCase domain)))) = false ->
        Forall (eq RdapService.bootstrapUrl) new).
Proof.
  destruct (checkDomain_step domain st log) as [(new & Hnew & Hlen & Hone & Hnone) Hst].
  exists new. split; [exact Hnew |]. split; [exact Hlen |]. split.
  - intros Hl. split; [apply Hone; exact Hl | apply Hst; exact Hl].
  - exact Hnone.
Qed.

End RdapFacts.

Lemma checkDomain_requests_witness :
  exists new,
    snd (snd (RdapService.checkDomain
                (fun _ => RdapService.JsonRejected "offline")
                (fun _ _ => RdapService.JsonResolved 404 (inl "no body"))
                "Example.ZZ" (RdapService.mkState ∅ true) []))
    = [] ++ new
    /\ length new <= 1.
Proof.
  destruct (checkDomain_requests
              (fun _ => RdapService.JsonRejected "offline")
              (fun _ _ => RdapService.JsonResolved 404 (inl "no body"))
              "Example.ZZ" (RdapService.mkState ∅ true) [])
    as (new & Hnew & _ & Hloaded & _).
  exists new. split; [exact Hnew |].
  apply Hloaded. reflexivity.
Defined.

Section RdapBulkFacts.

Variable fetchBootstrap :
  RequestLog -> RdapService.JsonOutcome (list (list string * list string)).
Variable fetchDomain :
  RequestLog -> string -> RdapService.JsonOutcome RdapService.RdapDomainResponse.

Lemma checkEach_spec (domains : list string)
      (results : gmap string RdapService.RdapResult)
      (st : RdapService.State) (log : RequestLog) :
  let out := RdapService.checkEach fetchBootstrap fetchDomain domains results st log in
  dom (fst out) = dom results ∪ list_to_set domains
  /\ length (snd (snd out)) <= length log + 2 * length domains
  /\ (RdapService.bootstrapLoaded st = true ->
      length (snd (snd out)) <= length log + length domains
      /\ fst (snd out) = st).
Proof.
  revert results st log.
  induction domains as [| d rest IH]; intros results st log; cbn [RdapService.checkEach].
  - cbv zeta. cbn [fst snd length list_to_set]. split; [set_solver |].
    split; [lia |]. intros _. split; [lia | reflexivity].
  - destruct (checkDomain_step fetchBootstrap fetchDomain d st log)
      as [(new & Hnew & Hlen & Hone & _) Hst].
    destruct (RdapService.checkDomain fetchBootstrap fetchDomain d st log)
      as [r [st1 log1]].
    cbn [fst snd] in *. subst log1.
    destruct (IH (<[d := r]> results) st1 (log ++ new)) as (Hdom & Hcount & Hloaded).
    cbv zeta in *. split; [| split].
    + rewrite Hdom, dom_insert_L. cbn [list_to_set]. set_solver.
    + rewrite length_app in Hcount. cbn [length]. lia.
    + intros Hl. rewrite (Hst Hl) in *.
      destruct (Hloaded Hl) as [Hc Hs]. split; [| exact Hs].
      rewrite length_app in Hc. specialize (Hone Hl). cbn [length]. lia.
Qed.

Lemma checkBulk_spec (domains : list string) (st : RdapService.State)
      (log : RequestLog) :
  let out := RdapService.checkBulk fetchBootstrap fetchDomain domains st log in
  (forall domain, is_Some (fst out !! domain) <-> In domain domains)
  /\ length (snd (snd out)) <= length log + 1 + 2 * length domains
  /\ (RdapService.bootstrapLoaded st = true ->
      length (snd (snd out)) <= length log + length domains
      /\ fst (snd out) = st).
Proof.
  unfold RdapService.checkBulk. cbv zeta.
  destruct (loadBootstrap_log fetchBootstrap st log) as [_ Hlog].
  destruct (RdapService.bootstrapLoaded st) eqn:Hl.
  - destruct (checkEach_spec domains ∅ st log) as (Hdom & Hcount & Hloaded).
    cbv zeta in *. split; [| split].
    + intros domain. rewrite <- elem_of_dom, Hdom, dom_empty_L.
      rewrite <- list_elem_of_In. set_solver.
    + lia.
    + intros _. apply Hloaded. exact Hl.
  - destruct (RdapService.loadBootstrap fetchBootstrap st log) as [st1 log1].
    cbn [snd] in Hlog.
    destruct (checkEach_spec domains ∅ st1 log1) as (Hdom & Hcount & _).
    cbv zeta in *. split; [| split].
    + intros domain. rewrite <- elem_of_dom, Hdom, dom_empty_L.
      rewrite <- list_elem_of_In. set_solver.
    + destruct Hlog as [-> | ->]; [lia |].
      rewrite length_app in Hcount. cbn [length] in Hcount. lia.
    + discriminate.
Qed.

(** X14.  [checkBulk] returns a map whose keys are exactly the input
    domains.  It issues at most one bootstrap request and two requests
    for each domain; when the bootstrap data is already loaded, at most
    one request for each domain, and the service state is unchanged. *)
Theorem checkBulk_covers_input (domains : list string) (st : RdapService.State)
        (log : RequestLog) :
  let out := RdapService.checkBulk fetchBootstrap fetchDomain domains st log in
  (forall domain, is_Some (fst out !! domain) <-> In domain domains)
  /\ length (snd (snd out)) <= length log + 1 + 2 * length domains
  /\ (RdapService.bootstrapLoaded st = true ->
      length (snd (snd out)) <= length log + length domains
      /\ fst (snd out) = st).
Proof. apply checkBulk_spec. Qed.

End RdapBulkFacts.

Lemma checkBulk_covers_input_witness :
  length (snd (snd (RdapService.checkBulk
                      (fun _ => RdapService.JsonRejected "offline")
                      (fun _ _ => RdapService.JsonResolved 404 (inl "no body"))
                      ["a.com"; "b.zz"] (RdapService.mkState ∅ true) [])))
  <= 0 + 2.
Proof.
  destruct (checkBulk_covers_input
              (fun _ => RdapService.JsonRejected "offline")
              (fun _ _ => RdapService.JsonResolved 404 (inl "no body"))
              ["a.com"; "b.zz"] (RdapService.mkState ∅ true) [])
    as (_ & _ & Hloaded).
  apply Hloaded. reflexivity.
Defined.

Lemma find_app_either {A : Type} (f : A -> bool) (l1 l2 : list A) :
  find f (l1 ++ l2)
  = match find f l1 with Some x => Some x | None => find f l2 end.
Proof.
  induction l1 as [| x l1 IH]; [reflexivity |].
  cbn [app find]. destruct (f x); [reflexivity | exact IH].
Qed.

(** The loop over the public ids of one entity keeps the last IANA id. *)
Lemma registrar_ids_last (ids : list (string * string)) (acc : option string) :
  fold_left
    (fun (acc : option string) (id : string * string) =>
       if String.eqb (fst id) "IANA Registrar ID"
       then Some ("IANA ID: " +:+ snd id) else acc) ids acc
  = match find (fun id => String.eqb (fst id) "IANA Registrar ID") (rev ids) with
    | Some id => Some ("IANA ID: " +:+ snd id)
    | None => acc
    end.
Proof.
  revert acc. induction ids as [| id ids IH] using rev_ind; intros acc;
    [reflexivity |].
  rewrite fold_left_app, rev_app_distr. cbn [fold_left rev app find].
  destruct (String.eqb (fst id) "IANA Registrar ID"); [reflexivity | apply IH].
Qed.

(** X15.  [parseRdapResponse] always reports registered and not
    available, without error; when an action occurs in several events the
    date of the last one is kept, and the registrar is taken from the
    last IANA registrar id of the entities that have the registrar
    role. *)
Theorem parseRdapResponse_last_wins (domain : string)
        (data : RdapService.RdapDomainResponse) :
  let r := RdapService.parseRdapResponse domain data in
  let evs := match RdapService.events data with Some l => l | None => [] end in
  let ids :=
    flat_map
      (fun entity =>
         if match RdapService.roles entity with
            | Some rs => existsb (String.eqb "registrar") rs
            | None => false
            end
         then match RdapService.publicIds entity with Some l => l | None => [] end
         else [])
      (match RdapService.entities data with Some l => l | None => [] end) in
  RdapService.available r = false
  /\ RdapService.registered r = true
  /\ RdapService.error r = None
  /\ RdapService.domain r = domain
  /\ RdapService.createdDate r
     = option_map snd
         (find (fun e => String.eqb (fst e) "registration") (rev evs))
  /\ RdapService.expirationDate r
     = option_map snd
         (find (fun e => String.eqb (fst e) "expiration") (rev evs))
  /\ RdapService.registrar r
     = option_map (fun id => "IANA ID: " +:+ snd id)
         (find (fun id => String.eqb (fst id) "IANA Registrar ID") (rev ids)).
Proof.
  cbv zeta. unfold RdapService.parseRdapResponse. cbv zeta.
  cbn [RdapService.available RdapService.registered RdapService.error
       RdapService.domain RdapService.createdDate RdapService.expirationDate
       RdapService.registrar].
  repeat split.
  - generalize (match RdapService.events data with Some l => l | None => [] end)
      as evs.
    intros evs. induction evs as [| e evs IH] using rev_ind; [reflexivity |].
    rewrite fold_left_app, rev_app_distr. cbn [fold_left rev app find].
    destruct (String.eqb_spec (fst e) "registration") as [He | He];
      [reflexivity |].
    destruct (String.eqb (fst e) "expiration"); exact IH.
  - generalize (match RdapService.events data with Some l => l | None => [] end)
      as evs.
    intros evs. induction evs as [| e evs IH] using rev_ind; [reflexivity |].
    rewrite fold_left_app, rev_app_distr. cbn [fold_left rev app find].
    destruct (String.eqb_spec (fst e) "registration") as [He | He].
    + rewrite He. cbn [String.eqb]. exact IH.
    + destruct (String.eqb (fst e) "expiration"); [reflexivity | exact IH].
  - generalize (match RdapService.entities data with Some l => l | None => [] end)
      as ents.
    intros ents. induction ents as [| ent ents IH] using rev_ind; [reflexivity |].
    rewrite fold_left_app, flat_map_app, rev_app_distr.
    cbn [fold_left flat_map]. rewrite app_nil_r.
    destruct (match RdapService.roles ent with
              | Some rs => existsb (String.eqb "registrar") rs
              | None => false
              end).
    + rewrite registrar_ids_last, IH, find_app_either.
      destruct (find _ (rev (match RdapService.publicIds ent with
                             | Some l => l | None => [] end)));
        reflexivity.
    + cbn [rev app]. exact IH.
Qed.

(** * The providers and the tool handlers *)

Lemma truthy_Some (s : option string) (x : string) :
  truthy s = Some x -> s = Some x /\ (0 <? String.length x)%nat = true.
Proof.
  destruct s as [[| c t] |]; simpl; intros H; inversion H; subst.
  split; reflexivity.
Qed.

(** The pricing provider that the constructor registers. *)
Lemma initializeProviders_pricing (env : Env) (config : ServerConfig) :
  Providers.getPricingProviders (initializeProviders env config Providers.empty)
  = [match truthy (tldListApiKey config) with
     | Some key => Providers.TldListProvider key
     | None => Providers.PorkbunProvider
     end].
Proof.
  unfold initializeProviders.
  destruct (tldListApiKey config) as [[| c key] |]; simpl;
    destruct (namecheap config) as [nc |]; try reflexivity;
    unfold Providers.registerAftermarketProvider;
    destruct (negb _); reflexivity.
Qed.

(** The aftermarket providers that the constructor registers. *)
Lemma initializeProviders_aftermarket (env : Env) (config : ServerConfig) :
  Providers.getAftermarketProviders (initializeProviders env config Providers.empty)
  = match namecheap config with
    | Some nc =>
        match truthy (orElse (auctionsToken nc) (env "NAMECHEAP_AUCTIONS_TOKEN")) with
        | Some token => [Providers.NamecheapAuctionsProvider token]
        | None => []
        end
    | None => []
    end.
Proof.
  unfold initializeProviders.
  assert (Hp : forall r,
             Providers.getAftermarketProviders
               (match truthy (tldListApiKey config) with
                | Some _ =>
                    Providers.registerPricingProvider
                      (newTldListProvider (tldListApiKey config)) r
                | None =>
                    Providers.registerPricingProvider Providers.PorkbunProvider r
                end)
             = Providers.getAftermarketProviders r).
  { intros r. destruct (truthy (tldListApiKey config));
      unfold Providers.registerPricingProvider;
      destruct (negb _); reflexivity. }
  destruct (namecheap config) as [nc |]; [| rewrite Hp; reflexivity].
  unfold Providers.registerAftermarketProvider, newNamecheapAuctionsProvider, orEmpty.
  destruct (truthy (orElse (auctionsToken nc) (env "NAMECHEAP_AUCTIONS_TOKEN")))
    as [token |] eqn:Htoken.
  - destruct (truthy_Some _ _ Htoken) as [_ Hlen].
    cbn [Providers.isConfigured Providers.aftermarketProvider].
    rewrite Hlen. cbn [negb].
    unfold Providers.getAftermarketProviders at 1. cbn [Providers.aftermarketProviders].
    pose proof (Hp Providers.empty) as He.
    unfold Providers.getAftermarketProviders in He.
    cbn [Providers.aftermarketProviders Providers.empty] in He.
    destruct (Providers.aftermarketProviders _) as [| e rest]; [| discriminate].
    reflexivity.
  - cbn [Providers.isConfigured Providers.aftermarketProvider String.length Nat.ltb Nat.leb negb].
    rewrite Hp. reflexivity.
Qed.

(** X16.  After the constructor the registry holds exactly one pricing
    provider, TLD-List when an API key is configured and Porkbun
    otherwise, and at most one aftermarket provider, which is
    configured; for a server configured from the environment the
    aftermarket provider is there exactly when NAMECHEAP_AUCTIONS_TOKEN
    is a non-empty string, whatever the legacy credentials. *)
Theorem providers_after_setup (env : Env) (config : ServerConfig) :
  Providers.getPricingProviders (initializeProviders env config Providers.empty)
  = [match truthy (tldListApiKey config) with
     | Some key => Providers.TldListProvider key
     | None => Providers.PorkbunProvider
     end]
  /\ length (Providers.getAftermarketProviders
               (initializeProviders env config Providers.empty)) <= 1
  /\ Forall (fun p => Providers.isConfigured p = true)
            (Providers.getAftermarketProviders
               (initializeProviders env config Providers.empty))
  /\ Providers.getAftermarketProviders
       (initializeProviders env (createConfigFromEnv env) Providers.empty)
     = match truthy (env "NAMECHEAP_AUCTIONS_TOKEN") with
       | Some token => [Providers.NamecheapAuctionsProvider token]
       | None => []
       end.
Proof.
  split; [apply initializeProviders_pricing |].
  rewrite !initializeProviders_aftermarket.
  split; [| split].
  - destruct (namecheap config) as [nc |]; [| simpl; lia].
    destruct (truthy _); simpl; lia.
  - destruct (namecheap config) as [nc |]; [| constructor].
    destruct (truthy _) as [token |] eqn:Htoken; [| constructor].
    constructor; [| constructor].
    apply truthy_Some in Htoken. apply Htoken.
  - unfold createConfigFromEnv. cbv zeta.
    destruct (env "NAMECHEAP_AUCTIONS_TOKEN") as [[| c token] |] eqn:Ht;
      cbn [truthy orb];
      try reflexivity;
      destruct (truthy (andAlso _ _)); cbn [namecheap auctionsToken orElse truthy];
      rewrite ?Ht; reflexivity.
Qed.

Section BulkValues.

Context {State : Type}.
Variable probe : string -> State -> HttpVerificationResult * State.
Variable P : HttpVerificationResult -> Prop.
Hypothesis Hprobe : forall domain st, P (fst (probe domain st)).

Lemma verifyChunk_values (chunk : list string) (st : State) :
  Forall (fun e => P (snd e)) (fst (verifyChunk probe chunk st)).
Proof.
  revert st. induction chunk as [| domain rest IH]; intros st; simpl.
  - constructor.
  - pose proof (Hprobe domain st) as H1.
    destruct (probe domain st) as [result st1].
    specialize (IH st1).
    destruct (verifyChunk probe rest st1) as [others st2].
    simpl in *. constructor; assumption.
Qed.

Lemma setAll_values (results : gmap string HttpVerificationResult)
      (chunkResults : list (string * HttpVerificationResult)) :
  (forall k v, results !! k = Some v -> P v) ->
  Forall (fun e => P (snd e)) chunkResults ->
  forall k v, setAll results chunkResults !! k = Some v -> P v.
Proof.
  unfold setAll. revert results.
  induction chunkResults as [| [d r] rest IH]; intros results Hres Hall; simpl.
  - exact Hres.
  - inversion Hall; subst. apply IH; [| assumption].
    intros k v. destruct (decide (d = k)) as [-> | Hne].
    + rewrite lookup_insert_eq. intros H. inversion H; subst. assumption.
    + rewrite lookup_insert_ne by exact Hne. apply Hres.
Qed.

(** Every value of the map of bulk verification is a result of the probe. *)
Lemma verifyBulkWith_values (domains : list string) (st : State)
      (k : string) (v : HttpVerificationResult) :
  fst (verifyBulkWith probe domains st) !! k = Some v -> P v.
Proof.
  unfold verifyBulkWith.
  assert (Hgen : forall chunks (acc : gmap string HttpVerificationResult * State),
             (forall k v, fst acc !! k = Some v -> P v) ->
             forall k v,
               fst (fold_left
                      (fun (acc : gmap string HttpVerificationResult * State) chunk =>
                         let (chunkResults, st') := verifyChunk probe chunk (snd acc) in
                         (setAll (fst acc) chunkResults, st'))
                      chunks acc) !! k = Some v -> P v).
  { induction chunks as [| chunk rest IH]; intros acc Hacc; simpl.
    - exact Hacc.
    - apply IH.
      pose proof (verifyChunk_values chunk (snd acc)) as Hv.
      destruct (verifyChunk probe chunk (snd acc)) as [chunkResults st'].
      simpl in *. apply setAll_values; assumption. }
  apply Hgen. simpl. intros k' v'. rewrite lookup_empty. discriminate.
Qed.

End BulkValues.

Lemma probeStatus_not_available (s : DomainStatus) :
  probeStatus s -> DomainStatus_eqb s available = false.
Proof. intros [-> | [-> | [-> | ->]]]; reflexivity. Qed.

Section HandlerFacts.

Variable fetchIPv4 : RequestLog -> string -> FetchOutcome.
Variable newURL : string -> string -> option URL.
Variable fetchBootstrap :
  RequestLog -> RdapService.JsonOutcome (list (list string * list string)).
Variable fetchDomain :
  RequestLog -> string -> RdapService.JsonOutcome RdapService.RdapDomainResponse.
Variable env : Env.
Variable config : ServerConfig.

(** With the one pricing provider registered, step 2 of
    [handleCheckDomain] never asks the Namecheap service. *)
Lemma checkDomainPricing_skip (namecheapCheckDomain : string -> NamecheapAnswer)
      (normalizedDomain : string) (result : DomainCheckResult) :
  checkDomainPricing env config namecheapCheckDomain normalizedDomain result
  = result.
Proof.
  unfold checkDomainPricing, providerRegistry.
  rewrite initializeProviders_pricing. reflexivity.
Qed.

Lemma checkDomainRdap_status (rdapResult : RdapService.RdapResult)
      (normalizedDomain : string) :
  (checkedStatus (checkDomainRdap rdapResult normalizedDomain) = available
   \/ checkedStatus (checkDomainRdap rdapResult normalizedDomain) = taken
   \/ checkedStatus (checkDomainRdap rdapResult normalizedDomain) = unknown)
  /\ checkedMethod (checkDomainRdap rdapResult normalizedDomain) = "rdap".
Proof.
  unfold checkDomainRdap.
  destruct (RdapService.available rdapResult);
    [| destruct (RdapService.registered rdapResult)]; simpl; auto.
Qed.

Lemma checkDomainHttp_status (verify_http : bool)
      (rdapResult : RdapService.RdapResult) (normalizedDomain : string)
      (result : DomainCheckResult) (log : RequestLog) :
  checkedStatus result <> premium ->
  checkedMethod result = "rdap" ->
  checkedStatus
    (fst (checkDomainHttp fetchIPv4 newURL config verify_http rdapResult
            normalizedDomain result log)) <> premium
  /\ (checkedMethod
        (fst (checkDomainHttp fetchIPv4 newURL config verify_http rdapResult
                normalizedDomain result log)) = "rdap"
      \/ checkedMethod
           (fst (checkDomainHttp fetchIPv4 newURL config verify_http rdapResult
                   normalizedDomain result log)) = "http_check").
Proof.
  intros Hs Hm. unfold checkDomainHttp.
  destruct (verify_http && enableHttpVerification config); [| simpl; auto].
  destruct (verifyDomain fetchIPv4 newURL normalizedDomain log) as [h log1].
  destruct (checkedStatus result) eqn:Hr; try congruence;
    destruct (status h) eqn:Hh;
    destruct (RdapService.registered rdapResult);
    simpl; rewrite ?Hr; split; auto; discriminate.
Qed.

(** X17.  [handleCheckDomain] never asks the Namecheap service: what it
    returns does not depend on that service, its status is never premium
    and its verification method is rdap or http_check, never
    registrar_api. *)
Theorem check_domain_ignores_namecheap
        (namecheap1 namecheap2 : string -> NamecheapAnswer)
        (domain : JsValue) (verify_http : bool)
        (st : RdapService.State) (log : RequestLog) :
  handleCheckDomain fetchIPv4 newURL fetchBootstrap fetchDomain env config
                    namecheap1 domain verify_http st log
  = handleCheckDomain fetchIPv4 newURL fetchBootstrap fetchDomain env config
                      namecheap2 domain verify_http st log
  /\ forall result,
      fst (handleCheckDomain fetchIPv4 newURL fetchBootstrap fetchDomain env
                             config namecheap1 domain verify_http st log)
      = ToolOk result ->
      checkedStatus result <> premium
      /\ (checkedMethod result = "rdap" \/ checkedMethod result = "http_check").
Proof.
  unfold handleCheckDomain.
  destruct (validateDomain domain) as [normalizedDomain | message];
    [| split; [reflexivity | discriminate]].
  destruct (RdapService.checkDomain fetchBootstrap fetchDomain normalizedDomain st log)
    as [rdapResult [st1 log1]].
  rewrite !checkDomainPricing_skip.
  split; [reflexivity |].
  destruct (checkDomainRdap_status rdapResult normalizedDomain) as [Hs Hm].
  pose proof (checkDomainHttp_status verify_http rdapResult normalizedDomain
                (checkDomainRdap rdapResult normalizedDomain) log1) as Hh.
  destruct (checkDomainHttp fetchIPv4 newURL config verify_http rdapResult
              normalizedDomain (checkDomainRdap rdapResult normalizedDomain) log1)
    as [result' log2].
  simpl. intros result H. inversion H; subst.
  apply Hh; [| exact Hm].
  destruct Hs as [-> | [-> | ->]]; discriminate.
Qed.

(** X18.  HTTP verification never turns a status into available: after
    the HTTP step of [handleLookupDomain], [handleCheckDomain] and
    [handleCheckBulk] a domain is reported available only if it was so
    before the step. *)
Theorem http_never_makes_available :
  (forall (L : Type) include_aftermarket include_parking enableHttp rdapResult
          (answers : list (option L)) domain log,
      availabilityStatus
        (handleLookupDomain include_aftermarket include_parking enableHttp
           rdapResult answers (fst (verifyDomain fetchIPv4 newURL domain log)))
      = available ->
      rdapStatus rdapResult = available)
  /\ (forall verify_http rdapResult normalizedDomain result log,
         checkedStatus
           (fst (checkDomainHttp fetchIPv4 newURL config verify_http rdapResult
                   normalizedDomain result log)) = available ->
         checkedStatus result = available)
  /\ (forall domains log result,
         checkedStatus
           (mergeHttp (fst (verifyBulk fetchIPv4 newURL domains log)) result)
         = available ->
         checkedStatus result = available).
Proof.
  split; [| split].
  - intros L ia ip en rdapResult answers domain log.
    pose proof (verifyDomain_status fetchIPv4 newURL domain log) as Hp.
    destruct (fst (verifyDomain fetchIPv4 newURL domain log)) as [s pd hs ru].
    simpl in Hp.
    unfold handleLookupDomain, httpStep, aftermarketStep.
    destruct (rdapStatus rdapResult) eqn:Hr; try reflexivity;
      destruct (ia && (0 <? length answers)%nat);
      try destruct (0 <? length (collectListings answers))%nat;
      destruct (ip && en);
      destruct Hp as [-> | [-> | [-> | ->]]]; simpl; try rewrite Hr; simpl;
      intros H; try discriminate H; try reflexivity.
  - intros verify_http rdapResult normalizedDomain result log.
    unfold checkDomainHttp.
    destruct (verify_http && enableHttpVerification config); [| simpl; auto].
    pose proof (verifyDomain_status fetchIPv4 newURL normalizedDomain log) as Hp.
    destruct (verifyDomain fetchIPv4 newURL normalizedDomain log) as [h log1].
    simpl in Hp.
    destruct (checkedStatus result) eqn:Hr; try reflexivity;
      destruct Hp as [Hp | [Hp | [Hp | Hp]]]; rewrite Hp; simpl;
      rewrite ?Hr; intros H; try discriminate H; try reflexivity.
  - intros domains log result. unfold mergeHttp.
    destruct (fst (verifyBulk fetchIPv4 newURL domains log) !! checkedDomain result)
      as [h |] eqn:Hl; [| auto].
    assert (Hp : probeStatus (status h)).
    { unfold verifyBulk in Hl.
      apply (verifyBulkWith_values (verifyDomain fetchIPv4 newURL)
               (fun r => probeStatus (status r))
               (verifyDomain_status fetchIPv4 newURL) _ _ _ _ Hl). }
    destruct Hp as [Hp | [Hp | [Hp | Hp]]]; rewrite Hp; simpl;
      intros H; try discriminate H; exact H.
Qed.

End HandlerFacts.

(** * [handleCheckBulk] *)

(** The validation loop: the errors are added in order, none exactly when
    every entry is valid; the valid entries are normalised in order. *)
Lemma validateEach_errors (domains : list JsValue) (i : nat)
      (normalizedDomains validationErrors : list string) :
  exists errors,
    snd (validateEach i domains normalizedDomains validationErrors)
    = validationErrors ++ errors
    /\ (errors = []
        <-> Forall (fun d => exists n, validateDomain d = Valid n) domains).
Proof.
  revert i normalizedDomains validationErrors.
  induction domains as [| d rest IH]; intros i ns es; cbn [validateEach].
  - exists []. rewrite app_nil_r. split; [reflexivity |]. split; auto.
  - destruct (validateDomain d) as [n | message] eqn:Hd.
    + destruct (IH (S i) (ns ++ [n]) es) as (errors & Herr & Hiff).
      exists errors. split; [exact Herr |]. rewrite Hiff. split.
      * intros H. constructor; [exists n; exact Hd | exact H].
      * intros H. inversion H; assumption.
    + destruct (IH (S i) ns
                  (es ++ ["domains[" +:+ showInteger (Z.of_nat i) +:+ "]: "
                          +:+ message]))
        as (errors & Herr & _).
      eexists (_ :: errors). rewrite Herr, <- app_assoc.
      split; [reflexivity |]. split; [discriminate |].
      intros H. inversion H as [| ? ? [n Hn] ?]; congruence.
Qed.

Lemma validateEach_valid (domains : list JsValue) (i : nat)
      (normalizedDomains validationErrors : list string) :
  Forall (fun d => exists n, validateDomain d = Valid n) domains ->
  exists normalized,
    fst (validateEach i domains normalizedDomains validationErrors)
    = normalizedDomains ++ normalized
    /\ Forall2 (fun d n => validateDomain d = Valid n) domains normalized.
Proof.
  revert i normalizedDomains validationErrors.
  induction domains as [| d rest IH]; intros i ns es Hall; cbn [validateEach].
  - exists []. rewrite app_nil_r. split; [reflexivity | constructor].
  - inversion Hall as [| ? ? [n Hn] Hrest]; subst. rewrite Hn.
    destruct (IH (S i) (ns ++ [n]) es Hrest) as (normalized & Hf & H2).
    exists (n :: normalized). rewrite Hf, <- app_assoc. simpl.
    split; [reflexivity |]. constructor; assumption.
Qed.

(** Every result has one of the six statuses. *)
Lemma countStatus_total (results : list DomainCheckResult) :
  countStatus available results + countStatus taken results
  + countStatus parked results + countStatus for_sale results
  + countStatus unknown results + countStatus premium results
  = length results.
Proof.
  unfold countStatus.
  induction results as [| r rest IH]; simpl; [reflexivity |].
  destruct (checkedStatus r); simpl; lia.
Qed.

Lemma countStatus_none (s : DomainStatus) (results : list DomainCheckResult) :
  Forall (fun r => checkedStatus r <> s) results -> countStatus s results = 0.
Proof.
  unfold countStatus. induction 1 as [| r rest Hr _ IH]; simpl; [reflexivity |].
  destruct (DomainStatus_eqb (checkedStatus r) s) eqn:He; [| exact IH].
  exfalso. apply Hr. destruct (checkedStatus r), s; simpl in He;
    try discriminate He; reflexivity.
Qed.

Lemma rdapEntry_fields (rdapResults : gmap string RdapService.RdapResult)
      (domain : string) :
  checkedDomain (rdapEntry rdapResults domain) = domain
  /\ checkedStatus (rdapEntry rdapResults domain) <> premium.
Proof.
  unfold rdapEntry.
  destruct (rdapResults !! domain) as [r |]; [| simpl; split; [reflexivity | discriminate]].
  destruct (RdapService.available r); [| destruct (RdapService.registered r)];
    simpl; split; try reflexivity; discriminate.
Qed.

Lemma mergeHttp_fields (httpResults : gmap string HttpVerificationResult)
      (result : DomainCheckResult) :
  checkedDomain (mergeHttp httpResults result) = checkedDomain result
  /\ (checkedStatus result <> premium ->
      checkedStatus (mergeHttp httpResults result) <> premium).
Proof.
  unfold mergeHttp.
  destruct (httpResults !! checkedDomain result) as [h |]; [| auto].
  destruct (status h) eqn:Hh; destruct (checkedStatus result) eqn:Hr; simpl;
    rewrite ?Hr; split; try reflexivity; intros; try discriminate; try assumption; congruence.
Qed.

Lemma bulk_input_decidable (domains : list JsValue) :
  (1 <= length domains <= 50
   /\ Forall (fun d => exists n, validateDomain d = Valid n) domains)
  \/ ~ (1 <= length domains <= 50
        /\ Forall (fun d => exists n, validateDomain d = Valid n) domains).
Proof.
  assert (Hall : Forall (fun d => exists n, validateDomain d = Valid n) domains
                 \/ ~ Forall (fun d => exists n, validateDomain d = Valid n) domains).
  { induction domains as [| d rest IH]; [left; constructor |].
    destruct (validateDomain d) as [n | message] eqn:Hd.
    - destruct IH as [IH | IH].
      + left. constructor; [exists n; exact Hd | exact IH].
      + right. intros H. inversion H; contradiction.
    - right. intros H. inversion H as [| ? ? [n Hn] ?]. congruence. }
  destruct Hall as [Hall | Hall]; [| right; tauto].
  destruct (le_lt_dec 1 (length domains)); [| right; lia].
  destruct (le_lt_dec (length domains) 50); [left; auto | right; lia].
Qed.

Section BulkHandlerFacts.

Variable fetchIPv4 : RequestLog -> string -> FetchOutcome.
Variable newURL : string -> string -> option URL.
Variable fetchBootstrap :
  RequestLog -> RdapService.JsonOutcome (list (list string * list string)).
Variable fetchDomain :
  RequestLog -> string -> RdapService.JsonOutcome RdapService.RdapDomainResponse.
Variable config : ServerConfig.
Variable namecheapCheckBulk : list string -> option (list DomainCheckResult).

(** [handleCheckBulk] once its input passed validation. *)
Lemma handleCheckBulk_run (domains : list JsValue) (verify_http : bool)
      (st : RdapService.State) (log : RequestLog) :
  1 <= length domains <= 50 ->
  Forall (fun d => exists n, validateDomain d = Valid n) domains ->
  exists normalized initial httpResults st' log',
    Forall2 (fun d n => validateDomain d = Valid n) domains normalized
    /\ (hasNamecheapService config = false ->
        exists rdapResults, initial = map (rdapEntry rdapResults) normalized)
    /\ handleCheckBulk fetchIPv4 newURL fetchBootstrap fetchDomain config
                       namecheapCheckBulk domains verify_http st log
       = (ToolOk
            (let results := map (mergeHttp httpResults) initial in
             mkBulkCheckResult results (length results)
               (countStatus available results) (countStatus taken results)
               (countStatus parked results) (countStatus for_sale results)),
          (st', log')).
Proof.
  intros [Hlo Hhi] Hall. unfold handleCheckBulk.
  destruct (Nat.eqb_spec (length domains) 0) as [H0 | _]; [lia |].
  destruct (Nat.ltb_spec 50 (length domains)) as [H50 | _]; [lia |].
  destruct (validateEach_errors domains 0 [] []) as (errors & Herr & Hiff).
  destruct (validateEach_valid domains 0 [] [] Hall) as (normalized & Hn & H2).
  destruct (validateEach 0 domains [] []) as [ns es]. simpl in Herr, Hn.
  subst ns es. apply Hiff in Hall. subst errors. cbn [length Nat.ltb Nat.leb].
  set (fromNamecheap :=
         if hasNamecheapService config
         then match namecheapCheckBulk normalized with
              | Some namecheapResults => namecheapResults
              | None => []
              end
         else []).
  assert (Hinit : exists initial st1 log1,
             (if (length fromNamecheap =? 0)%nat
              then
                let '(rdapResults, (st1, log1)) :=
                  RdapService.checkBulk fetchBootstrap fetchDomain normalized st log in
                (map (rdapEntry rdapResults) normalized, (st1, log1))
              else (fromNamecheap, (st, log)))
             = (initial, (st1, log1))
             /\ (hasNamecheapService config = false ->
                 exists rdapResults, initial = map (rdapEntry rdapResults) normalized)).
  { destruct (length fromNamecheap =? 0)%nat eqn:Hlen.
    - destruct (RdapService.checkBulk fetchBootstrap fetchDomain normalized st log)
        as [rdapResults [st1 log1]].
      exists (map (rdapEntry rdapResults) normalized), st1, log1.
      split; [reflexivity |]. intros _. exists rdapResults. reflexivity.
    - exists fromNamecheap, st, log. split; [reflexivity |].
      intros Hno. subst fromNamecheap. rewrite Hno in Hlen. discriminate. }
  destruct Hinit as (initial & st1 & log1 & Heq & Hrdap). rewrite Heq.
  destruct (verify_http && enableHttpVerification config
            && (length domains <=? 20)%nat).
  - destruct (verifyBulk fetchIPv4 newURL normalized log1) as [httpResults log2].
    exists normalized, initial, httpResults, st1, log2.
    split; [exact H2 |]. split; [exact Hrdap | reflexivity].
  - exists normalized, initial, ∅, st1, log1.
    split; [exact H2 |]. split; [exact Hrdap |].
    assert (Hid : map (mergeHttp ∅) initial = initial).
    { clear. induction initial as [| r rest IH]; simpl; [reflexivity |].
      rewrite IH. unfold mergeHttp. rewrite lookup_empty. reflexivity. }
    cbv zeta. rewrite Hid. reflexivity.
Qed.

(** [handleCheckBulk] on an input that does not pass validation. *)
Lemma handleCheckBulk_reject (domains : list JsValue) (verify_http : bool)
      (st : RdapService.State) (log : RequestLog) :
  ~ (1 <= length domains <= 50
     /\ Forall (fun d => exists n, validateDomain d = Valid n) domains) ->
  exists text,
    handleCheckBulk fetchIPv4 newURL fetchBootstrap fetchDomain config
      namecheapCheckBulk domains verify_http st log
    = (ToolError text, (st, log)).
Proof.
  intros Hnot. unfold handleCheckBulk.
  destruct (Nat.eqb_spec (length domains) 0) as [H0 | H0]; [eauto |].
  destruct (Nat.ltb_spec 50 (length domains)) as [H50 | H50]; [eauto |].
  destruct (validateEach_errors domains 0 [] []) as (errors & Herr & Hiff).
  destruct (validateEach 0 domains [] []) as [ns es]. simpl in Herr. subst es.
  destruct errors as [| e errors]; [| simpl; eauto].
  exfalso. apply Hnot. split; [lia |]. apply Hiff. reflexivity.
Qed.

(** X19.  [handleCheckBulk] answers with a result exactly when it is
    given 1 to 50 entries that are all valid domains; otherwise it
    answers with an error and has issued no request and left the RDAP
    service as it was. *)
Theorem check_bulk_input_gate (domains : list JsValue) (verify_http : bool)
        (st : RdapService.State) (log : RequestLog) :
  ((exists result,
       fst (handleCheckBulk fetchIPv4 newURL fetchBootstrap fetchDomain config
              namecheapCheckBulk domains verify_http st log) = ToolOk result)
   <-> (1 <= length domains <= 50
        /\ Forall (fun d => exists n, validateDomain d = Valid n) domains))
  /\ (forall text,
         fst (handleCheckBulk fetchIPv4 newURL fetchBootstrap fetchDomain config
                namecheapCheckBulk domains verify_http st log) = ToolError text ->
         snd (handleCheckBulk fetchIPv4 newURL fetchBootstrap fetchDomain config
                namecheapCheckBulk domains verify_http st log) = (st, log)).
Proof.
  destruct (bulk_input_decidable domains) as [Hok | Hnot].
  - destruct (handleCheckBulk_run domains verify_http st log (proj1 Hok) (proj2 Hok))
      as (normalized & initial & httpResults & st' & log' & _ & _ & Heq).
    rewrite Heq. simpl. split.
    + split; [intros _; exact Hok | intros _; eauto].
    + discriminate.
  - destruct (handleCheckBulk_reject domains verify_http st log Hnot) as [text Heq]. rewrite Heq. simpl. split.
    + split; [intros [r Hr]; discriminate | intros H; contradiction].
    + reflexivity.
Qed.

(** X20.  In a result of [handleCheckBulk] the total is the number of
    results, and the four tallies add up to the total less the results
    that are unknown or premium.  Without the Namecheap service there is
    exactly one result for each input entry, in order and under its
    normalised name, and none is premium. *)
Theorem check_bulk_tallies (domains : list JsValue) (verify_http : bool)
        (st : RdapService.State) (log : RequestLog) (result : BulkCheckResult) :
  fst (handleCheckBulk fetchIPv4 newURL fetchBootstrap fetchDomain config
         namecheapCheckBulk domains verify_http st log) = ToolOk result ->
  totalChecked result = length (bulkResults result)
  /\ availableCount result + takenCount result + parkedCount result
     + forSaleCount result
     + countStatus unknown (bulkResults result)
     + countStatus premium (bulkResults result)
     = totalChecked result
  /\ (hasNamecheapService config = false ->
      Forall2 (fun d r => validateDomain d = Valid (checkedDomain r))
              domains (bulkResults result)
      /\ countStatus premium (bulkResults result) = 0).
Proof.
  intros Hres.
  destruct (bulk_input_decidable domains) as [Hok | Hnot].
  - destruct (handleCheckBulk_run domains verify_http st log (proj1 Hok) (proj2 Hok))
      as (normalized & initial & httpResults & st' & log' & H2 & Hrdap & Heq).
    rewrite Heq in Hres. simpl in Hres. inversion Hres; subst result. clear Hres.
    cbn [totalChecked bulkResults availableCount takenCount parkedCount forSaleCount].
    split; [reflexivity |]. split; [apply countStatus_total |].
    intros Hno. destruct (Hrdap Hno) as [rdapResults ->]. split.
    + clear -H2. induction H2 as [| d n ds ns Hd _ IH]; simpl; constructor.
      * destruct (mergeHttp_fields httpResults (rdapEntry rdapResults n)) as [-> _].
        destruct (rdapEntry_fields rdapResults n) as [-> _]. exact Hd.
      * exact IH.
    + apply countStatus_none. rewrite Forall_map, Forall_map.
      apply Forall_forall. intros n _.
      apply mergeHttp_fields. apply rdapEntry_fields.
  - exfalso.
    assert (Hgate := handleCheckBulk_reject domains verify_http st log Hnot).
    destruct Hgate as [text Heq]. rewrite Heq in Hres. discriminate.
Qed.

End BulkHandlerFacts.

(** * [handleDetectParking] *)

(** X21.  [handleDetectParking] reports an error for an invalid domain
    without issuing a request.  Otherwise it reports the probe of the
    normalised domain: [isParked] holds exactly when the parking evidence
    is present, which is exactly for the statuses parked and for_sale; a
    redirect URL is reported only with [isParked]; and the HTTP status
    code is missing exactly when the status is unknown. *)
Theorem detect_parking_report
        (fetchIPv4 : RequestLog -> string -> FetchOutcome)
        (newURL : string -> string -> option URL)
        (domain : JsValue) (log : RequestLog) :
  match handleDetectParking fetchIPv4 newURL domain log with
  | (ToolError _, log') =>
      (forall n, validateDomain domain <> Valid n) /\ log' = log
  | (ToolOk report, log') =>
      validateDomain domain = Valid (reportDomain report)
      /\ (reportIsParked report = true <-> reportParking report <> None)
      /\ (reportIsParked report = true
          <-> reportStatus report = parked \/ reportStatus report = for_sale)
      /\ (reportRedirectUrl report <> None -> reportIsParked report = true)
      /\ (reportHttpStatus report = None <-> reportStatus report = unknown)
  end.
Proof.
  unfold handleDetectParking.
  destruct (validateDomain domain) as [normalizedDomain | message].
  - pose proof (verifyDomain_shape fetchIPv4 newURL normalizedDomain log) as Hshape.
    destruct (verifyDomain fetchIPv4 newURL normalizedDomain log) as [r log1].
    destruct Hshape as (Hpd & _ & _ & Hcode & Hredirect).
    cbn [fst] in *.
    cbn [reportDomain reportIsParked reportParking reportStatus
         reportRedirectUrl reportHttpStatus].
    assert (Hflag : DomainStatus_eqb (status r) parked
                    || DomainStatus_eqb (status r) for_sale = true
                    <-> status r = parked \/ status r = for_sale).
    { destruct (status r); simpl; intuition (try discriminate; try reflexivity). }
    split; [reflexivity |]. split; [rewrite Hflag, Hpd; reflexivity |].
    split; [exact Hflag |]. split; [| exact Hcode].
    intros Hr. apply Hflag. left. apply Hredirect. exact Hr.
  - split; [intros n; discriminate | reflexivity].
Qed.

(** * [handleSearchDomains] *)

Section CheapestFacts.

Variable Price : Type.
Variable priceLt : Price -> Price -> bool.
Hypothesis priceLt_irrefl : forall p, priceLt p p = false.
Hypothesis priceLt_trans :
  forall p q r, priceLt p q = true -> priceLt q r = true -> priceLt p r = true.

Lemma collectCheapest_concat (answers : list (list (AftermarketListing Price))) :
  collectCheapest priceLt answers
  = fold_left (keepCheapest priceLt) (concat answers) ∅.
Proof.
  unfold collectCheapest.
  generalize (∅ : gmap string (CheapestListing Price)) as m.
  induction answers as [| listings rest IH]; intros m; simpl; [reflexivity |].
  rewrite fold_left_app. apply IH.
Qed.

Lemma keepCheapest_invariant (listings : list (AftermarketListing Price))
      (key : string) :
  match fold_left (keepCheapest priceLt) listings ∅ !! key with
  | Some entry =>
      (exists listing,
          In listing listings
          /\ Js.toLowerCase (listingDomain listing) = key
          /\ entry = cheapestOf listing)
      /\ (forall listing,
             In listing listings ->
             Js.toLowerCase (listingDomain listing) = key ->
             priceLt (listingPrice listing) (cheapestPrice entry) = false)
  | None =>
      forall listing,
        In listing listings -> Js.toLowerCase (listingDomain listing) <> key
  end.
Proof.
  induction listings as [| x listings IH] using rev_ind.
  - simpl. rewrite lookup_empty. intros listing [].
  - rewrite fold_left_app. cbn [fold_left].
    set (m := fold_left (keepCheapest priceLt) listings ∅) in *.
    unfold keepCheapest. cbv zeta.
    destruct (decide (Js.toLowerCase (listingDomain x) = key)) as [Hkey | Hne].
    + subst key.
      destruct (m !! Js.toLowerCase (listingDomain x)) as [existing |] eqn:Hm.
      * destruct IH as [(l0 & Hin & Hk & He) Hmin].
        destruct (priceLt (listingPrice x) (cheapestPrice existing)) eqn:Hlt.
        -- rewrite lookup_insert_eq. split.
           ++ exists x. split; [apply in_or_app; right; left; reflexivity |].
              split; reflexivity.
           ++ intros l Hl Hkl. apply in_app_or in Hl.
              destruct Hl as [Hl | [<- | []]]; [| apply priceLt_irrefl].
              cbn [cheapestOf cheapestPrice].
              destruct (priceLt (listingPrice l) (listingPrice x)) eqn:Hlx;
                [| reflexivity].
              rewrite <- (Hmin l Hl Hkl). symmetry.
              apply (priceLt_trans _ _ _ Hlx Hlt).
        -- rewrite Hm. split.
           ++ exists l0. split; [apply in_or_app; left; exact Hin |].
              split; assumption.
           ++ intros l Hl Hkl. apply in_app_or in Hl.
              destruct Hl as [Hl | [<- | []]]; [apply Hmin; assumption | exact Hlt].
      * rewrite lookup_insert_eq. split.
        -- exists x. split; [apply in_or_app; right; left; reflexivity |].
           split; reflexivity.
        -- intros l Hl Hkl. apply in_app_or in Hl.
           destruct Hl as [Hl | [<- | []]]; [| apply priceLt_irrefl].
           exfalso. exact (IH l Hl Hkl).
    + assert (Hsame : (match m !! Js.toLowerCase (listingDomain x) with
                       | Some existing =>
                           if priceLt (listingPrice x) (cheapestPrice existing)
                           then <[Js.toLowerCase (listingDomain x) := cheapestOf x]> m
                           else m
                       | None => <[Js.toLowerCase (listingDomain x) := cheapestOf x]> m
                       end) !! key = m !! key).
      { destruct (m !! Js.toLowerCase (listingDomain x)) as [existing |];
          [destruct (priceLt _ _) |];
          rewrite ?lookup_insert_ne by exact Hne; reflexivity. }
      rewrite Hsame.
      destruct (m !! key) as [entry |].
      * destruct IH as [(l0 & Hin & Hk & He) Hmin]. split.
        -- exists l0. split; [apply in_or_app; left; exact Hin |].
           split; assumption.
        -- intros l Hl Hkl. apply in_app_or in Hl.
           destruct Hl as [Hl | [<- | []]]; [apply Hmin; assumption | contradiction].
      * intros l Hl. apply in_app_or in Hl.
        destruct Hl as [Hl | [<- | []]]; [apply IH; exact Hl | exact Hne].
Qed.

(** X22.  The aftermarket map of [handleSearchDomains] has an entry for
    exactly the lower-cased domains that some provider listed; the entry
    is made of one of the listings of that domain, and no listing of the
    domain is cheaper than it. *)
Theorem cheapest_listing_kept (answers : list (list (AftermarketListing Price)))
        (key : string) :
  match collectCheapest priceLt answers !! key with
  | Some entry =>
      (exists listing,
          In listing (concat answers)
          /\ Js.toLowerCase (listingDomain listing) = key
          /\ entry = cheapestOf listing)
      /\ (forall listing,
             In listing (concat answers) ->
             Js.toLowerCase (listingDomain listing) = key ->
             priceLt (listingPrice listing) (cheapestPrice entry) = false)
  | None =>
      forall listing,
        In listing (concat answers) ->
        Js.toLowerCase (listingDomain listing) <> key
  end.
Proof. rewrite collectCheapest_concat. apply keepCheapest_invariant. Qed.

End CheapestFacts.

Lemma cheapest_listing_kept_witness :
  match collectCheapest Z.ltb
          [[mkAftermarketListing "Example.com" 500%Z "USD" "Namecheap"];
           [mkAftermarketListing "example.com" 300%Z "USD" "Sedo"]]
        !! "example.com" with
  | Some entry => Z.ltb 300 (cheapestPrice entry) = false
  | None => False
  end.
Proof.
  pose proof (cheapest_listing_kept Z Z.ltb Z.ltb_irrefl
                (fun p q r Hpq Hqr =>
                   proj2 (Z.ltb_lt p r)
                     (Z.lt_trans p q r (proj1 (Z.ltb_lt p q) Hpq)
                                       (proj1 (Z.ltb_lt q r) Hqr)))
                [[mkAftermarketListing "Example.com" 500%Z "USD" "Namecheap"];
                 [mkAftermarketListing "example.com" 300%Z "USD" "Sedo"]]
                "example.com") as H.
  destruct (collectCheapest Z.ltb _ !! "example.com") as [entry |].
  - destruct H as [_ Hmin].
    apply (Hmin (mkAftermarketListing "example.com" 300%Z "USD" "Sedo"));
      [simpl; auto | reflexivity].
  - apply (H (mkAftermarketListing "example.com" 300%Z "USD" "Sedo"));
      [simpl; auto | reflexivity].
Defined.

Lemma searchEntry_fields {Price : Type}
      (rdapResults : gmap string RdapService.RdapResult)
      (aftermarketListings : option (gmap string (CheapestListing Price)))
      (domain : string) :
  searchedDomain (searchEntry rdapResults aftermarketListings domain) = domain
  /\ (searchedStatus (searchEntry rdapResults aftermarketListings domain) = available
      \/ searchedStatus (searchEntry rdapResults aftermarketListings domain) = taken
      \/ searchedStatus (searchEntry rdapResults aftermarketListings domain) = for_sale
      \/ searchedStatus (searchEntry rdapResults aftermarketListings domain) = unknown)
  /\ (searchedStatus (searchEntry rdapResults aftermarketListings domain) = for_sale
      -> searchedAftermarket (searchEntry rdapResults aftermarketListings domain)
         <> None)
  /\ (searchedAftermarket (searchEntry rdapResults aftermarketListings domain)
      <> None
      -> searchedStatus (searchEntry rdapResults aftermarketListings domain)
         <> taken)
  /\ (aftermarketListings = None
      -> searchedAftermarket (searchEntry rdapResults aftermarketListings domain)
         = None).
Proof.
  unfold searchEntry. cbv zeta.
  cbn [searchedDomain searchedStatus searchedAftermarket].
  split; [reflexivity |].
  destruct (match aftermarketListings with
            | Some m => m !! Js.toLowerCase domain
            | None => None
            end) as [entry |] eqn:Ha;
    destruct (rdapResults !! domain) as [r |];
    try destruct (RdapService.available r);
    try destruct (RdapService.registered r);
    cbn [DomainStatus_eqb];
    (split; [auto |]); (split; [intros H; try discriminate H; discriminate |]);
    (split; [intros H; try discriminate; try congruence |]);
    intros ->; try discriminate Ha; reflexivity.
Qed.

Section SearchFacts.

Variable fetchBootstrap :
  RequestLog -> RdapService.JsonOutcome (list (list string * list string)).
Variable fetchDomain :
  RequestLog -> string -> RdapService.JsonOutcome RdapService.RdapDomainResponse.
Variable env : Env.
Variable config : ServerConfig.
Variable Price : Type.
Variable priceLt : Price -> Price -> bool.
Variable searchListings :
  Providers.AftermarketProvider -> string -> list string ->
  list (AftermarketListing Price).


End SearchFacts.

(** * Sample runs of the handlers *)

Lemma check_domain_ignores_namecheap_witness :
  handleCheckDomain
    (alwaysReject "getaddrinfo ENOTFOUND") (urlOnHost "example.com")
    (fun _ => RdapService.JsonRejected "offline")
    (fun _ _ => RdapService.JsonResolved 404 (inl "no body"))
    (fun _ => None)
    (mkServerConfig
       (Some (mkNamecheapConfig None (Some "user") (Some "key") (Some "name")
                                (Some "192.0.2.1")))
       None true)
    (fun _ => NamecheapResult premium)
    (JsString " Example.COM ") true RdapService.initial []
  = handleCheckDomain
      (alwaysReject "getaddrinfo ENOTFOUND") (urlOnHost "example.com")
      (fun _ => RdapService.JsonRejected "offline")
      (fun _ _ => RdapService.JsonResolved 404 (inl "no body"))
      (fun _ => None)
      (mkServerConfig
         (Some (mkNamecheapConfig None (Some "user") (Some "key") (Some "name")
                                  (Some "192.0.2.1")))
         None true)
      (fun _ => NamecheapThrows)
      (JsString " Example.COM ") true RdapService.initial [].
Proof.
  destruct (check_domain_ignores_namecheap
              (alwaysReject "getaddrinfo ENOTFOUND") (urlOnHost "example.com")
              (fun _ => RdapService.JsonRejected "offline")
              (fun _ _ => RdapService.JsonResolved 404 (inl "no body"))
              (fun _ => None)
              (mkServerConfig
                 (Some (mkNamecheapConfig None (Some "user") (Some "key")
                                          (Some "name") (Some "192.0.2.1")))
                 None true)
              (fun _ => NamecheapResult premium) (fun _ => NamecheapThrows)
              (JsString " Example.COM ") true RdapService.initial [])
    as [Hsame _].
  exact Hsame.
Defined.

Lemma http_never_makes_available_witness :
  checkedStatus
    (mkDomainCheckResult "example.com" "com" available None None None "rdap")
  = available.
Proof.
  destruct (http_never_makes_available
              (alwaysReject "getaddrinfo ENOTFOUND") (urlOnHost "example.com")
              (mkServerConfig None None true)) as (_ & Hcheck & _).
  apply (Hcheck true (RdapService.notRegistered "example.com") "example.com"
                (mkDomainCheckResult "example.com" "com" available None None None
                                     "rdap") []).
  vm_compute. reflexivity.
Defined.

Lemma check_bulk_tallies_witness :
  exists result,
    fst (handleCheckBulk
           (alwaysReject "getaddrinfo ENOTFOUND") (urlOnHost "example.com")
           (fun _ => RdapService.JsonRejected "offline")
           (fun _ _ => RdapService.JsonResolved 404 (inl "no body"))
           (mkServerConfig None None true) (fun _ => None)
           [JsString " Example.COM "; JsString "example.org"] true
           RdapService.initial [])
    = ToolOk result
    /\ totalChecked result = 2
    /\ availableCount result + takenCount result + parkedCount result
       + forSaleCount result
       + countStatus unknown (bulkResults result)
       + countStatus premium (bulkResults result)
       = totalChecked result.
Proof.
  eexists. split; [vm_compute; reflexivity |]. split; [reflexivity |].
  destruct (check_bulk_tallies
              (alwaysReject "getaddrinfo ENOTFOUND") (urlOnHost "example.com")
              (fun _ => RdapService.JsonRejected "offline")
              (fun _ _ => RdapService.JsonResolved 404 (inl "no body"))
              (mkServerConfig None None true) (fun _ => None)
              [JsString " Example.COM "; JsString "example.org"] true
              RdapService.initial [] _ ltac:(vm_compute; reflexivity))
    as (_ & Hsum & _).
  exact Hsum.
Defined.

